(** * WebsocketProxy: a shallow embedding of [websocketproxy.go]

    The proxy keeps a pool of backend resolvers, picks one of them per
    connection attempt (round robin with a per-backend skip budget),
    dials it with forwarded headers and then relays messages in both
    directions.  The development below follows the Go source function by
    function:

    - Go's [int] is taken to be the 64-bit integer of the usual
      platforms, with its wrap-around;
    - [map[int]int] and [http.Header] are finite maps;
    - a panic is an explicit outcome of a call;
    - what the code obtains from its environment (the clock that seeds
      the random generator, the dialer, the upgrader, the two connections
      of a relay) is an oracle that the theorems quantify over, and every
      use of it is recorded in a history;
    - the calls of [log] are left out;
    - the two relay tasks of a session are described one at a time, each
      by the trace of its reads, writes and its send on the channel. *)

From Stdlib Require Import ZArith List Lia Permutation Ascii String.
From stdpp Require Import base option list gmap strings.

Local Open Scope string_scope.
Local Open Scope Z_scope.

(** ** Go's [int] *)

Module GoInt.

Definition min_int : Z := - 2 ^ 63.
Definition max_int : Z := 2 ^ 63 - 1.

(** Two's complement wrap-around of a mathematical integer. *)
Definition wrap (z : Z) : Z := (z + 2 ^ 63) mod 2 ^ 64 - 2 ^ 63.

(** [x++] on an [int]. *)
Definition incr (x : Z) : Z := wrap (x + 1).

(** [x--] on an [int]. *)
Definition decr (x : Z) : Z := wrap (x - 1).

Definition in_range (z : Z) : Prop := min_int <= z <= max_int.

End GoInt.

(** ** Outcomes of a call

    A Go call either returns or panics.  [Timeout] is the model's own
    third case for a loop that is given too little fuel; the theorems
    show that it never occurs. *)

Inductive panic : Type :=
  | IndexOutOfRange (index len : Z)
  | IntnInvalidArgument (n : Z)
  | DivideByZero.

Inductive outcome (A : Type) : Type :=
  | Done (a : A)
  | Panic (p : panic)
  | Timeout.

Arguments Done {A} a.
Arguments Panic {A} p.
Arguments Timeout {A}.

(** [a % b] on [int]: the remainder has the sign of the dividend, and a
    zero divisor panics. *)
Definition go_rem (a b : Z) : outcome Z :=
  if b =? 0 then Panic DivideByZero else Done (Z.rem a b).

(** ** Strings: [strings.Join] and [net.SplitHostPort] *)

Fixpoint strings_Join (elems : list string) (sep : string) : string :=
  match elems with
  | [] => ""
  | [e] => e
  | e :: rest => e +:+ sep +:+ strings_Join rest sep
  end.

(** Index of the first occurrence of [c], or [-1]. *)
Fixpoint IndexByte (s : string) (c : ascii) : Z :=
  match s with
  | EmptyString => -1
  | String a rest =>
      if Ascii.eqb a c then 0
      else let i := IndexByte rest c in if i <? 0 then -1 else i + 1
  end.

(** Index of the last occurrence of [c], or [-1]. *)
Fixpoint LastIndexByte (s : string) (c : ascii) : Z :=
  match s with
  | EmptyString => -1
  | String a rest =>
      let i := LastIndexByte rest c in
      if 0 <=? i then i + 1
      else if Ascii.eqb a c then 0 else -1
  end.

Definition strlen (s : string) : Z := Z.of_nat (String.length s).

(** [s[lo:hi]] for [0 <= lo <= hi <= len(s)]. *)
Definition slice (s : string) (lo hi : Z) : string :=
  String.substring (Z.to_nat lo) (Z.to_nat (hi - lo)) s.

Definition byte_at (s : string) (i : Z) : option ascii :=
  String.get (Z.to_nat i) s.

(** [net.SplitHostPort] of the Go standard library: the port starts after
    the last colon; a host with a colon must be bracketed; [None] stands
    for the [*AddrError] results. *)
Definition SplitHostPort (hostport : string) : option (string * string) :=
  let i := LastIndexByte hostport ":" in
  if i <? 0 then None (* missing port in address *)
  else
    let bracketed :=
      match byte_at hostport 0 with
      | Some c => Ascii.eqb c "["
      | None => false
      end in
    let parsed : option (string * Z * Z) :=
      if bracketed then
        let e := IndexByte hostport "]" in
        if e <? 0 then None (* missing ']' in address *)
        else if e + 1 =? strlen hostport then None (* missing port *)
        else if e + 1 =? i then Some (slice hostport 1 e, 1, e + 1)
        else None (* too many colons, or missing port *)
      else
        let host := slice hostport 0 i in
        if 0 <=? IndexByte host ":" then None (* too many colons *)
        else Some (host, 0, 0) in
    match parsed with
    | None => None
    | Some (host, j, k) =>
        if 0 <=? IndexByte (slice hostport j (strlen hostport)) "[" then None
        else if 0 <=? IndexByte (slice hostport k (strlen hostport)) "]" then None
        else Some (host, slice hostport (i + 1) (strlen hostport))
    end.

(** ** [http.Header]

    A header set is a map from canonical keys to the list of values of
    that key, in order. *)

Abbreviation Header := (gmap string (list string)).

Definition is_lower (c : ascii) : bool :=
  let n := nat_of_ascii c in (97 <=? n)%nat && (n <=? 122)%nat.
Definition is_upper (c : ascii) : bool :=
  let n := nat_of_ascii c in (65 <=? n)%nat && (n <=? 90)%nat.
Definition is_digit (c : ascii) : bool :=
  let n := nat_of_ascii c in (48 <=? n)%nat && (n <=? 57)%nat.

Definition to_upper (c : ascii) : ascii :=
  if is_lower c then ascii_of_nat (nat_of_ascii c - 32) else c.
Definition to_lower (c : ascii) : ascii :=
  if is_upper c then ascii_of_nat (nat_of_ascii c + 32) else c.

(** The bytes of an HTTP token: letters, digits and [!#$%&'*+-.^_`|~]. *)
Definition validHeaderFieldByte (c : ascii) : bool :=
  is_lower c || is_upper c || is_digit c
  || existsb (Ascii.eqb c)
       ["!"; "#"; "$"; "%"; "&"; "'"; "*"; "+"; "-"; "."; "^"; "_"; "`"; "|"; "~"]%char.

Fixpoint all_bytes (p : ascii -> bool) (s : string) : bool :=
  match s with
  | EmptyString => true
  | String a rest => p a && all_bytes p rest
  end.

Fixpoint canonical_from (upper : bool) (s : string) : string :=
  match s with
  | EmptyString => EmptyString
  | String a rest =>
      let c := if upper then to_upper a else to_lower a in
      String c (canonical_from (Ascii.eqb c "-") rest)
  end.

(** [http.CanonicalHeaderKey]: the first letter and every letter after a
    hyphen in upper case, the others in lower case; a key with a space or
    a byte that is not a token byte is returned unchanged. *)
Definition CanonicalHeaderKey (s : string) : string :=
  if all_bytes validHeaderFieldByte s then canonical_from true s else s.

(** [h[key]]: direct indexing, [nil] for a missing key. *)
Definition Header_index (h : Header) (key : string) : list string :=
  default [] (h !! key).

(** [h.Get(key)]: the first value of the canonical key, or [""]. *)
Definition Header_Get (h : Header) (key : string) : string :=
  match h !! CanonicalHeaderKey key with
  | Some (v :: _) => v
  | _ => ""
  end.

(** [h.Add(key, value)]: appends to the values of the canonical key. *)
Definition Header_Add (h : Header) (key value : string) : Header :=
  let k := CanonicalHeaderKey key in
  <[k := (Header_index h k ++ [value])%list]> h.

(** [h.Set(key, value)]: replaces the values of the canonical key. *)
Definition Header_Set (h : Header) (key value : string) : Header :=
  <[CanonicalHeaderKey key := [value]]> h.

(** ** URLs and requests *)

(** [url.URL], field by field. *)
Record url_URL : Type := {
  Scheme : string;
  Opaque : string;
  User : option (string * option string);
  Host : string;
  Path : string;
  RawPath : string;
  OmitHost : bool;
  ForceQuery : bool;
  RawQuery : string;
  Fragment : string;
  RawFragment : string
}.

(** [tls.ConnectionState]; only whether [req.TLS] is [nil] matters. *)
Inductive tls_ConnectionState : Type := TLSState.

(** The fields of [http.Request] that the proxy reads. *)
Record http_Request : Type := {
  Request_URL : url_URL;
  Request_Header : Header;
  Request_RemoteAddr : string;
  Request_TLS : option tls_ConnectionState
}.

(** The handshake response of a backend. *)
Record http_Response : Type := { Response_Header : Header }.

(** ** The environment

    A connection is known by its name.  Every interaction with the
    outside is recorded in a history, oldest event first, and an oracle
    is a function of the history so far, so that two dials of the same
    URL can end differently. *)

Definition error : Type := string.
Definition websocket_Conn : Type := nat.

Inductive DialResult : Type :=
  | DialOk (conn : websocket_Conn) (resp : http_Response)
  | DialErr (err : error).

Inductive UpgradeResult : Type :=
  | UpgradeOk (conn : websocket_Conn)
  | UpgradeErr (err : error).

Inductive Event : Type :=
  | EvNow                                   (* time.Now() seeds a generator *)
  | EvDial (u : url_URL) (h : Header) (res : DialResult)
  | EvError (body : string) (code : Z)      (* http.Error(rw, body, code) *)
  | EvUpgrade (h : Header) (res : UpgradeResult)
  | EvClose (c : websocket_Conn).

(** [websocket.Dialer] and [websocket.Upgrader], known by their methods.
    [Dial] stands for [dialer.Dial(u.String(), h)]. *)
Record websocket_Dialer : Type := {
  Dial : list Event -> url_URL -> Header -> DialResult
}.

Record websocket_Upgrader : Type := {
  Upgrade : list Event -> http_Request -> Header -> UpgradeResult
}.

Record Env : Type := {
  (** the first value of the generator seeded with the clock *)
  entropy : list Event -> Z;
  DefaultDialer : websocket_Dialer;
  DefaultUpgrader : websocket_Upgrader
}.

(** ** The proxy *)

Record WebsocketProxy : Type := {
  Director : option (http_Request -> Header -> Header);
  Backends : list (http_Request -> url_URL);
  Upgrader : option websocket_Upgrader;
  Dialer : option websocket_Dialer;
  ReqCount : Z;
  DesolateBackend : gmap Z Z
}.

Definition NewProxy : WebsocketProxy :=
  {| Director := None; Backends := []; Upgrader := None; Dialer := None;
     ReqCount := 0; DesolateBackend := ∅ |}.

Definition ProxyHandler : WebsocketProxy := NewProxy.

(** The resolver of a backend: a copy of [target] whose fragment, path and
    raw query are those of the request. *)
Definition getRequestURL (target : url_URL) : http_Request -> url_URL :=
  fun r =>
    let u := target in
    {| Scheme := Scheme u; Opaque := Opaque u; User := User u; Host := Host u;
       Path := Path (Request_URL r);
       RawPath := RawPath u; OmitHost := OmitHost u; ForceQuery := ForceQuery u;
       RawQuery := RawQuery (Request_URL r);
       Fragment := Fragment (Request_URL r);
       RawFragment := RawFragment u |}.

Definition set_Backends (bs : list (http_Request -> url_URL)) (w : WebsocketProxy) :=
  {| Director := Director w; Backends := bs; Upgrader := Upgrader w;
     Dialer := Dialer w; ReqCount := ReqCount w;
     DesolateBackend := DesolateBackend w |}.

Definition set_ReqCount (c : Z) (w : WebsocketProxy) :=
  {| Director := Director w; Backends := Backends w; Upgrader := Upgrader w;
     Dialer := Dialer w; ReqCount := c;
     DesolateBackend := DesolateBackend w |}.

Definition set_DesolateBackend (m : gmap Z Z) (w : WebsocketProxy) :=
  {| Director := Director w; Backends := Backends w; Upgrader := Upgrader w;
     Dialer := Dialer w; ReqCount := ReqCount w;
     DesolateBackend := m |}.

Definition AddBackend (target : url_URL) (w : WebsocketProxy) : WebsocketProxy :=
  set_Backends (Backends w ++ [getRequestURL target])%list w.

(** ** The state of a run and the monad of the handler *)

Record World : Type := {
  proxy : WebsocketProxy;
  history : list Event
}.

Definition M (A : Type) : Type := World -> outcome A * World.

Definition ret {A} (a : A) : M A := fun s => (Done a, s).

Definition bind {A B} (m : M A) (k : A -> M B) : M B :=
  fun s =>
    match m s with
    | (Done a, s') => k a s'
    | (Panic p, s') => (Panic p, s')
    | (Timeout, s') => (Timeout, s')
    end.

Declare Scope go_scope.
Delimit Scope go_scope with go.
Notation "x <- m ;; k" := (bind m (fun x => k))
  (at level 100, m at next level, right associativity) : go_scope.
Notation "m ;; k" := (bind m (fun _ => k))
  (at level 100, right associativity) : go_scope.
Local Open Scope go_scope.

Definition lift {A} (o : outcome A) : M A := fun s => (o, s).
Definition get_proxy : M WebsocketProxy := fun s => (Done (proxy s), s).
Definition get_history : M (list Event) := fun s => (Done (history s), s).
Definition update (f : WebsocketProxy -> WebsocketProxy) : M unit :=
  fun s => (Done tt, {| proxy := f (proxy s); history := history s |}).
Definition emit (e : Event) : M unit :=
  fun s => (Done tt, {| proxy := proxy s; history := (history s ++ [e])%list |}).

(** [rand.New(rand.NewSource(time.Now().UnixNano())).Intn(n)]: reads the
    clock, panics for [n <= 0] and otherwise returns a value of [[0, n)],
    here the generator's first value reduced modulo [n]. *)
Definition rand_Intn (E : Env) (n : Z) : M Z :=
  h <- get_history ;;
  emit EvNow ;;
  if n <=? 0 then lift (Panic (IntnInvalidArgument n))
  else ret (entropy E h mod n).

(** ** [selectBackend] *)

(** One pass of the loop that is not the fall-back: the counter is
    incremented, the index derived from it, and the index is either
    returned ([inl]) or charged one skip ([inr]). *)
Definition select_round (backendcnt : Z) : M (Z + Z) :=
  update (fun w => set_ReqCount (GoInt.incr (ReqCount w)) w) ;;
  w <- get_proxy ;;
  index <- lift (go_rem (ReqCount w) backendcnt) ;;
  match DesolateBackend w !! index with
  | Some waitcnt =>
      if waitcnt <=? 0 then ret (inl index)
      else
        update (fun w => set_DesolateBackend
                  (<[index := GoInt.decr waitcnt]> (DesolateBackend w)) w) ;;
        ret (inr index)
  | None => ret (inl index)
  end.

(** The [for] loop; [selectcnt < backendcnt] where it is incremented, so
    that [selectcnt++] does not wrap. *)
Fixpoint select_loop (E : Env) (fuel : nat) (backendcnt selectcnt : Z) : M Z :=
  match fuel with
  | O => lift Timeout
  | S fuel' =>
      if selectcnt >=? backendcnt then rand_Intn E backendcnt
      else
        r <- select_round backendcnt ;;
        match r with
        | inl index => ret index
        | inr _ => select_loop E fuel' backendcnt (selectcnt + 1)
        end
  end.

Definition selectBackend (E : Env) : M Z :=
  w <- get_proxy ;;
  let backendcnt := Z.of_nat (length (Backends w)) in
  select_loop E (S (length (Backends w))) backendcnt 0.

(** ** [connectBackend] *)

(** [s[index]] on a slice: out of range panics. *)
Definition slice_index {A} (s : list A) (index : Z) : outcome A :=
  if (index <? 0) || (Z.of_nat (length s) <=? index)
  then Panic (IndexOutOfRange index (Z.of_nat (length s)))
  else match s !! Z.to_nat index with
       | Some a => Done a
       | None => Panic (IndexOutOfRange index (Z.of_nat (length s)))
       end.

(** The headers passed on to the backend, before the [Director] runs. *)
Definition forwardedHeader (req : http_Request) : Header :=
  let requestHeader : Header := ∅ in
  let requestHeader :=
    let origin := Header_Get (Request_Header req) "Origin" in
    if negb (String.eqb origin "") then Header_Add requestHeader "Origin" origin
    else requestHeader in
  let requestHeader :=
    fold_left (fun h prot => Header_Add h "Sec-WebSocket-Protocol" prot)
      (Header_index (Request_Header req)
         (CanonicalHeaderKey "Sec-WebSocket-Protocol"))
      requestHeader in
  let requestHeader :=
    fold_left (fun h cookie => Header_Add h "Cookie" cookie)
      (Header_index (Request_Header req) (CanonicalHeaderKey "Cookie"))
      requestHeader in
  let requestHeader :=
    match SplitHostPort (Request_RemoteAddr req) with
    | Some (clientIP, _) =>
        let clientIP :=
          match Request_Header req !! "X-Forwarded-For" with
          | Some prior => (strings_Join prior ", " +:+ ", ") +:+ clientIP
          | None => clientIP
          end in
        Header_Set requestHeader "X-Forwarded-For" clientIP
    | None => requestHeader
    end in
  let requestHeader := Header_Set requestHeader "X-Forwarded-Proto" "http" in
  match Request_TLS req with
  | Some _ => Header_Set requestHeader "X-Forwarded-Proto" "https"
  | None => requestHeader
  end.

(** The complete [requestHeader]: the [Director], when there is one, sees
    the request and the headers built so far and may change them. *)
Definition requestHeader (w : WebsocketProxy) (req : http_Request) : Header :=
  match Director w with
  | Some director => director req (forwardedHeader req)
  | None => forwardedHeader req
  end.

(** The headers of the backend's response that are passed to the
    upgrader. *)
Definition upgradeHeader (resp : http_Response) : Header :=
  let upgradeHeader : Header := ∅ in
  let upgradeHeader :=
    let hdr := Header_Get (Response_Header resp) "Sec-Websocket-Protocol" in
    if negb (String.eqb hdr "")
    then Header_Set upgradeHeader "Sec-Websocket-Protocol" hdr
    else upgradeHeader in
  let hdr := Header_Get (Response_Header resp) "Set-Cookie" in
  if negb (String.eqb hdr "") then Header_Set upgradeHeader "Set-Cookie" hdr
  else upgradeHeader.

(** The three results [(conn, header, err)] of an establishment: either a
    connection with its upgrade headers and a [nil] error, or an error. *)
Inductive Established : Type :=
  | Connected (connBackend : websocket_Conn) (upgradeHeader : Header)
  | Failed (err : error).

Definition mark (index waitcnt : Z) : M unit :=
  update (fun w =>
    set_DesolateBackend (<[index := waitcnt]> (DesolateBackend w)) w).

Definition connectBackend (E : Env) (req : http_Request) : M Established :=
  index <- selectBackend E ;;
  w <- get_proxy ;;
  backend <- lift (slice_index (Backends w) index) ;;
  let backendURL := backend req in
  let dialer := match Dialer w with Some d => d | None => DefaultDialer E end in
  let requestHeader := requestHeader w req in
  h <- get_history ;;
  let res := Dial dialer h backendURL requestHeader in
  emit (EvDial backendURL requestHeader res) ;;
  match res with
  | DialErr err =>
      mark index 5 ;;
      ret (Failed err)
  | DialOk connBackend resp =>
      mark index 0 ;;
      ret (Connected connBackend (upgradeHeader resp))
  end.

(** ** [tryGetBackendConn] and [ServeHTTP] *)

(** [for i := 0; i < backendCount; i++], by the number of passes left. *)
Fixpoint try_loop (E : Env) (req : http_Request) (left : nat) : M Established :=
  match left with
  | O => ret (Failed "No backend available")
  | S left' =>
      r <- connectBackend E req ;;
      match r with
      | Failed _ => try_loop E req left'
      | Connected connBackend upgradeHeader =>
          ret (Connected connBackend upgradeHeader)
      end
  end.

Definition tryGetBackendConn (E : Env) (req : http_Request) : M Established :=
  w <- get_proxy ;;
  let backendCount := length (Backends w) in
  try_loop E req backendCount.

(** How the sequential part of the handler ends: with an error response,
    with a failed upgrade, or with both connections open and the two
    relay tasks started. *)
Inductive Served : Type :=
  | RespondedError
  | UpgradeFailed
  | Relaying (connPub connBackend : websocket_Conn).

Definition StatusInternalServerError : Z := 500.

Definition ServeHTTP (E : Env) (req : http_Request) : M Served :=
  r <- tryGetBackendConn E req ;;
  match r with
  | Failed err =>
      emit (EvError "internal server error (code: 2)" StatusInternalServerError) ;;
      ret RespondedError
  | Connected connBackend upgradeHeader =>
      w <- get_proxy ;;
      let upgrader :=
        match Upgrader w with Some u => u | None => DefaultUpgrader E end in
      h <- get_history ;;
      let res := Upgrade upgrader h req upgradeHeader in
      emit (EvUpgrade upgradeHeader res) ;;
      match res with
      | UpgradeErr err =>
          emit (EvClose connBackend) ;;
          ret UpgradeFailed
      | UpgradeOk connPub => ret (Relaying connPub connBackend)
      end
  end.

(** ** The relay task [replicateWebsocketConn]

    A message is its type ([TextMessage] or [BinaryMessage]) and its
    payload.  The source connection is the list of the results of its
    [ReadMessage] calls; the destination answers each [WriteMessage]
    from the messages it has received so far. *)

Definition TextMessage : Z := 1.
Definition BinaryMessage : Z := 2.

Record Message : Type := { msgType : Z; msg : list Byte.byte }.

Inductive ReadResult : Type :=
  | ReadOk (m : Message)
  | ReadErr (err : error).

Definition Writer : Type := list Message -> Message -> option error.

Inductive RelayEvent : Type :=
  | Read (r : ReadResult)
  | Write (m : Message) (r : option error)
  | Send (v : option error).               (* errc <- v *)

(** The [for] loop of the task.  [err] is the variable declared before
    the loop; the body declares [msgType], [msg] and an [err] of its own
    with [:=], and assigns the result of [WriteMessage] to that one.  The
    result is the trace of the loop and, when the loop is left, the value
    of the outer [err]; [None] when the task still waits in
    [ReadMessage]. *)
Fixpoint replicate_loop (dst : Writer) (src : list ReadResult)
    (written : list Message) (err : option error)
    : list RelayEvent * option (option error) :=
  match src with
  | [] => ([], None)
  | r :: src' =>
      match r with
      | ReadErr err' => ([Read r], Some err)
      | ReadOk m =>
          let err' := dst written m in
          match err' with
          | Some _ => ([Read r; Write m err'], Some err)
          | None =>
              let '(evs, out) :=
                replicate_loop dst src' (written ++ [m])%list err in
              (Read r :: Write m None :: evs, out)
          end
      end
  end.

Definition replicateWebsocketConn (dst : Writer) (src : list ReadResult)
    : list RelayEvent :=
  let err : option error := None in
  match replicate_loop dst src [] err with
  | (evs, Some err) => (evs ++ [Send err])%list
  | (evs, None) => evs
  end.

(** The capacity of [errc]. *)
Definition errc_capacity : nat := 2.

(** ** Runs of the selection *)

(** The world [s] with another counter, budget map and history. *)
Definition with_state (s : World) (c : Z) (m : gmap Z Z) (h : list Event) : World :=
  {| proxy := set_DesolateBackend m (set_ReqCount c (proxy s)); history := h |}.

(** The index that the next round derives from the counter. *)
Definition round_index (backendcnt : Z) (w : WebsocketProxy) : Z :=
  Z.rem (GoInt.incr (ReqCount w)) backendcnt.

(** [n] consecutive calls of [selectBackend]: the outcome of every call
    with the value of the counter after it. *)
Fixpoint select_many (E : Env) (n : nat) (s : World)
    : list (outcome Z * Z) * World :=
  match n with
  | O => ([], s)
  | S n' =>
      let '(o, s1) := selectBackend E s in
      let '(rest, s2) := select_many E n' s1 in
      ((o, ReqCount (proxy s1)) :: rest, s2)
  end.

(** As many calls as there are backends return every index of the pool
    once. *)
Definition returns_each_index_once (E : Env) (s : World) : Prop :=
  let n := length (Backends (proxy s)) in
  exists idxs : list Z,
    (select_many E n s).1.*1 = Done <$> idxs
    /\ idxs ≡ₚ seqZ 0 (Z.of_nat n).

(** What the pool undergoes between two dials of one backend: rounds of
    the selection loop, whichever call they belong to, and the marks
    that the dials of other backends leave. *)
Inductive PoolStep : Type :=
  | StepRound
  | StepMark (index waitcnt : Z).

(** The results of the rounds of a run, in order. *)
Fixpoint run_steps (backendcnt : Z) (steps : list PoolStep) : M (list (Z + Z)) :=
  match steps with
  | [] => ret []
  | StepRound :: rest =>
      r <- select_round backendcnt ;;
      rs <- run_steps backendcnt rest ;;
      ret (r :: rs)
  | StepMark index waitcnt :: rest =>
      mark index waitcnt ;;
      run_steps backendcnt rest
  end.

(** The index that a round came up with, returned or skipped. *)
Definition came_up (r : Z + Z) : Z :=
  match r with inl index | inr index => index end.

(** The backend whose budget a step sets. *)
Definition marked (st : PoolStep) : option Z :=
  match st with StepMark index _ => Some index | StepRound => None end.

(** ** Dials of an establishment *)

(** The results of the dials among some events, in order. *)
Definition dial_results (evs : list Event) : list DialResult :=
  omap (fun e => match e with EvDial _ _ res => Some res | _ => None end) evs.

(** Events of an establishment: clock reads and dials; no response to
    the client and no upgrade. *)
Definition establishing (e : Event) : Prop :=
  match e with
  | EvNow | EvDial _ _ _ => True
  | EvError _ _ | EvUpgrade _ _ | EvClose _ => False
  end.

(** How a pool-level establishment of at most [tries] attempts ends, given
    the results of the dials it made: with the connection of the first
    dial that succeeded, all dials before it having failed; with the
    error ["No backend available"] after [tries] failed dials; or with a
    panic after fewer failed dials. *)
Definition first_success (tries : nat) (o : outcome Established)
    (results : list DialResult) : Prop :=
  match o with
  | Done (Connected conn hdr) =>
      exists errs resp,
        results = ((DialErr <$> errs) ++ [DialOk conn resp])%list
        /\ hdr = upgradeHeader resp /\ (length errs < tries)%nat
  | Done (Failed err) =>
      err = "No backend available"
      /\ exists errs, results = DialErr <$> errs /\ length errs = tries
  | Panic _ =>
      exists errs, results = DialErr <$> errs /\ (length errs < tries)%nat
  | Timeout => False
  end.

(** ** Traces of a relay task *)

(** The messages that a relay task has read, has passed to
    [WriteMessage], and has written without error, in order. *)
Definition messages_read (evs : list RelayEvent) : list Message :=
  omap (fun e => match e with Read (ReadOk m) => Some m | _ => None end) evs.

Definition messages_written (evs : list RelayEvent) : list Message :=
  omap (fun e => match e with Write m _ => Some m | _ => None end) evs.

Definition messages_delivered (evs : list RelayEvent) : list Message :=
  omap (fun e => match e with Write m None => Some m | _ => None end) evs.

Definition values_sent (evs : list RelayEvent) : list (option error) :=
  omap (fun e => match e with Send v => Some v | _ => None end) evs.

(** The messages that a source yields before its first error. *)
Fixpoint messages_before_error (src : list ReadResult) : list Message :=
  match src with
  | ReadOk m :: rest => m :: messages_before_error rest
  | _ => []
  end.

(** The shape of the trace of a relay task: every message read is passed
    to [WriteMessage] at once and as it is, before the next read; the
    task stops at the first failed read or write and then sends one
    value. *)
Inductive relayed : list RelayEvent -> Prop :=
  | relayed_waiting : relayed []
  | relayed_read_failed err v : relayed [Read (ReadErr err); Send v]
  | relayed_write_failed m err v :
      relayed [Read (ReadOk m); Write m (Some err); Send v]
  | relayed_message m evs :
      relayed evs -> relayed (Read (ReadOk m) :: Write m None :: evs).

(** A destination that accepts every message. *)
Definition accepting : Writer := fun _ _ => None.

(** ** Pools, requests and dialers of the examples *)

(** The backend [ws://127.0.0.1:9001] with the base path [path]. *)
Definition example_target (path : string) : url_URL :=
  {| Scheme := "ws"; Opaque := ""; User := None; Host := "127.0.0.1:9001";
     Path := path; RawPath := ""; OmitHost := false; ForceQuery := false;
     RawQuery := ""; Fragment := ""; RawFragment := "" |}.

(** An environment whose dialer refuses every connection, whose upgrader
    accepts, and whose generator always starts with 7. *)
Definition example_env : Env :=
  {| entropy := fun _ => 7;
     DefaultDialer := {| Dial := fun _ _ _ => DialErr "connection refused" |};
     DefaultUpgrader := {| Upgrade := fun _ _ _ => UpgradeOk 1%nat |} |}.

(** A pool of [n] backends with the counter [c] and the budgets [m],
    before any event. *)
Definition example_pool (n : nat) (c : Z) (m : gmap Z Z) : World :=
  {| proxy :=
       {| Director := None; Backends := repeat (getRequestURL (example_target "")) n;
          Upgrader := None; Dialer := None; ReqCount := c;
          DesolateBackend := m |};
     history := [] |}.

(** A request of the peer [5.6.7.8] for [path], with two subprotocols
    and a forwarding header of an earlier proxy. *)
Definition example_request (path : string) : http_Request :=
  {| Request_URL :=
       {| Scheme := ""; Opaque := ""; User := None; Host := ""; Path := path;
          RawPath := ""; OmitHost := false; ForceQuery := false;
          RawQuery := "room=1"; Fragment := ""; RawFragment := "" |};
     Request_Header :=
       <["X-Forwarded-For" := ["1.2.3.4"]]>
         (<["Sec-Websocket-Protocol" := ["chat"; "superchat"]]> ∅);
     Request_RemoteAddr := "5.6.7.8:4711";
     Request_TLS := None |}.

(** A handshake response of three header lines. *)
Definition example_response : http_Response :=
  {| Response_Header :=
       <["Sec-Websocket-Protocol" := ["chat"]]>
         (<["Set-Cookie" := ["id=1"; "lang=en"]]>
            (<["Server" := ["backend/1.0"]]> ∅)) |}.

(** A dialer that is refused as long as no dial is recorded and is
    accepted from then on. *)
Definition flaky_dialer : websocket_Dialer :=
  {| Dial := fun h _ _ =>
       match dial_results h with
       | [] => DialErr "connection refused"
       | _ => DialOk 7%nat example_response
       end |}.

(** The same pool with that dialer. *)
Definition flaky_pool (n : nat) (c : Z) (m : gmap Z Z) : World :=
  {| proxy :=
       {| Director := None; Backends := repeat (getRequestURL (example_target "")) n;
          Upgrader := None; Dialer := Some flaky_dialer; ReqCount := c;
          DesolateBackend := m |};
     history := [] |}.

(** ** The pool over its life *)

(** Every budget belongs to a backend of the pool and lies between 0 and
    5. *)
Definition pool_ok (w : WebsocketProxy) : Prop :=
  forall i v,
    DesolateBackend w !! i = Some v ->
    0 <= i < Z.of_nat (length (Backends w)) /\ 0 <= v <= 5.

(** The registration of several targets, one [AddBackend] after the
    other. *)
Definition add_backends (targets : list url_URL) (w : WebsocketProxy)
    : WebsocketProxy :=
  fold_left (fun w target => AddBackend target w) targets w.

(** A dial that ended with an error. *)
Definition refused (res : DialResult) : Prop :=
  match res with DialErr _ => True | DialOk _ _ => False end.

(** The dialer that the proxy uses. *)
Definition dialer_of (E : Env) (w : WebsocketProxy) : websocket_Dialer :=
  match Dialer w with Some d => d | None => DefaultDialer E end.

(** A dial that ended with a connection. *)
Definition accepted (res : DialResult) : Prop :=
  match res with DialOk _ _ => True | DialErr _ => False end.

(** The URLs dialled among some events, in order. *)
Definition dialled (evs : list Event) : list url_URL :=
  omap (fun e => match e with EvDial u _ _ => Some u | _ => None end) evs.

(** The requests [reqs] served one after the other, up to the start of
    their relays. *)
Fixpoint serve_many (E : Env) (reqs : list http_Request) (s : World)
    : list (outcome Served) * World :=
  match reqs with
  | [] => ([], s)
  | req :: rest =>
      let '(o, s1) := ServeHTTP E req s in
      let '(os, s2) := serve_many E rest s1 in
      (o :: os, s2)
  end.

(** A request that got its backend connection. *)
Definition established (o : outcome Served) : Prop :=
  match o with
  | Done (Relaying _ _) | Done UpgradeFailed => True
  | _ => False
  end.

(** An environment whose dialer and upgrader accept. *)
Definition welcoming_env : Env :=
  {| entropy := fun _ => 7;
     DefaultDialer := {| Dial := fun _ _ _ => DialOk 7%nat example_response |};
     DefaultUpgrader := {| Upgrade := fun _ _ _ => UpgradeOk 1%nat |} |}.

(** ** Calls of the selection after a failed dial *)

(** What the pool undergoes after a failed dial: calls of
    [selectBackend], and the marks that the dials of backends leave. *)
Inductive PoolOp : Type :=
  | OpSelect
  | OpMark (index waitcnt : Z).

(** A call of [selectBackend]: the state before it, its outcome and the
    state after it. *)
Record Call : Type := {
  call_before : World;
  call_result : outcome Z;
  call_after : World
}.

(** The calls of a run, in order. *)
Fixpoint run_calls (E : Env) (ops : list PoolOp) (s : World)
    : list Call * World :=
  match ops with
  | [] => ([], s)
  | OpSelect :: rest =>
      let '(o, s1) := selectBackend E s in
      let '(calls, s2) := run_calls E rest s1 in
      ({| call_before := s; call_result := o; call_after := s1 |} :: calls, s2)
  | OpMark index waitcnt :: rest => run_calls E rest (mark index waitcnt s).2
  end.

(** The backend whose budget an operation sets. *)
Definition op_marked (op : PoolOp) : option Z :=
  match op with OpMark index _ => Some index | OpSelect => None end.

Definition budget_of (s : World) (i : Z) : option Z :=
  DesolateBackend (proxy s) !! i.

(** The rounds of a call: every round increments the counter once. *)
Definition rounds_of (call : Call) : Z :=
  ReqCount (proxy (call_after call)) - ReqCount (proxy (call_before call)).

(** Index [i] comes up in a round of the call. *)
Definition comes_up (i : Z) (call : Call) : Prop :=
  Exists
    (fun t =>
       (ReqCount (proxy (call_before call)) + t)
         mod Z.of_nat (length (Backends (proxy (call_before call)))) = i)
    (seqZ 1 (rounds_of call)).

#[global] Instance comes_up_dec (i : Z) (call : Call) : Decision (comes_up i call) :=
  Exists_dec _ _.

(** The call has read the clock, that is, has ended with the random
    choice. *)
Definition by_fallback (call : Call) : Prop :=
  history (call_after call) = (history (call_before call) ++ [EvNow])%list.

(** A call returns an index of the pool after one to [N] rounds. *)
Definition progressing (call : Call) : Prop :=
  exists idx,
    call_result call = Done idx
    /\ 0 <= idx < Z.of_nat (length (Backends (proxy (call_before call))))
    /\ 1 <= rounds_of call
       <= Z.of_nat (length (Backends (proxy (call_before call)))).

(** A call that charges backend [i] one skip: it does not return [i] in
    a round, only the random choice can still yield it. *)
Definition skipped_call (i : Z) (call : Call) : Prop :=
  exists b,
    budget_of (call_before call) i = Some b /\ 0 < b
    /\ budget_of (call_after call) i = Some (b - 1)
    /\ (call_result call = Done i -> by_fallback call).

(** A call that returns backend [i] in the round in which its index comes
    up, its budget being used up. *)
Definition returned_call (i : Z) (call : Call) : Prop :=
  call_result call = Done i
  /\ history (call_after call) = history (call_before call)
  /\ budget_of (call_before call) i = Some 0
  /\ budget_of (call_after call) i = Some 0.

(** A call that leaves backend [i] alone. *)
Definition passed_call (i : Z) (call : Call) : Prop :=
  call_result call <> Done i
  /\ budget_of (call_after call) i = budget_of (call_before call) i.

(** While backend [i] has a positive budget, no call returns it. *)
Definition excluded_while_marked (E : Env) (i : Z) (s : World) : Prop :=
  forall b idx s',
    budget_of s i = Some b -> 0 < b ->
    selectBackend E s = (Done idx, s') -> idx <> i.

(** ** The dials of an establishment are the dialer's *)

(** Every dial among [evs] was made with the headers [hdr] and carries
    the answer of the dialer on the history up to it, [h0] being the
    history before [evs]. *)
Fixpoint genuine (d : websocket_Dialer) (hdr : Header) (h0 evs : list Event)
    : Prop :=
  match evs with
  | [] => True
  | e :: rest =>
      match e with
      | EvDial u h res => h = hdr /\ res = Dial d h0 u h
      | _ => True
      end
      /\ genuine d hdr (h0 ++ [e]) rest
  end.

(** [tryGetBackendConn] returns: with the connection of the first dial
    that succeeded, or with the one error after as many refused dials as
    there are backends. *)
Definition returns_first_success (E : Env) (req : http_Request) (s : World)
    : Prop :=
  exists r s',
    tryGetBackendConn E req s = (Done r, s')
    /\ first_success (length (Backends (proxy s))) (Done r)
         (dial_results (drop (length (history s)) (history s'))).

(** * Properties *)

(** ** Library functions on examples *)

Example canonical_protocol :
  CanonicalHeaderKey "Sec-WebSocket-Protocol" = "Sec-Websocket-Protocol".
Proof. reflexivity. Qed.

Example split_ipv4 : SplitHostPort "5.6.7.8:4711" = Some ("5.6.7.8", "4711").
Proof. reflexivity. Qed.

Example split_ipv6 : SplitHostPort "[::1]:80" = Some ("::1", "80").
Proof. reflexivity. Qed.

Example split_unix : SplitHostPort "@" = None.
Proof. reflexivity. Qed.


(** ** Arithmetic of [int] *)

Lemma wrap_in_range z : GoInt.in_range z -> GoInt.wrap z = z.
Proof.
  unfold GoInt.in_range, GoInt.wrap, GoInt.min_int, GoInt.max_int.
  intros H. rewrite Z.mod_small; lia.
Qed.

Lemma incr_no_overflow c :
  GoInt.min_int <= c -> c < GoInt.max_int -> GoInt.incr c = c + 1.
Proof.
  intros H1 H2. unfold GoInt.incr. apply wrap_in_range.
  unfold GoInt.in_range. lia.
Qed.

Lemma incr_max_int : GoInt.incr GoInt.max_int = GoInt.min_int.
Proof. reflexivity. Qed.

Lemma rem_nonneg c n : 0 <= c -> 0 < n -> Z.rem c n = c mod n.
Proof. intros Hc Hn. apply Z.rem_mod_nonneg; lia. Qed.

Lemma max_int_pos : 0 < GoInt.max_int.
Proof. reflexivity. Qed.

Lemma min_int_neg : GoInt.min_int < 0.
Proof. reflexivity. Qed.

(** ** Worlds in normal form *)

Lemma world_eta s :
  s = with_state s (ReqCount (proxy s)) (DesolateBackend (proxy s)) (history s).
Proof. destruct s as [[] ?]; reflexivity. Qed.

Lemma with_state_twice s c m h c' m' h' :
  with_state (with_state s c m h) c' m' h' = with_state s c' m' h'.
Proof. reflexivity. Qed.

Lemma bind_Done {A B} (m : M A) (k : A -> M B) s a s' :
  m s = (Done a, s') -> bind m k s = k a s'.
Proof. intros H. unfold bind. rewrite H. reflexivity. Qed.

Lemma bind_Panic {A B} (m : M A) (k : A -> M B) s p s' :
  m s = (Panic p, s') -> bind m k s = (Panic p, s').
Proof. intros H. unfold bind. rewrite H. reflexivity. Qed.

(** ** One round of the selection *)

Lemma select_round_run backendcnt s :
  backendcnt <> 0 ->
  select_round backendcnt s =
    let c := GoInt.incr (ReqCount (proxy s)) in
    let index := round_index backendcnt (proxy s) in
    let m := DesolateBackend (proxy s) in
    match m !! index with
    | Some waitcnt =>
        if waitcnt <=? 0 then (Done (inl index), with_state s c m (history s))
        else (Done (inr index),
              with_state s c (<[index := GoInt.decr waitcnt]> m) (history s))
    | None => (Done (inl index), with_state s c m (history s))
    end.
Proof.
  intros Hn. apply Z.eqb_neq in Hn.
  unfold select_round, round_index, bind, update, get_proxy, lift, go_rem, ret.
  cbn. rewrite Hn.
  destruct (DesolateBackend (proxy s) !! _) as [v|]; [|reflexivity].
  destruct (v <=? 0); reflexivity.
Qed.

Lemma select_round_zero s :
  select_round 0 s =
    (Panic DivideByZero,
     with_state s (GoInt.incr (ReqCount (proxy s)))
       (DesolateBackend (proxy s)) (history s)).
Proof. reflexivity. Qed.

(** ** The selection loop *)

Section Selection.

Variable E : Env.

Lemma rand_Intn_run n s :
  0 < n ->
  rand_Intn E n s =
    (Done (entropy E (history s) mod n),
     with_state s (ReqCount (proxy s)) (DesolateBackend (proxy s))
       (history s ++ [EvNow])).
Proof.
  intros Hn. unfold rand_Intn, bind, get_history, emit, lift, ret. cbn.
  destruct (Z.leb_spec n 0); [lia|].
  destruct s as [[] ?]; reflexivity.
Qed.

Lemma rand_Intn_invalid n s :
  n <= 0 ->
  rand_Intn E n s =
    (Panic (IntnInvalidArgument n),
     with_state s (ReqCount (proxy s)) (DesolateBackend (proxy s))
       (history s ++ [EvNow])).
Proof.
  intros Hn. unfold rand_Intn, bind, get_history, emit, lift, ret. cbn.
  destruct (Z.leb_spec n 0); [|lia].
  destruct s as [[] ?]; reflexivity.
Qed.

(** With a pool that is not empty the loop returns an index, whatever
    the counter and the budgets are: the fuel is never used up.  Only
    the counter, the budgets and the history change. *)
Lemma select_loop_total fuel N k s :
  0 < N -> 0 <= k <= N -> N - k < Z.of_nat fuel ->
  exists idx c' m' h',
    select_loop E fuel N k s = (Done idx, with_state s c' m' h')
    /\ (h' = history s \/ h' = (history s ++ [EvNow])%list).
Proof.
  intros HN. revert k s.
  induction fuel as [|fuel IH]; intros k s Hk Hfuel; [lia|].
  cbn [select_loop]. rewrite Z.geb_leb.
  destruct (Z.leb_spec N k) as [Hge|Hlt].
  - rewrite rand_Intn_run by lia. eauto 10.
  - unfold bind. rewrite select_round_run by lia. cbn zeta.
    destruct (DesolateBackend (proxy s) !! _) as [v|]; [|eauto 10].
    destruct (v <=? 0); [eauto 10|].
    match goal with |- context [select_loop E fuel N (k + 1) ?s1] =>
      destruct (IH (k + 1) s1) as (idx & c' & m' & h' & Heq & Hh); [lia|lia|]
    end.
    rewrite Heq, with_state_twice. cbn in Hh. eauto 10.
Qed.

(** While the counter cannot overflow, the loop makes at most [N - k]
    rounds and returns an index of the pool: either the round-robin
    index of the last round, whose budget is used up or absent, or,
    after [N - k] skipped rounds, the random index. *)
Lemma select_loop_in_range fuel N k s :
  0 < N -> 0 <= k <= N -> N - k < Z.of_nat fuel ->
  0 <= ReqCount (proxy s) ->
  ReqCount (proxy s) + (N - k) <= GoInt.max_int ->
  exists idx j m' h',
    select_loop E fuel N k s
      = (Done idx, with_state s (ReqCount (proxy s) + j) m' h')
    /\ 0 <= idx < N /\ 0 <= j <= N - k
    /\ ((h' = history s /\ 1 <= j
         /\ idx = (ReqCount (proxy s) + j) mod N
         /\ (forall v, m' !! idx = Some v -> v <= 0))
        \/ (j = N - k /\ h' = (history s ++ [EvNow])%list
            /\ idx = entropy E (history s) mod N)).
Proof.
  intros HN. revert k s.
  induction fuel as [|fuel IH]; intros k s Hk Hfuel Hc Hmax; [lia|].
  cbn [select_loop]. rewrite Z.geb_leb.
  pose proof min_int_neg as Hmin.
  destruct (Z.leb_spec N k) as [Hge|Hlt].
  - rewrite rand_Intn_run by lia.
    exists (entropy E (history s) mod N), 0, (DesolateBackend (proxy s)),
      (history s ++ [EvNow])%list.
    rewrite Z.add_0_r. split; [reflexivity|].
    split; [apply Z.mod_pos_bound; lia|]. split; [lia|].
    right. repeat split; lia.
  - unfold bind. rewrite select_round_run by lia. cbn zeta.
    unfold round_index. rewrite incr_no_overflow by lia.
    rewrite rem_nonneg by lia.
    set (c := ReqCount (proxy s)) in *.
    assert (Hidx : 0 <= (c + 1) mod N < N) by (apply Z.mod_pos_bound; lia).
    destruct (DesolateBackend (proxy s) !! _) as [v|] eqn:Hlook.
    + destruct (Z.leb_spec v 0) as [Hv|Hv].
      * exists ((c + 1) mod N), 1, (DesolateBackend (proxy s)), (history s).
        split; [reflexivity|]. split; [exact Hidx|]. split; [lia|].
        left. repeat split; try lia.
        intros v' Hv'. rewrite Hlook in Hv'. congruence.
      * match goal with |- context [select_loop E fuel N (k + 1) ?s1] =>
          destruct (IH (k + 1) s1)
            as (idx & j & m' & h' & Heq & Hr & Hj & Hcase);
            [lia|lia|cbn; lia|cbn; lia|]
        end.
        rewrite Heq, with_state_twice. cbn [with_state proxy set_DesolateBackend
          set_ReqCount ReqCount history] in *.
        exists idx, (1 + j), m', h'.
        replace (c + (1 + j)) with (c + 1 + j) by lia.
        split; [reflexivity|]. split; [exact Hr|]. split; [lia|].
        destruct Hcase as [(Hh & Hj1 & Hi & Hm)|(Hj1 & Hh & Hi)].
        -- left. repeat split; try assumption; lia.
        -- right. repeat split; try assumption; lia.
    + exists ((c + 1) mod N), 1, (DesolateBackend (proxy s)), (history s).
      split; [reflexivity|]. split; [exact Hidx|]. split; [lia|].
      left. repeat split; try lia.
      intros v' Hv'. rewrite Hlook in Hv'. congruence.
Qed.

Lemma mod_shift_ne a d N : 0 < d < N -> (a + d) mod N <> a mod N.
Proof.
  intros Hd Heq.
  assert (H : (a + d - a) mod N = 0).
  { rewrite Zminus_mod, Heq, Z.sub_diag. apply Z.mod_0_l. lia. }
  replace (a + d - a) with d in H by lia.
  rewrite Z.mod_small in H; lia.
Qed.

(** When the indices of all the rounds that are left have a positive
    budget, every one of these rounds is skipped and the random index is
    returned. *)
Lemma select_loop_outage fuel N k s :
  0 < N -> 0 <= k <= N -> N - k < Z.of_nat fuel ->
  0 <= ReqCount (proxy s) ->
  ReqCount (proxy s) + (N - k) <= GoInt.max_int ->
  (forall t, 1 <= t <= N - k ->
     exists v, DesolateBackend (proxy s) !! ((ReqCount (proxy s) + t) mod N) = Some v
               /\ 0 < v) ->
  exists m',
    select_loop E fuel N k s
      = (Done (entropy E (history s) mod N),
         with_state s (ReqCount (proxy s) + (N - k)) m' (history s ++ [EvNow])).
Proof.
  intros HN. revert k s.
  induction fuel as [|fuel IH]; intros k s Hk Hfuel Hc Hmax Hpos; [lia|].
  cbn [select_loop]. rewrite Z.geb_leb.
  pose proof min_int_neg as Hmin.
  destruct (Z.leb_spec N k) as [Hge|Hlt].
  - rewrite rand_Intn_run by lia.
    replace (N - k) with 0 by lia. rewrite Z.add_0_r. eauto.
  - unfold bind. rewrite select_round_run by lia. cbn zeta.
    unfold round_index. rewrite incr_no_overflow by lia.
    rewrite rem_nonneg by lia.
    set (c := ReqCount (proxy s)) in *.
    destruct (Hpos 1) as (v & Hv & Hv0); [lia|]. rewrite Hv.
    destruct (Z.leb_spec v 0) as [?|_]; [lia|].
    match goal with |- context [select_loop E fuel N (k + 1) ?s1] =>
      destruct (IH (k + 1) s1) as (m' & Heq);
        [lia|lia|cbn; lia|cbn; lia| |]
    end.
    + intros t Ht. cbn. fold c.
      destruct (Hpos (1 + t)) as (v' & Hv' & Hv0'); [lia|].
      exists v'. split; [|exact Hv0'].
      rewrite lookup_insert_ne.
      * rewrite <- Hv'. f_equal. f_equal. lia.
      * intros Heq. apply (mod_shift_ne (c + 1) t N); [lia|]. symmetry. exact Heq.
    + rewrite Heq, with_state_twice. cbn. fold c.
      exists m'. f_equal. f_equal; lia.
Qed.

End Selection.

(** ** Round robin over a healthy pool *)

Lemma selectBackend_unfold E s :
  selectBackend E s =
    select_loop E (S (length (Backends (proxy s))))
      (Z.of_nat (length (Backends (proxy s)))) 0 s.
Proof. reflexivity. Qed.

(** A call on a pool without positive budgets makes one round. *)
Lemma selectBackend_healthy E s :
  let N := Z.of_nat (length (Backends (proxy s))) in
  let c := ReqCount (proxy s) in
  1 <= N ->
  (forall i v, DesolateBackend (proxy s) !! i = Some v -> v <= 0) ->
  0 <= c -> c < GoInt.max_int ->
  selectBackend E s =
    (Done ((c + 1) mod N),
     with_state s (c + 1) (DesolateBackend (proxy s)) (history s)).
Proof.
  intros N c HN Hm Hc Hmax. rewrite selectBackend_unfold. fold N.
  cbn [select_loop]. rewrite Z.geb_leb.
  destruct (Z.leb_spec N 0) as [?|_]; [lia|].
  unfold bind. rewrite select_round_run by lia. cbn zeta.
  pose proof min_int_neg.
  unfold round_index. fold c. rewrite incr_no_overflow by lia.
  rewrite rem_nonneg by lia.
  destruct (DesolateBackend (proxy s) !! _) as [v|] eqn:Hlook; [|reflexivity].
  apply Hm in Hlook. destruct (Z.leb_spec v 0); [reflexivity|lia].
Qed.

Lemma select_many_healthy E n s :
  let N := Z.of_nat (length (Backends (proxy s))) in
  let c := ReqCount (proxy s) in
  1 <= N ->
  (forall i v, DesolateBackend (proxy s) !! i = Some v -> v <= 0) ->
  0 <= c -> c + Z.of_nat n <= GoInt.max_int ->
  select_many E n s =
    ((fun k => (Done ((c + k) mod N), c + k)) <$> seqZ 1 (Z.of_nat n),
     with_state s (c + Z.of_nat n) (DesolateBackend (proxy s)) (history s)).
Proof.
  revert s. induction n as [|n IH]; intros s N c HN Hm Hc Hmax.
  - cbn. rewrite Z.add_0_r. f_equal. apply world_eta.
  - cbn [select_many]. rewrite selectBackend_healthy by (fold N c; lia || exact Hm).
    fold N c.
    rewrite IH; cbn [with_state proxy set_DesolateBackend set_ReqCount
      ReqCount Backends DesolateBackend history]; try lia; try exact Hm.
    fold N. rewrite with_state_twice.
    rewrite (seqZ_cons 1 (Z.of_nat (S n))) by lia.
    replace (Z.pred (Z.of_nat (S n))) with (Z.of_nat n) by lia.
    replace (Z.succ 1) with (1 + 1) by lia.
    rewrite <- (fmap_add_seqZ 1 1), fmap_cons, <- list_fmap_compose.
    f_equal; [|f_equal; lia].
    f_equal. apply list_fmap_ext. intros _ k _. cbn.
    replace (c + 1 + k) with (c + (1 + k)) by lia. reflexivity.
Qed.

(** A window of [N] consecutive counter values meets every residue
    modulo [N] once. *)
Lemma window_permutation c N :
  0 < N -> (fun k => (c + k) mod N) <$> seqZ 1 N ≡ₚ seqZ 0 N.
Proof.
  intros HN. apply NoDup_Permutation.
  - apply NoDup_fmap_2_strong; [|apply NoDup_seqZ].
    intros x y Hx Hy Heq. apply elem_of_seqZ in Hx, Hy.
    assert (Hd : (c + x - (c + y)) mod N = 0).
    { rewrite Zminus_mod, Heq, Z.sub_diag. apply Z.mod_0_l. lia. }
    apply Z.mod_divide in Hd; [|lia]. destruct Hd as [q Hq].
    assert (q = 0) by nia. lia.
  - apply NoDup_seqZ.
  - intros x. rewrite elem_of_seqZ, list_elem_of_fmap. split.
    + intros (k & -> & _). pose proof (Z.mod_pos_bound (c + k) N HN). lia.
    + intros Hx. exists ((x - c - 1) mod N + 1). split.
      * replace (c + ((x - c - 1) mod N + 1)) with (c + 1 + (x - c - 1) mod N) by lia.
        rewrite Z.add_mod_idemp_r by lia.
        replace (c + 1 + (x - c - 1)) with x by lia.
        symmetry. apply Z.mod_small. lia.
      * apply elem_of_seqZ. pose proof (Z.mod_pos_bound (x - c - 1) N HN). lia.
Qed.

(** C1, as amended.  On a pool of [N >= 1] backends whose skip budgets are
    all zero or absent, and while the counter [c] is not negative and at
    least [N] below the largest [int], [N] consecutive calls of
    [selectBackend] return [(c + 1) mod N], [(c + 2) mod N], ...,
    [(c + N) mod N]: every index of [[0, N)] once, each the successor
    modulo [N] of the one before.  Every call increments the counter
    once and changes nothing else. *)
Theorem round_robin_fairness E s :
  let n := length (Backends (proxy s)) in
  let N := Z.of_nat n in
  let c := ReqCount (proxy s) in
  1 <= N ->
  (forall i v, DesolateBackend (proxy s) !! i = Some v -> v = 0) ->
  0 <= c -> c + N <= GoInt.max_int ->
  select_many E n s =
    ((fun k => (Done ((c + k) mod N), c + k)) <$> seqZ 1 N,
     with_state s (c + N) (DesolateBackend (proxy s)) (history s))
  /\ (fun k => (c + k) mod N) <$> seqZ 1 N ≡ₚ seqZ 0 N
  /\ (forall k, (c + (k + 1)) mod N = ((c + k) mod N + 1) mod N)
  /\ returns_each_index_once E s.
Proof.
  intros n N c HN Hm Hc Hmax.
  assert (Hmany : select_many E n s =
    ((fun k => (Done ((c + k) mod N), c + k)) <$> seqZ 1 N,
     with_state s (c + N) (DesolateBackend (proxy s)) (history s))).
  { apply select_many_healthy; try assumption.
    intros i v Hv. apply Hm in Hv. lia. }
  split; [exact Hmany|].
  split; [apply window_permutation; lia|].
  split.
  - intros k. rewrite Z.add_mod_idemp_l by lia. f_equal. lia.
  - exists ((fun k => (c + k) mod N) <$> seqZ 1 N). fold n N.
    split; [|apply window_permutation; lia].
    rewrite Hmany. cbn [fst]. rewrite <- !list_fmap_compose.
    apply list_fmap_ext. reflexivity.
Qed.

Lemma round_robin_fairness_witness :
  select_many example_env 3 (example_pool 3 0 ∅) =
    ([(Done 1, 1); (Done 2, 2); (Done 0, 3)], example_pool 3 3 ∅)
  /\ [1; 2; 0] ≡ₚ [0; 1; 2].
Proof.
  destruct (round_robin_fairness example_env (example_pool 3 0 ∅))
    as (H1 & H2 & _).
  - cbn. lia.
  - intros i v H. cbn in H. rewrite lookup_empty in H. discriminate.
  - cbn. lia.
  - vm_compute. discriminate.
  - split; [exact H1 | exact H2].
Defined.

(** At the largest [int] the counter wraps to the smallest one, and Go's
    remainder of a negative counter is negative. *)
Lemma round_robin_overflow_counterexample :
  1 <= Z.of_nat (length (Backends (proxy (example_pool 3 GoInt.max_int ∅))))
  /\ (forall i v,
        DesolateBackend (proxy (example_pool 3 GoInt.max_int ∅)) !! i = Some v ->
        v = 0)
  /\ (select_many example_env 3 (example_pool 3 GoInt.max_int ∅)).1
       = [(Done (-2), GoInt.min_int); (Done (-1), GoInt.min_int + 1);
          (Done 0, GoInt.min_int + 2)]
  /\ ~ returns_each_index_once example_env (example_pool 3 GoInt.max_int ∅).
Proof.
  split; [cbn; lia|].
  split; [intros i v H; cbn in H; rewrite lookup_empty in H; discriminate|].
  split; [vm_compute; reflexivity|].
  intros (idxs & Heq & Hperm).
  assert (Hr : (select_many example_env 3 (example_pool 3 GoInt.max_int ∅)).1.*1
               = [Done (-2); Done (-1); Done 0]) by (vm_compute; reflexivity).
  cbn [length Backends proxy example_pool repeat] in Heq.
  rewrite Hr in Heq.
  destruct idxs as [|a idxs]; [discriminate|].
  injection Heq as Ha _. subst a.
  assert (Hin : -2 ∈ seqZ 0 (Z.of_nat 3)).
  { cbn [length Backends proxy example_pool repeat] in Hperm.
    rewrite <- Hperm. apply list_elem_of_here. }
  apply elem_of_seqZ in Hin. lia.
Qed.

(** ** Termination and range of a selection *)

Lemma with_state_inj s c m h c' m' h' :
  with_state s c m h = with_state s c' m' h' -> c = c' /\ m = m' /\ h = h'.
Proof.
  intros H.
  pose proof (f_equal (fun w => ReqCount (proxy w)) H) as Hc.
  pose proof (f_equal (fun w => DesolateBackend (proxy w)) H) as Hm.
  pose proof (f_equal history H) as Hh.
  cbn in Hc, Hm, Hh. auto.
Qed.

(** C3, as amended.  On a pool of [N >= 1] backends, whatever the budgets
    are, and while the counter [c] is not negative and at least [N] below
    the largest [int], a call of [selectBackend] returns after at most
    [N] rounds with an index of [[0, N)]: either the round-robin index of
    its last round, whose budget is used up or absent, or, after [N]
    skipped rounds, the value of the freshly seeded generator reduced
    modulo [N], whatever the budgets are.  When every backend has a
    positive budget it is the latter. *)
Theorem selectBackend_terminates_in_range E s :
  let N := Z.of_nat (length (Backends (proxy s))) in
  let c := ReqCount (proxy s) in
  1 <= N -> 0 <= c -> c + N <= GoInt.max_int ->
  exists idx rounds m' h',
    selectBackend E s = (Done idx, with_state s (c + rounds) m' h')
    /\ 0 <= idx < N
    /\ 0 <= rounds <= N
    /\ ((h' = history s /\ 1 <= rounds
         /\ idx = (c + rounds) mod N
         /\ (forall v, m' !! idx = Some v -> v <= 0))
        \/ (rounds = N /\ h' = (history s ++ [EvNow])%list
            /\ idx = entropy E (history s) mod N))
    /\ ((forall i, 0 <= i < N ->
           exists v, DesolateBackend (proxy s) !! i = Some v /\ 0 < v) ->
        rounds = N /\ h' = (history s ++ [EvNow])%list
        /\ idx = entropy E (history s) mod N).
Proof.
  intros N c HN Hc Hmax. rewrite selectBackend_unfold. fold N.
  destruct (select_loop_in_range E (S (length (Backends (proxy s)))) N 0 s)
    as (idx & j & m' & h' & Heq & Hidx & Hj & Hcase); try (fold c; lia).
  exists idx, j, m', h'. fold c in Heq, Hcase.
  rewrite Z.sub_0_r in Hj, Hcase.
  split; [exact Heq|]. split; [exact Hidx|]. split; [exact Hj|].
  split; [exact Hcase|].
  intros Hout.
  destruct (select_loop_outage E (S (length (Backends (proxy s)))) N 0 s)
    as (m'' & Heq'); try (fold c; lia).
  { intros t Ht. apply Hout. apply Z.mod_pos_bound. lia. }
  fold c in Heq'. rewrite Heq in Heq'. rewrite Z.sub_0_r in Heq'.
  pose proof (f_equal fst Heq') as Hi. pose proof (f_equal snd Heq') as Hs.
  cbn [fst snd] in Hi, Hs. injection Hi as Hi.
  apply with_state_inj in Hs. destruct Hs as (Hr & _ & Hh).
  repeat split; [lia|exact Hh|exact Hi].
Qed.

Lemma selectBackend_terminates_in_range_witness :
  exists idx rounds,
    (selectBackend example_env (example_pool 2 0 (<[0 := 5]> (<[1 := 5]> ∅)))).1
      = Done idx
    /\ 0 <= idx < 2 /\ 0 <= rounds <= 2.
Proof.
  destruct (selectBackend_terminates_in_range example_env
              (example_pool 2 0 (<[0 := 5]> (<[1 := 5]> ∅))))
    as (idx & rounds & m' & h' & Heq & Hidx & Hrounds & _).
  - cbn. lia.
  - cbn. lia.
  - vm_compute. discriminate.
  - exists idx, rounds. rewrite Heq. split; [reflexivity|].
    split; [exact Hidx|exact Hrounds].
Defined.

(** The same call, evaluated: both backends are skipped once and the
    random index [7 mod 2] is returned. *)
Example selectBackend_outage_run :
  selectBackend example_env (example_pool 2 0 (<[0 := 5]> (<[1 := 5]> ∅)))
  = (Done 1,
     {| proxy := proxy (example_pool 2 2 (<[0 := 4]> (<[1 := 4]> ∅)));
        history := [EvNow] |}).
Proof. vm_compute. reflexivity. Qed.

Lemma selectBackend_overflow_counterexample :
  1 <= Z.of_nat (length (Backends (proxy (example_pool 3 GoInt.max_int ∅))))
  /\ selectBackend example_env (example_pool 3 GoInt.max_int ∅)
       = (Done (-2), example_pool 3 GoInt.min_int ∅)
  /\ ~ (exists idx s',
          selectBackend example_env (example_pool 3 GoInt.max_int ∅)
            = (Done idx, s')
          /\ 0 <= idx < 3).
Proof.
  assert (H : selectBackend example_env (example_pool 3 GoInt.max_int ∅)
              = (Done (-2), example_pool 3 GoInt.min_int ∅))
    by (vm_compute; reflexivity).
  split; [cbn; lia|]. split; [exact H|].
  intros (idx & s' & Heq & Hidx). rewrite H in Heq.
  injection Heq as Hi _. lia.
Qed.

(** ** The skip budget of a backend *)

Lemma decr_positive v : 0 < v <= GoInt.max_int -> GoInt.decr v = v - 1.
Proof.
  intros Hv. unfold GoInt.decr. apply wrap_in_range.
  pose proof min_int_neg. unfold GoInt.in_range. lia.
Qed.

Lemma mark_run index waitcnt s :
  mark index waitcnt s =
    (Done tt,
     with_state s (ReqCount (proxy s))
       (<[index := waitcnt]> (DesolateBackend (proxy s))) (history s)).
Proof. destruct s as [[] ?]. reflexivity. Qed.

Lemma filter_came_up_cons_eq i (r : Z + Z) rs :
  came_up r = i ->
  filter (fun r => came_up r = i) (r :: rs) = r :: filter (fun r => came_up r = i) rs.
Proof. intros H. rewrite filter_cons. destruct (decide _); [reflexivity|contradiction]. Qed.

Lemma filter_came_up_cons_ne i (r : Z + Z) rs :
  came_up r <> i ->
  filter (fun r => came_up r = i) (r :: rs) = filter (fun r => came_up r = i) rs.
Proof. intros H. rewrite filter_cons. destruct (decide _); [contradiction|reflexivity]. Qed.

(** A backend with budget [b]: the rounds in which its index comes up
    skip it while the budget lasts, each taking one unit, and return it
    from then on. *)
Lemma budget_rounds N i steps :
  N <> 0 ->
  Forall (fun st => marked st <> Some i) steps ->
  forall s b,
    0 <= b <= GoInt.max_int ->
    DesolateBackend (proxy s) !! i = Some b ->
    exists results s' (skipped returned : nat),
      run_steps N steps s = (Done results, s')
      /\ filter (fun r => came_up r = i) results
           = (repeat (inr i) skipped ++ repeat (inl i) returned)%list
      /\ Z.of_nat skipped <= b
      /\ (0 < returned -> Z.of_nat skipped = b)%nat
      /\ DesolateBackend (proxy s') !! i = Some (b - Z.of_nat skipped).
Proof.
  intros HN Hsteps. induction Hsteps as [|st steps Hst _ IH]; intros s b Hb Hlook.
  - exists [], s, 0%nat, 0%nat. cbn. rewrite Z.sub_0_r.
    repeat split; try lia; assumption.
  - destruct st as [|j v]; cbn [run_steps].
    + unfold bind at 1. rewrite select_round_run by assumption. cbn zeta.
      set (index := round_index N (proxy s)).
      set (c := GoInt.incr (ReqCount (proxy s))).
      destruct (DesolateBackend (proxy s) !! index) as [w|] eqn:Hw.
      * destruct (Z.leb_spec w 0) as [Hle|Hgt].
        -- (* the round returns [index] *)
           destruct (IH (with_state s c (DesolateBackend (proxy s)) (history s)) b Hb Hlook)
             as (rs & s' & a & r & Hrun & Hf & Ha & Hr & Hfin).
           unfold bind. rewrite Hrun. cbn [ret].
           destruct (decide (index = i)) as [->|Hne].
           ++ assert (b = 0) by (rewrite Hlook in Hw; injection Hw; lia). subst b.
              assert (a = 0%nat) by lia. subst a.
              exists (inl i :: rs), s', 0%nat, (S r).
              rewrite filter_came_up_cons_eq by reflexivity. rewrite Hf.
              repeat split; try lia; assumption.
           ++ exists (inl index :: rs), s', a, r.
              rewrite filter_came_up_cons_ne by exact Hne.
              repeat split; assumption.
        -- (* the round skips [index] *)
           destruct (decide (index = i)) as [Heq|Hne].
           ++ rewrite Heq in *. rewrite Hlook in Hw. injection Hw as <-.
              rewrite decr_positive by lia.
              destruct (IH (with_state s c (<[i := b - 1]> (DesolateBackend (proxy s)))
                              (history s)) (b - 1))
                as (rs & s' & a & r & Hrun & Hf & Ha & Hr & Hfin);
                [lia|apply lookup_insert_eq|].
              unfold bind. rewrite Hrun. cbn [ret].
              exists (inr i :: rs), s', (S a), r.
              rewrite filter_came_up_cons_eq by reflexivity. rewrite Hf.
              split; [reflexivity|]. split; [reflexivity|].
              split; [lia|]. split; [lia|].
              rewrite Hfin. f_equal. lia.
           ++ destruct (IH (with_state s c
                              (<[index := GoInt.decr w]> (DesolateBackend (proxy s)))
                              (history s)) b Hb)
                as (rs & s' & a & r & Hrun & Hf & Ha & Hr & Hfin).
              { cbn. rewrite lookup_insert_ne by exact Hne. exact Hlook. }
              unfold bind. rewrite Hrun. cbn [ret].
              exists (inr index :: rs), s', a, r.
              rewrite filter_came_up_cons_ne by exact Hne.
              repeat split; assumption.
      * assert (Hne : index <> i) by (intros ->; congruence).
        destruct (IH (with_state s c (DesolateBackend (proxy s)) (history s)) b Hb Hlook)
          as (rs & s' & a & r & Hrun & Hf & Ha & Hr & Hfin).
        unfold bind. rewrite Hrun. cbn [ret].
        exists (inl index :: rs), s', a, r.
        rewrite filter_came_up_cons_ne by exact Hne.
        repeat split; assumption.
    + assert (Hne : j <> i) by (intros ->; apply Hst; reflexivity).
      unfold bind. rewrite mark_run.
      apply IH; [exact Hb|].
      cbn. rewrite lookup_insert_ne by exact Hne. exact Hlook.
Qed.

(** Rounds after a mark: after the budget of backend [i] has been set
    to 5, and as long as no other mark of backend [i] is made, the
    rounds in which index [i] comes up charge it: the first five of them
    skip the backend, each taking one unit of the budget, and the sixth
    and all later ones return it. *)
Lemma rounds_after_mark N i steps s0 :
  N <> 0 ->
  Forall (fun st => marked st <> Some i) steps ->
  exists results s' (skipped returned : nat),
    run_steps N steps (mark i 5 s0).2 = (Done results, s')
    /\ filter (fun r => came_up r = i) results
         = (repeat (inr i) skipped ++ repeat (inl i) returned)%list
    /\ (skipped <= 5)%nat
    /\ (0 < returned -> skipped = 5)%nat
    /\ DesolateBackend (proxy s') !! i = Some (5 - Z.of_nat skipped).
Proof.
  intros HN Hsteps.
  destruct (budget_rounds N i steps HN Hsteps (mark i 5 s0).2 5)
    as (rs & s' & a & r & Hrun & Hf & Ha & Hr & Hfin).
  - pose proof max_int_pos. split; [lia|]. vm_compute. discriminate.
  - rewrite mark_run. cbn. apply lookup_insert_eq.
  - exists rs, s', a, r. repeat split; try assumption; lia.
Qed.

Lemma rounds_after_mark_example :
  exists results s' (skipped returned : nat),
    run_steps 2 (repeat StepRound 12) (mark 0 5 (example_pool 2 0 ∅)).2
      = (Done results, s')
    /\ filter (fun r => came_up r = 0) results
         = (repeat (inr 0) skipped ++ repeat (inl 0) returned)%list
    /\ (skipped <= 5)%nat
    /\ (0 < returned -> skipped = 5)%nat
    /\ DesolateBackend (proxy s') !! 0 = Some (5 - Z.of_nat skipped).
Proof.
  apply (rounds_after_mark 2 0 (repeat StepRound 12) (example_pool 2 0 ∅)).
  - lia.
  - repeat constructor; discriminate.
Defined.

(** The same run, evaluated: index 0 comes up in every second round, is
    skipped five times and returned the sixth time. *)
Example backoff_run :
  (run_steps 2 (repeat StepRound 12) (mark 0 5 (example_pool 2 0 ∅)).2).1
  = Done [inl 1; inr 0; inl 1; inr 0; inl 1; inr 0; inl 1; inr 0; inl 1; inr 0;
          inl 1; inl 0].
Proof. vm_compute. reflexivity. Qed.

(** ** The resolver of a backend *)

(** What [getRequestURL] does: the fragment, the path and the raw query
    are the request's, every other field is the target's. *)
Lemma getRequestURL_fields target r :
  let u := getRequestURL target r in
  Scheme u = Scheme target /\ Host u = Host target
  /\ Opaque u = Opaque target /\ User u = User target
  /\ RawPath u = RawPath target /\ RawFragment u = RawFragment target
  /\ Path u = Path (Request_URL r)
  /\ RawQuery u = RawQuery (Request_URL r)
  /\ Fragment u = Fragment (Request_URL r).
Proof. cbn. repeat split. Qed.

Lemma AddBackend_appends target w :
  Backends (AddBackend target w) = (Backends w ++ [getRequestURL target])%list
  /\ ReqCount (AddBackend target w) = ReqCount w
  /\ DesolateBackend (AddBackend target w) = DesolateBackend w.
Proof. repeat split. Qed.

(** C4.  The backend registered for [ws://127.0.0.1:9001/base], applied
    to a request for [/chat?room=1], resolves to
    [ws://127.0.0.1:9001/chat?room=1]: scheme and host are the target's,
    path and query the request's, and nothing of the base path [/base] is
    left.  The resolver of a target with a base path is the resolver of
    the same target without one. *)
Theorem getRequestURL_drops_base_path :
  Backends (AddBackend (example_target "/base") NewProxy)
    = [getRequestURL (example_target "/base")]
  /\ getRequestURL (example_target "/base") (example_request "/chat")
     = {| Scheme := "ws"; Opaque := ""; User := None; Host := "127.0.0.1:9001";
          Path := "/chat"; RawPath := ""; OmitHost := false; ForceQuery := false;
          RawQuery := "room=1"; Fragment := ""; RawFragment := "" |}
  /\ forall r,
       getRequestURL (example_target "/base") r = getRequestURL (example_target "") r.
Proof. repeat split. Qed.

(** ** Header sets *)

Lemma Header_Add_lookup (h : Header) key v k :
  Header_Add h key v !! k =
    if decide (CanonicalHeaderKey key = k)
    then Some (Header_index h k ++ [v])%list
    else h !! k.
Proof.
  unfold Header_Add. cbn zeta. rewrite lookup_insert.
  destruct (decide _) as [->|]; reflexivity.
Qed.

Lemma Header_Set_lookup (h : Header) key v k :
  Header_Set h key v !! k =
    if decide (CanonicalHeaderKey key = k) then Some [v] else h !! k.
Proof. unfold Header_Set. apply lookup_insert. Qed.

Lemma fold_Add_lookup key vs (h : Header) k :
  fold_left (fun h v => Header_Add h key v) vs h !! k =
    if decide (CanonicalHeaderKey key = k)
    then match vs with
         | [] => h !! k
         | _ => Some (Header_index h k ++ vs)%list
         end
    else h !! k.
Proof.
  revert h. induction vs as [|v vs IH]; intros h; cbn [fold_left].
  - destruct (decide _); reflexivity.
  - rewrite IH. destruct (decide _) as [Hk|Hk].
    + unfold Header_index at 1. rewrite !Header_Add_lookup.
      destruct (decide _); [|contradiction]. cbn [default].
      destruct vs; [reflexivity|]. unfold id. rewrite <- app_assoc. reflexivity.
    + rewrite Header_Add_lookup. destruct (decide _); [contradiction|reflexivity].
Qed.

Lemma fold_Add_index key vs (h : Header) :
  Header_index (fold_left (fun h v => Header_Add h key v) vs h)
    (CanonicalHeaderKey key)
  = (Header_index h (CanonicalHeaderKey key) ++ vs)%list.
Proof.
  unfold Header_index at 1. rewrite fold_Add_lookup.
  destruct (decide _); [|contradiction].
  destruct vs; [|reflexivity]. rewrite app_nil_r. reflexivity.
Qed.

Lemma append_assoc (a b c : string) : (a +:+ b) +:+ c = a +:+ (b +:+ c).
Proof.
  induction a as [|x a IH]; [reflexivity|].
  change (String x ((a +:+ b) +:+ c) = String x (a +:+ (b +:+ c))).
  f_equal. exact IH.
Qed.

(** Joining the prior values and appending the peer is joining the
    values with the peer at the end, when there is a prior value. *)
Lemma strings_Join_snoc prior ip :
  prior <> [] ->
  (strings_Join prior ", " +:+ ", ") +:+ ip = strings_Join (prior ++ [ip]) ", ".
Proof.
  induction prior as [|a prior IH]; [contradiction|]. intros _.
  destruct prior as [|b prior].
  - cbn [strings_Join app]. apply append_assoc.
  - change (strings_Join (a :: b :: prior) ", ")
      with (a +:+ ", " +:+ strings_Join (b :: prior) ", ").
    change (strings_Join ((a :: b :: prior) ++ [ip]) ", ")
      with (a +:+ ", " +:+ strings_Join ((b :: prior) ++ [ip]) ", ").
    rewrite <- IH by discriminate.
    rewrite !append_assoc. reflexivity.
Qed.

(** ** The headers forwarded to the backend *)

Ltac key_cases :=
  repeat match goal with
  | |- context [decide (CanonicalHeaderKey ?a = ?b)] =>
      let H := fresh "Hkey" in
      destruct (decide (CanonicalHeaderKey a = b)) as [H|H];
      [ try (vm_compute in H; discriminate H)
      | try (exfalso; apply H; reflexivity) ]
  end.

Ltac header_lookup :=
  repeat (progress (rewrite ?Header_Set_lookup, ?Header_Add_lookup,
                      ?fold_Add_lookup, ?lookup_empty; key_cases)).

Ltac forwarded_cases req :=
  unfold forwardedHeader; cbn zeta;
  change (CanonicalHeaderKey "Sec-WebSocket-Protocol") with "Sec-Websocket-Protocol";
  change (CanonicalHeaderKey "Cookie") with "Cookie";
  destruct (Request_TLS req);
  destruct (SplitHostPort (Request_RemoteAddr req)) as [[? ?]|];
  destruct (String.eqb_spec (Header_Get (Request_Header req) "Origin") "");
  cbn [negb].

Lemma forwardedHeader_Origin req :
  forwardedHeader req !! "Origin" =
    if decide (Header_Get (Request_Header req) "Origin" = "") then None
    else Some [Header_Get (Request_Header req) "Origin"].
Proof.
  forwarded_cases req; header_lookup;
    destruct (decide _); try contradiction; try reflexivity;
    destruct (Header_index _ _); destruct (Header_index _ _); reflexivity.
Qed.

Lemma forwardedHeader_Protocol req :
  Header_index (forwardedHeader req) "Sec-Websocket-Protocol"
  = Header_index (Request_Header req) "Sec-Websocket-Protocol".
Proof.
  unfold Header_index at 1.
  forwarded_cases req; header_lookup;
    destruct (Header_index (Request_Header req) "Cookie");
    destruct (Header_index (Request_Header req) "Sec-Websocket-Protocol");
    try reflexivity; header_lookup; reflexivity.
Qed.

Lemma forwardedHeader_Cookie req :
  Header_index (forwardedHeader req) "Cookie"
  = Header_index (Request_Header req) "Cookie".
Proof.
  unfold Header_index at 1.
  forwarded_cases req; header_lookup;
    destruct (Header_index (Request_Header req) "Cookie"); try reflexivity;
    unfold Header_index at 1; header_lookup;
    destruct (Header_index (Request_Header req) "Sec-Websocket-Protocol");
    header_lookup; reflexivity.
Qed.

Lemma forwardedHeader_For req :
  forwardedHeader req !! "X-Forwarded-For" =
    match SplitHostPort (Request_RemoteAddr req) with
    | Some (ip, _) =>
        Some [match Request_Header req !! "X-Forwarded-For" with
              | Some prior => (strings_Join prior ", " +:+ ", ") +:+ ip
              | None => ip
              end]
    | None => None
    end.
Proof.
  forwarded_cases req; header_lookup; try reflexivity;
    destruct (Header_index (Request_Header req) "Cookie");
    destruct (Header_index (Request_Header req) "Sec-Websocket-Protocol");
    header_lookup; reflexivity.
Qed.

Lemma forwardedHeader_Proto req :
  forwardedHeader req !! "X-Forwarded-Proto" =
    Some [match Request_TLS req with Some _ => "https" | None => "http" end].
Proof. forwarded_cases req; header_lookup; reflexivity. Qed.

(** No other header is forwarded. *)
Lemma forwardedHeader_others req k :
  k <> "Origin" -> k <> "Sec-Websocket-Protocol" -> k <> "Cookie" ->
  k <> "X-Forwarded-For" -> k <> "X-Forwarded-Proto" ->
  forwardedHeader req !! k = None.
Proof.
  intros H1 H2 H3 H4 H5.
  forwarded_cases req;
    rewrite ?Header_Set_lookup, ?Header_Add_lookup, ?fold_Add_lookup, ?lookup_empty;
    repeat (destruct (decide _) as [Hk|Hk];
            [vm_compute in Hk; congruence|clear Hk]);
    rewrite ?Header_Set_lookup, ?Header_Add_lookup, ?fold_Add_lookup, ?lookup_empty;
    repeat (destruct (decide _) as [Hk|Hk];
            [vm_compute in Hk; congruence|clear Hk]);
    reflexivity.
Qed.

(** C5.  The header set built for the dial carries: the [Origin] of the
    request when it has one; all its [Sec-WebSocket-Protocol] values in
    their order; all its [Cookie] values; for a peer address [ip:port],
    an [X-Forwarded-For] made of the prior values joined by [", "] and
    followed by [", "] and [ip], or [ip] alone without a prior header;
    [X-Forwarded-Proto], which is [https] exactly when the request came
    over TLS and [http] otherwise.  The [Director] runs last, on the
    request and that header set. *)
Theorem forwarded_headers w req :
  let h := forwardedHeader req in
  let inbound := Request_Header req in
  h !! "Origin" =
    (if decide (Header_Get inbound "Origin" = "") then None
     else Some [Header_Get inbound "Origin"])
  /\ Header_index h "Sec-Websocket-Protocol"
     = Header_index inbound "Sec-Websocket-Protocol"
  /\ Header_index h "Cookie" = Header_index inbound "Cookie"
  /\ (forall ip port,
        SplitHostPort (Request_RemoteAddr req) = Some (ip, port) ->
        (forall prior,
           inbound !! "X-Forwarded-For" = Some prior ->
           h !! "X-Forwarded-For" = Some [(strings_Join prior ", " +:+ ", ") +:+ ip]
           /\ (prior <> [] ->
               h !! "X-Forwarded-For" = Some [strings_Join (prior ++ [ip]) ", "]))
        /\ (inbound !! "X-Forwarded-For" = None ->
            h !! "X-Forwarded-For" = Some [ip]))
  /\ h !! "X-Forwarded-Proto"
     = Some [match Request_TLS req with Some _ => "https" | None => "http" end]
  /\ requestHeader w req
     = match Director w with
       | Some director => director req h
       | None => h
       end.
Proof.
  intros h inbound. subst h inbound.
  split; [apply forwardedHeader_Origin|].
  split; [apply forwardedHeader_Protocol|].
  split; [apply forwardedHeader_Cookie|].
  split; [|split; [apply forwardedHeader_Proto|reflexivity]].
  intros ip port Hsplit. rewrite forwardedHeader_For, Hsplit. split.
  - intros prior Hprior. rewrite Hprior. split; [reflexivity|].
    intros Hne. rewrite strings_Join_snoc by exact Hne. reflexivity.
  - intros Hnone. rewrite Hnone. reflexivity.
Qed.

(** The request of the peer [5.6.7.8] with two subprotocols and the prior
    header [X-Forwarded-For: 1.2.3.4]. *)
Lemma forwarded_headers_witness :
  Header_index (forwardedHeader (example_request "/chat")) "Sec-Websocket-Protocol"
    = ["chat"; "superchat"]
  /\ forwardedHeader (example_request "/chat") !! "X-Forwarded-For"
     = Some ["1.2.3.4, 5.6.7.8"]
  /\ forwardedHeader (example_request "/chat") !! "X-Forwarded-Proto"
     = Some ["http"].
Proof.
  destruct (forwarded_headers NewProxy (example_request "/chat"))
    as (_ & Hprot & _ & Hfor & Hproto & _).
  split; [|split].
  - rewrite Hprot. vm_compute. reflexivity.
  - destruct (Hfor "5.6.7.8" "4711") as [Hprior _]; [vm_compute; reflexivity|].
    destruct (Hprior ["1.2.3.4"]) as [H _]; [vm_compute; reflexivity|].
    rewrite H. vm_compute. reflexivity.
  - rewrite Hproto. reflexivity.
Defined.

(** A peer address that is not of the form [host:port], such as the
    address of a Unix socket: no [X-Forwarded-For] is set. *)
Lemma forwardedHeader_no_peer req :
  SplitHostPort (Request_RemoteAddr req) = None ->
  forwardedHeader req !! "X-Forwarded-For" = None.
Proof. intros H. rewrite forwardedHeader_For, H. reflexivity. Qed.

(** ** One establishment *)

Lemma slice_index_Done {A} (s : list A) index a :
  0 <= index -> s !! Z.to_nat index = Some a -> slice_index s index = Done a.
Proof.
  intros Hi Ha. unfold slice_index.
  pose proof (lookup_lt_Some _ _ _ Ha) as Hlt.
  destruct (Z.ltb_spec index 0); [lia|].
  destruct (Z.leb_spec (Z.of_nat (length s)) index); [lia|]. cbn.
  rewrite Ha. reflexivity.
Qed.

Lemma slice_index_Panic {A} (s : list A) index :
  index < 0 \/ Z.of_nat (length s) <= index ->
  slice_index s index = Panic (IndexOutOfRange index (Z.of_nat (length s))).
Proof.
  intros Hi. unfold slice_index.
  destruct (Z.ltb_spec index 0); [reflexivity|].
  destruct (Z.leb_spec (Z.of_nat (length s)) index); [reflexivity|lia].
Qed.

Lemma slice_index_cases {A} (s : list A) index :
  (exists a, slice_index s index = Done a)
  \/ slice_index s index = Panic (IndexOutOfRange index (Z.of_nat (length s))).
Proof.
  unfold slice_index.
  destruct (_ || _); [right; reflexivity|].
  destruct (s !! Z.to_nat index); [left; eauto|right; reflexivity].
Qed.

(** The headers that [upgradeHeader] keeps: the first value of
    [Sec-Websocket-Protocol] and the first value of [Set-Cookie] of the
    response, each when it is not empty, and nothing else. *)
Lemma upgradeHeader_lookup resp k :
  upgradeHeader resp !! k =
    if decide (k = "Sec-Websocket-Protocol") then
      if decide (Header_Get (Response_Header resp) "Sec-Websocket-Protocol" = "")
      then None
      else Some [Header_Get (Response_Header resp) "Sec-Websocket-Protocol"]
    else if decide (k = "Set-Cookie") then
      if decide (Header_Get (Response_Header resp) "Set-Cookie" = "")
      then None
      else Some [Header_Get (Response_Header resp) "Set-Cookie"]
    else None.
Proof.
  unfold upgradeHeader. cbn zeta.
  destruct (String.eqb_spec (Header_Get (Response_Header resp) "Sec-Websocket-Protocol") "");
    destruct (String.eqb_spec (Header_Get (Response_Header resp) "Set-Cookie") "");
    cbn [negb];
    rewrite ?Header_Set_lookup, ?lookup_empty;
    change (CanonicalHeaderKey "Sec-Websocket-Protocol") with "Sec-Websocket-Protocol";
    change (CanonicalHeaderKey "Set-Cookie") with "Set-Cookie";
    repeat (destruct (decide _)); subst; try reflexivity; try congruence.
Qed.

Lemma connectBackend_run E req s index s1 backend :
  selectBackend E s = (Done index, s1) ->
  slice_index (Backends (proxy s1)) index = Done backend ->
  let dialer :=
    match Dialer (proxy s1) with Some d => d | None => DefaultDialer E end in
  let hdr := requestHeader (proxy s1) req in
  let res := Dial dialer (history s1) (backend req) hdr in
  connectBackend E req s =
    (Done match res with
          | DialErr err => Failed err
          | DialOk conn resp => Connected conn (upgradeHeader resp)
          end,
     with_state s1 (ReqCount (proxy s1))
       (<[index := match res with DialErr _ => 5 | DialOk _ _ => 0 end]>
          (DesolateBackend (proxy s1)))
       (history s1 ++ [EvDial (backend req) hdr res])).
Proof.
  intros Hsel Hslice dialer hdr res.
  unfold connectBackend. unfold bind at 1. rewrite Hsel.
  unfold bind, get_proxy, lift, get_history, emit, mark, update, ret.
  rewrite Hslice. cbn. fold dialer hdr res.
  destruct s1 as [[] ?]. cbn in *. destruct res; reflexivity.
Qed.

Lemma connectBackend_panic E req s index s1 p :
  selectBackend E s = (Done index, s1) ->
  slice_index (Backends (proxy s1)) index = Panic p ->
  connectBackend E req s = (Panic p, s1).
Proof.
  intros Hsel Hslice.
  unfold connectBackend. unfold bind at 1. rewrite Hsel.
  unfold bind, get_proxy, lift. rewrite Hslice. reflexivity.
Qed.

(** C6.  When the selection has returned the index of a backend,
    [connectBackend] dials that backend once.  If the dial fails, the
    budget of the backend becomes 5 and the error of the dial is
    returned; if it succeeds, the budget becomes 0 and the connection is
    returned with a header set that holds the first
    [Sec-Websocket-Protocol] value and the first [Set-Cookie] value of
    the response, each when it is not empty, and no other header. *)
Theorem connectBackend_marks E req s index s1 backend :
  selectBackend E s = (Done index, s1) ->
  0 <= index ->
  Backends (proxy s1) !! Z.to_nat index = Some backend ->
  let dialer :=
    match Dialer (proxy s1) with Some d => d | None => DefaultDialer E end in
  let hdr := requestHeader (proxy s1) req in
  let res := Dial dialer (history s1) (backend req) hdr in
  exists s',
    connectBackend E req s =
      (Done match res with
            | DialErr err => Failed err
            | DialOk conn resp => Connected conn (upgradeHeader resp)
            end, s')
    /\ history s' = (history s1 ++ [EvDial (backend req) hdr res])%list
    /\ DesolateBackend (proxy s') !! index
       = Some match res with DialErr _ => 5 | DialOk _ _ => 0 end
    /\ (forall j, j <> index ->
          DesolateBackend (proxy s') !! j = DesolateBackend (proxy s1) !! j)
    /\ ReqCount (proxy s') = ReqCount (proxy s1)
    /\ (forall resp k,
          upgradeHeader resp !! k =
            if decide (k = "Sec-Websocket-Protocol" \/ k = "Set-Cookie")
            then match Header_Get (Response_Header resp) k with
                 | "" => None
                 | v => Some [v]
                 end
            else None).
Proof.
  intros Hsel Hi Hb dialer hdr res.
  eexists. split.
  - apply connectBackend_run; [exact Hsel|].
    apply slice_index_Done; assumption.
  - fold dialer hdr res. cbn [with_state proxy history set_DesolateBackend
      set_ReqCount DesolateBackend ReqCount].
    split; [reflexivity|]. split; [apply lookup_insert_eq|].
    split; [intros j Hj; apply lookup_insert_ne; congruence|].
    split; [reflexivity|].
    intros resp k. rewrite upgradeHeader_lookup.
    destruct (decide (k = "Sec-Websocket-Protocol")) as [->|Hk1].
    + destruct (decide (_ \/ _)) as [_|Hno]; [|exfalso; apply Hno; left; reflexivity].
      destruct (decide _) as [->|Hne]; [reflexivity|].
      destruct (Header_Get _ _); [contradiction|reflexivity].
    + destruct (decide (k = "Set-Cookie")) as [->|Hk2].
      * destruct (decide (_ \/ _)) as [_|Hno]; [|exfalso; apply Hno; right; reflexivity].
        destruct (decide _) as [->|Hne]; [reflexivity|].
        destruct (Header_Get _ _); [contradiction|reflexivity].
      * destruct (decide (_ \/ _)) as [[?|?]|_]; [contradiction|contradiction|reflexivity].
Qed.

Lemma connectBackend_marks_witness :
  (connectBackend example_env (example_request "/chat") (example_pool 2 0 ∅)).1
    = Done (Failed "connection refused")
  /\ DesolateBackend
       (proxy (connectBackend example_env (example_request "/chat")
                 (example_pool 2 0 ∅)).2) !! 1
     = Some 5.
Proof.
  destruct (connectBackend_marks example_env (example_request "/chat")
              (example_pool 2 0 ∅) 1 (example_pool 2 1 ∅)
              (getRequestURL (example_target "")))
    as (s' & Hrun & _ & Hmark & _).
  - vm_compute. reflexivity.
  - lia.
  - reflexivity.
  - rewrite Hrun. cbn [fst snd]. split; [reflexivity|exact Hmark].
Defined.

(** A dial that succeeds: the budget is reset and only the two headers
    are kept, [Set-Cookie] with its first value. *)
Example connectBackend_success :
  let s := {| proxy := proxy (flaky_pool 2 0 (<[1 := 5]> ∅));
              history := [EvDial (example_target "") ∅ (DialErr "connection refused")] |} in
  (connectBackend example_env (example_request "/chat") s).1
    = Done (Connected 7%nat
              (<["Set-Cookie" := ["id=1"]]> (<["Sec-Websocket-Protocol" := ["chat"]]> ∅)))
  /\ map_to_list (DesolateBackend
       (proxy (connectBackend example_env (example_request "/chat") s).2))
     = [(1, 4); (0, 0)].
Proof. vm_compute. split; reflexivity. Qed.

(** ** Establishment over the pool *)

Lemma dial_results_app evs evs' :
  dial_results (evs ++ evs') = (dial_results evs ++ dial_results evs')%list.
Proof. apply omap_app. Qed.

(** One establishment on a pool that is not empty: one dial, which
    succeeds or fails, or a panic before any dial. *)
Lemma connectBackend_cases E req s :
  (0 < length (Backends (proxy s)))%nat ->
  exists o c m evs,
    connectBackend E req s = (o, with_state s c m (history s ++ evs))
    /\ Forall establishing evs
    /\ ((exists conn resp,
           o = Done (Connected conn (upgradeHeader resp))
           /\ dial_results evs = [DialOk conn resp])
        \/ (exists err, o = Done (Failed err) /\ dial_results evs = [DialErr err])
        \/ (exists p, o = Panic p /\ dial_results evs = [])).
Proof.
  intros HN.
  destruct (select_loop_total E (S (length (Backends (proxy s))))
              (Z.of_nat (length (Backends (proxy s)))) 0 s)
    as (idx & c' & m' & h' & Hsel & Hh); [lia|lia|lia|].
  rewrite <- selectBackend_unfold in Hsel.
  assert (Hev : exists evs0, h' = (history s ++ evs0)%list
                             /\ Forall establishing evs0 /\ dial_results evs0 = []).
  { destruct Hh as [->| ->].
    - exists []. rewrite app_nil_r. repeat split. constructor.
    - exists [EvNow]. repeat split. repeat constructor. }
  destruct Hev as (evs0 & -> & Hest & Hdial).
  set (s1 := with_state s c' m' (history s ++ evs0)) in *.
  destruct (slice_index_cases (Backends (proxy s1)) idx) as [[backend Hb]|Hb].
  - pose proof (connectBackend_run E req s idx s1 backend Hsel Hb) as Hrun.
    cbn zeta in Hrun. rewrite Hrun. unfold s1. rewrite with_state_twice.
    cbn [with_state history]. rewrite <- app_assoc.
    set (url := backend req). set (hdr := requestHeader _ req).
    set (res := Dial _ _ url hdr).
    exists (Done match res with
                 | DialErr err => Failed err
                 | DialOk conn resp => Connected conn (upgradeHeader resp)
                 end).
    eexists _, _, (evs0 ++ [EvDial url hdr res])%list.
    split; [reflexivity|]. split.
    + apply Forall_app. split; [exact Hest|repeat constructor].
    + rewrite dial_results_app, Hdial. cbn.
      destruct res; [left|right; left]; eauto.
  - rewrite (connectBackend_panic E req s idx s1 _ Hsel Hb).
    eexists _, c', m', evs0. split; [reflexivity|]. split; [exact Hest|].
    right; right. eauto.
Qed.

Lemma try_loop_cases E req left :
  forall s,
    (0 < length (Backends (proxy s)))%nat \/ left = 0%nat ->
    exists o c m evs,
      try_loop E req left s = (o, with_state s c m (history s ++ evs))
      /\ Forall establishing evs
      /\ first_success left o (dial_results evs).
Proof.
  induction left as [|left IH]; intros s HN.
  - exists (Done (Failed "No backend available")),
      (ReqCount (proxy s)), (DesolateBackend (proxy s)), [].
    cbn [try_loop ret]. rewrite app_nil_r, <- world_eta.
    split; [reflexivity|]. split; [constructor|].
    split; [reflexivity|]. exists []. split; reflexivity.
  - destruct HN as [HN|?]; [|discriminate].
    destruct (connectBackend_cases E req s HN)
      as (o & c & m & evs & Hrun & Hest & Hcase).
    cbn [try_loop]. unfold bind. rewrite Hrun.
    destruct Hcase as [(conn & resp & -> & Hd)|[(err & -> & Hd)|(p & -> & Hd)]].
    + exists (Done (Connected conn (upgradeHeader resp))), c, m, evs.
      split; [reflexivity|]. split; [exact Hest|].
      exists [], resp. rewrite Hd. repeat split. cbn. lia.
    + destruct (IH (with_state s c m (history s ++ evs)))
        as (o2 & c2 & m2 & evs2 & Hrun2 & Hest2 & Hres2); [left; exact HN|].
      rewrite Hrun2, with_state_twice. cbn [with_state history].
      rewrite <- app_assoc.
      exists o2, c2, m2, (evs ++ evs2)%list.
      split; [reflexivity|]. split; [apply Forall_app; split; assumption|].
      rewrite dial_results_app, Hd.
      destruct o2 as [[conn hdr|err2]|p|]; cbn in Hres2 |- *.
      * destruct Hres2 as (errs & resp & -> & -> & Hlen).
        exists (err :: errs), resp. repeat split. cbn. lia.
      * destruct Hres2 as (-> & errs & -> & Hlen).
        split; [reflexivity|]. exists (err :: errs). split; [reflexivity|].
        cbn. lia.
      * destruct Hres2 as (errs & -> & Hlen).
        exists (err :: errs). split; [reflexivity|]. cbn. lia.
      * contradiction.
    + exists (Panic p), c, m, evs.
      split; [reflexivity|]. split; [exact Hest|].
      exists []. rewrite Hd. split; [reflexivity|]. cbn. lia.
Qed.

Lemma first_success_length tries o results :
  first_success tries o results -> (length results <= tries)%nat.
Proof.
  destruct o as [[conn hdr|err]|p|]; cbn.
  - intros (errs & resp & -> & _ & Hlen).
    rewrite length_app, length_fmap. cbn. lia.
  - intros (_ & errs & -> & Hlen). rewrite length_fmap. lia.
  - intros (errs & -> & Hlen). rewrite length_fmap. lia.
  - contradiction.
Qed.

Lemma ServeHTTP_no_backend E req s err s' :
  tryGetBackendConn E req s = (Done (Failed err), s') ->
  ServeHTTP E req s =
    (Done RespondedError,
     with_state s' (ReqCount (proxy s')) (DesolateBackend (proxy s'))
       (history s' ++ [EvError "internal server error (code: 2)" 500])).
Proof.
  intros H. unfold ServeHTTP. unfold bind at 1. rewrite H.
  unfold bind, emit, ret. destruct s' as [[] ?]. reflexivity.
Qed.

(** The ends of [tryGetBackendConn] in every state: at most as many
    dials as there are backends; the connection and the upgrade headers
    of the first dial that succeeds; or the one error
    ["No backend available"] after as many refused dials as there are
    backends, and then the response 500 of [ServeHTTP]; or, when a
    selection yields an index outside the pool, a panic after fewer
    refused dials. *)
Lemma tryGetBackendConn_outcomes E req s :
  let N := length (Backends (proxy s)) in
  exists o c m evs,
    tryGetBackendConn E req s = (o, with_state s c m (history s ++ evs))
    /\ Forall establishing evs
    /\ (length (dial_results evs) <= N)%nat
    /\ first_success N o (dial_results evs)
    /\ (forall err,
          o = Done (Failed err) ->
          err = "No backend available"
          /\ ServeHTTP E req s =
               (Done RespondedError,
                with_state s c m
                  (history s ++ evs
                   ++ [EvError "internal server error (code: 2)"
                         StatusInternalServerError]))).
Proof.
  intros N.
  destruct (try_loop_cases E req N s) as (o & c & m & evs & Hrun & Hest & Hres).
  { unfold N. destruct (Backends (proxy s)); [right; reflexivity|left; cbn; lia]. }
  assert (Htry : tryGetBackendConn E req s
                 = (o, with_state s c m (history s ++ evs))) by exact Hrun.
  exists o, c, m, evs.
  split; [exact Htry|]. split; [exact Hest|].
  split; [eapply first_success_length; exact Hres|].
  split; [exact Hres|].
  intros err ->. split; [apply Hres|].
  rewrite (ServeHTTP_no_backend E req s err _ Htry).
  rewrite with_state_twice. cbn [with_state history].
  rewrite <- app_assoc. reflexivity.
Qed.

(** A dialer that is refused once and accepted then: the second attempt
    yields the connection. *)
Example tryGetBackendConn_second_attempt :
  (tryGetBackendConn example_env (example_request "/chat") (flaky_pool 2 0 ∅)).1
    = Done (Connected 7%nat
              (<["Set-Cookie" := ["id=1"]]> (<["Sec-Websocket-Protocol" := ["chat"]]> ∅)))
  /\ map_to_list (DesolateBackend
       (proxy (tryGetBackendConn example_env (example_request "/chat")
                 (flaky_pool 2 0 ∅)).2))
     = [(1, 5); (0, 0)].
Proof. vm_compute. split; reflexivity. Qed.

(** While the counter cannot overflow, no establishment panics. *)
Lemma connectBackend_in_range E req s :
  let N := Z.of_nat (length (Backends (proxy s))) in
  1 <= N -> 0 <= ReqCount (proxy s) -> ReqCount (proxy s) + N <= GoInt.max_int ->
  exists r c m h,
    connectBackend E req s = (Done r, with_state s c m h)
    /\ ReqCount (proxy s) <= c <= ReqCount (proxy s) + N.
Proof.
  intros N HN Hc Hmax.
  destruct (select_loop_in_range E (S (length (Backends (proxy s)))) N 0 s)
    as (idx & j & m' & h' & Hsel & Hidx & Hj & _); try (fold N; lia).
  rewrite <- selectBackend_unfold in Hsel.
  set (s1 := with_state s (ReqCount (proxy s) + j) m' h') in *.
  destruct (lookup_lt_is_Some_2 (Backends (proxy s1)) (Z.to_nat idx)) as [b Hb].
  { cbn. fold N in Hidx. lia. }
  pose proof (connectBackend_run E req s idx s1 b Hsel
                (slice_index_Done _ _ _ (proj1 Hidx) Hb)) as Hrun.
  cbn zeta in Hrun. rewrite Hrun. unfold s1. rewrite with_state_twice.
  eexists _, _, _, _. split; [reflexivity|]. cbn. lia.
Qed.

Lemma try_loop_in_range E req left :
  forall s,
    let N := Z.of_nat (length (Backends (proxy s))) in
    1 <= N -> 0 <= ReqCount (proxy s) ->
    ReqCount (proxy s) + Z.of_nat left * N <= GoInt.max_int ->
    exists r s', try_loop E req left s = (Done r, s').
Proof.
  induction left as [|left IH]; intros s N HN Hc Hmax.
  - cbn. eauto.
  - destruct (connectBackend_in_range E req s) as (r & c & m & h & Hrun & Hcr);
      try (fold N; nia).
    cbn [try_loop]. unfold bind. rewrite Hrun.
    destruct r as [conn hdr|err]; [cbn; eauto|].
    apply IH; cbn; fold N; nia.
Qed.

Lemma tryGetBackendConn_in_range E req s :
  let N := Z.of_nat (length (Backends (proxy s))) in
  0 <= ReqCount (proxy s) -> ReqCount (proxy s) + N * N <= GoInt.max_int ->
  exists r s', tryGetBackendConn E req s = (Done r, s').
Proof.
  intros N Hc Hmax.
  change (tryGetBackendConn E req s)
    with (try_loop E req (length (Backends (proxy s))) s).
  destruct (Z.eq_dec N 0) as [H0|H0].
  - assert (Hlen : length (Backends (proxy s)) = 0%nat) by (unfold N in H0; lia).
    rewrite Hlen. cbn. eauto.
  - apply try_loop_in_range; fold N; lia.
Qed.

(** ** The empty pool *)

(** C10.  With no backend registered the loop of [tryGetBackendConn] makes
    no pass: the call returns the error ["No backend available"] and
    leaves the counter, the budgets and the history as they are, so that
    no selection has taken place, and [ServeHTTP] answers with status 500
    and returns.  A selection on the empty pool would have panicked. *)
Theorem empty_pool_responds_500 E req s :
  Backends (proxy s) = [] ->
  tryGetBackendConn E req s = (Done (Failed "No backend available"), s)
  /\ ServeHTTP E req s =
       (Done RespondedError,
        with_state s (ReqCount (proxy s)) (DesolateBackend (proxy s))
          (history s ++ [EvError "internal server error (code: 2)" 500]))
  /\ selectBackend E s =
       (Panic (IntnInvalidArgument 0),
        with_state s (ReqCount (proxy s)) (DesolateBackend (proxy s))
          (history s ++ [EvNow])).
Proof.
  intros Hempty.
  assert (Htry : tryGetBackendConn E req s
                 = (Done (Failed "No backend available"), s)).
  { unfold tryGetBackendConn, bind, get_proxy. rewrite Hempty. reflexivity. }
  split; [exact Htry|]. split.
  - apply (ServeHTTP_no_backend E req s _ s Htry).
  - rewrite selectBackend_unfold, Hempty. cbn [length select_loop Z.of_nat].
    cbn [Z.geb Z.compare]. apply rand_Intn_invalid. lia.
Qed.

Lemma empty_pool_responds_500_witness :
  ServeHTTP example_env (example_request "/chat")
    {| proxy := NewProxy; history := [] |}
  = (Done RespondedError,
     {| proxy := NewProxy;
        history := [EvError "internal server error (code: 2)" 500] |}).
Proof.
  destruct (empty_pool_responds_500 example_env (example_request "/chat")
              {| proxy := NewProxy; history := [] |}) as (_ & H & _).
  - reflexivity.
  - exact H.
Defined.

(** ** The relay task *)

(** The trace of the task from the loop with [written] messages behind
    it, the send included. *)
Lemma replicate_loop_shape dst src :
  forall written,
    let evs :=
      match replicate_loop dst src written None with
      | (evs, Some err) => (evs ++ [Send err])%list
      | (evs, None) => evs
      end in
    relayed evs
    /\ messages_written evs = messages_read evs
    /\ messages_read evs `prefix_of` messages_before_error src
    /\ values_sent evs `prefix_of` [None]
    /\ ((forall w m, dst w m = None) ->
        messages_delivered evs = messages_before_error src).
Proof.
  induction src as [|r src IH]; intros written; cbn [replicate_loop].
  - cbn. split; [constructor|]. split; [reflexivity|].
    split; [reflexivity|]. split; [apply prefix_nil|reflexivity].
  - destruct r as [m|err]; cbn [messages_before_error].
    + destruct (dst written m) as [e|] eqn:Hw.
      * cbn. split; [constructor|]. split; [reflexivity|].
        split; [apply prefix_cons, prefix_nil|]. split; [reflexivity|].
        intros Hok. rewrite Hok in Hw. discriminate.
      * specialize (IH (written ++ [m])%list). cbn zeta in IH.
        destruct (replicate_loop dst src (written ++ [m]) None) as [evs [v|]];
          destruct IH as (Hshape & Hwr & Hpre & Hsent & Hdel); cbn;
          (split; [constructor; exact Hshape|]);
          (split; [f_equal; exact Hwr|]);
          (split; [apply prefix_cons; exact Hpre|]);
          (split; [exact Hsent|]);
          intros Hok; f_equal; apply Hdel; exact Hok.
    + cbn. split; [constructor|]. split; [reflexivity|].
      split; [apply prefix_nil|]. split; reflexivity.
Qed.

(** C9.  In the trace of a relay task every message read from the source
    is passed to [WriteMessage] of the destination at once, with its type
    and its payload as they were read, before the next message is read:
    the messages passed to [WriteMessage] are the messages read, in the
    order received.  When no write fails, the messages written are all
    the messages that the source yields before its first error. *)
Theorem relay_fidelity dst src :
  let evs := replicateWebsocketConn dst src in
  relayed evs
  /\ messages_written evs = messages_read evs
  /\ messages_read evs `prefix_of` messages_before_error src
  /\ ((forall w m, dst w m = None) ->
      messages_delivered evs = messages_before_error src).
Proof.
  destruct (replicate_loop_shape dst src []) as (H1 & H2 & H3 & _ & H5).
  repeat split; assumption.
Qed.

(** The binary message [[0x00, 0xFF, 0x10]], followed by a text message. *)
Lemma relay_fidelity_witness :
  messages_delivered
    (replicateWebsocketConn accepting
       [ReadOk {| msgType := BinaryMessage; msg := [Byte.x00; Byte.xff; Byte.x10] |};
        ReadOk {| msgType := TextMessage; msg := [Byte.x68; Byte.x69] |};
        ReadErr "websocket: close 1000 (normal)"])
  = [{| msgType := BinaryMessage; msg := [Byte.x00; Byte.xff; Byte.x10] |};
     {| msgType := TextMessage; msg := [Byte.x68; Byte.x69] |}].
Proof.
  destruct (relay_fidelity accepting
    [ReadOk {| msgType := BinaryMessage; msg := [Byte.x00; Byte.xff; Byte.x10] |};
     ReadOk {| msgType := TextMessage; msg := [Byte.x68; Byte.x69] |};
     ReadErr "websocket: close 1000 (normal)"]) as (_ & _ & _ & H).
  apply H. reflexivity.
Defined.

(** C8.  The value that a relay task sends on [errc] is [nil], whatever
    ended its loop: the error of [ReadMessage] and of [WriteMessage] is
    held by the [err] that the loop body declares, and the task sends the
    [err] declared before the loop.  A source whose first read fails with
    [err] makes the task send [nil], not [err]. *)
Theorem relay_task_sends_nil dst src :
  values_sent (replicateWebsocketConn dst src) `prefix_of` [None]
  /\ (forall err,
        replicateWebsocketConn dst (ReadErr err :: src)
        = [Read (ReadErr err); Send None])
  /\ (forall m err,
        dst [] m = Some err ->
        replicateWebsocketConn dst (ReadOk m :: src)
        = [Read (ReadOk m); Write m (Some err); Send None]).
Proof.
  split; [apply (replicate_loop_shape dst src [])|].
  split; [reflexivity|].
  intros m err Hw. unfold replicateWebsocketConn. cbn [replicate_loop].
  rewrite Hw. reflexivity.
Qed.

Lemma relay_task_sends_nil_witness :
  replicateWebsocketConn (fun _ _ => Some "write: broken pipe")
    [ReadOk {| msgType := TextMessage; msg := [Byte.x68; Byte.x69] |}]
  = [Read (ReadOk {| msgType := TextMessage; msg := [Byte.x68; Byte.x69] |});
     Write {| msgType := TextMessage; msg := [Byte.x68; Byte.x69] |}
       (Some "write: broken pipe");
     Send None].
Proof.
  destruct (relay_task_sends_nil (fun _ _ => Some "write: broken pipe") [])
    as (_ & _ & H).
  apply H. reflexivity.
Defined.

(** Each task sends at most one value, so that the two tasks of a
    session never send more than [errc] holds. *)
Lemma errc_never_full dst1 src1 dst2 src2 :
  (length (values_sent (replicateWebsocketConn dst1 src1))
   + length (values_sent (replicateWebsocketConn dst2 src2))
   <= errc_capacity)%nat.
Proof.
  destruct (replicate_loop_shape dst1 src1 []) as (_ & _ & _ & H1 & _).
  destruct (replicate_loop_shape dst2 src2 []) as (_ & _ & _ & H2 & _).
  apply prefix_length in H1, H2.
  change (length [None (A:=error)]) with 1%nat in H1, H2.
  unfold errc_capacity, replicateWebsocketConn. lia.
Qed.

(** ** Calls and rounds *)

Lemma run_steps_round_one N s r s1 :
  select_round N s = (Done r, s1) ->
  run_steps N (repeat StepRound 1) s = (Done [r], s1).
Proof. intros H. cbn [repeat run_steps]. unfold bind. rewrite H. reflexivity. Qed.

Lemma run_steps_round_skip N s index s1 n rs s2 :
  select_round N s = (Done (inr index), s1) ->
  run_steps N (repeat StepRound n) s1 = (Done rs, s2) ->
  run_steps N (repeat StepRound (S n)) s = (Done (inr index :: rs), s2).
Proof.
  intros H1 H2. cbn [repeat run_steps]. unfold bind. rewrite H1, H2. reflexivity.
Qed.

(** A call of [selectBackend] on a pool that is not empty is a run of at
    most [N] rounds: skipped rounds followed by a round that returns, or
    [N] skipped rounds followed by the random choice, which leaves the
    counter and the budgets as the rounds have left them. *)
Lemma select_loop_rounds E fuel N k s :
  0 < N -> 0 <= k <= N -> N - k < Z.of_nat fuel ->
  exists (n : nat) skipped idx c m h',
    Z.of_nat n <= N - k
    /\ select_loop E fuel N k s = (Done idx, with_state s c m h')
    /\ ((run_steps N (repeat StepRound n) s
           = (Done ((inr <$> skipped) ++ [inl idx])%list,
              with_state s c m (history s))
         /\ h' = history s)
        \/ (run_steps N (repeat StepRound n) s
              = (Done (inr <$> skipped), with_state s c m (history s))
            /\ Z.of_nat n = N - k
            /\ h' = (history s ++ [EvNow])%list
            /\ idx = entropy E (history s) mod N)).
Proof.
  intros HN. revert k s.
  induction fuel as [|fuel IH]; intros k s Hk Hfuel; [lia|].
  cbn [select_loop]. rewrite Z.geb_leb.
  destruct (Z.leb_spec N k) as [Hge|Hlt].
  - rewrite rand_Intn_run by lia.
    exists 0%nat, [], (entropy E (history s) mod N).
    eexists _, _, _. split; [lia|]. split; [reflexivity|].
    right. cbn [repeat run_steps ret fmap list_fmap].
    rewrite <- world_eta. repeat split; lia.
  - pose proof (select_round_run N s ltac:(lia)) as Hround. cbn zeta in Hround.
    unfold bind at 1. rewrite Hround.
    set (index := round_index N (proxy s)) in *.
    set (c := GoInt.incr (ReqCount (proxy s))) in *.
    destruct (DesolateBackend (proxy s) !! index) as [v|].
    + destruct (v <=? 0).
      * exists 1%nat, [], index. eexists _, _, _.
        split; [lia|]. split; [reflexivity|].
        left. split; [|reflexivity]. apply run_steps_round_one. exact Hround.
      * destruct (IH (k + 1)
                    (with_state s c (<[index := GoInt.decr v]> (DesolateBackend (proxy s)))
                       (history s)))
          as (n & skipped & idx & c' & m' & h' & Hn & Hsel & Hcase);
          [lia|lia|].
        rewrite Hsel, with_state_twice.
        exists (S n), (index :: skipped), idx, c', m', h'.
        split; [lia|]. split; [reflexivity|].
        rewrite fmap_cons.
        destruct Hcase as [(Hrun & Hh)|(Hrun & Hnk & Hh & Hi)].
        -- left. split; [|exact Hh].
           rewrite (run_steps_round_skip _ _ _ _ _ _ _ Hround Hrun).
           rewrite with_state_twice. reflexivity.
        -- right.
           rewrite (run_steps_round_skip _ _ _ _ _ _ _ Hround Hrun).
           rewrite with_state_twice.
           repeat split; try assumption. lia.
    + exists 1%nat, [], index. eexists _, _, _.
      split; [lia|]. split; [reflexivity|].
      left. split; [|reflexivity]. apply run_steps_round_one. exact Hround.
Qed.

(** The random choice may return a backend whose budget is not used up:
    with one backend, skipped in the only round, the call returns it. *)
Example fallback_ignores_budget :
  selectBackend example_env (example_pool 1 0 (<[0 := 5]> ∅))
  = (Done 0,
     {| proxy := proxy (example_pool 1 1 (<[0 := 4]> ∅)); history := [EvNow] |}).
Proof. vm_compute. reflexivity. Qed.

(** The fuel of the loop is never used up. *)
Lemma selectBackend_never_starves E s s' : selectBackend E s <> (Timeout, s').
Proof.
  rewrite selectBackend_unfold.
  destruct (length (Backends (proxy s))) as [|n] eqn:Hlen.
  - change (select_loop E 1 (Z.of_nat 0) 0 s) with (rand_Intn E 0 s).
    rewrite rand_Intn_invalid by lia. discriminate.
  - destruct (select_loop_total E (S (S n)) (Z.of_nat (S n)) 0 s)
      as (idx & c & m & h & Heq & _); [lia|lia|lia|].
    rewrite Heq. discriminate.
Qed.

(** * Further properties of the code *)

(** ** The pool and its resolvers *)

Lemma add_backends_fields targets : forall w,
  Backends (add_backends targets w)
    = (Backends w ++ (getRequestURL <$> targets))%list
  /\ ReqCount (add_backends targets w) = ReqCount w
  /\ DesolateBackend (add_backends targets w) = DesolateBackend w
  /\ Director (add_backends targets w) = Director w.
Proof.
  induction targets as [|t targets IH]; intros w; cbn [add_backends fold_left].
  - rewrite app_nil_r. repeat split.
  - destruct (IH (AddBackend t w)) as (Hb & Hc & Hm & Hd).
    unfold add_backends in *. rewrite Hb, Hc, Hm, Hd. cbn.
    rewrite <- app_assoc. repeat split.
Qed.

(** X1.  Backends are kept in the order of their registration: after the
    registration of [targets] on a proxy, the pool is the old pool
    followed by the resolvers of the targets in that order, so that the
    backend registered as the [k]-th on a new proxy has index [k]; the
    counter and the budgets are not touched. *)
Theorem AddBackend_keeps_order targets w :
  Backends (add_backends targets w)
    = (Backends w ++ (getRequestURL <$> targets))%list
  /\ length (Backends (add_backends targets w))
     = (length (Backends w) + length targets)%nat
  /\ (forall k target,
        targets !! k = Some target ->
        Backends (add_backends targets NewProxy) !! k
          = Some (getRequestURL target))
  /\ ReqCount (add_backends targets w) = ReqCount w
  /\ DesolateBackend (add_backends targets w) = DesolateBackend w.
Proof.
  destruct (add_backends_fields targets w) as (Hb & Hc & Hm & _).
  split; [exact Hb|]. split.
  - rewrite Hb, length_app, length_fmap. reflexivity.
  - split; [|split; assumption].
    intros k target Hk.
    destruct (add_backends_fields targets NewProxy) as (Hb0 & _).
    rewrite Hb0. cbn [Backends NewProxy app].
    rewrite list_lookup_fmap, Hk. reflexivity.
Qed.

(** X2.  A resolver depends on its target only through the fields other
    than path, raw query and fragment, and on the request only through
    the path, raw query and fragment of its URL: resolving again with
    another request forgets the first request altogether. *)
Theorem getRequestURL_dependencies target target' r r' :
  (Scheme target = Scheme target' -> Opaque target = Opaque target' ->
   User target = User target' -> Host target = Host target' ->
   RawPath target = RawPath target' -> OmitHost target = OmitHost target' ->
   ForceQuery target = ForceQuery target' ->
   RawFragment target = RawFragment target' ->
   getRequestURL target r = getRequestURL target' r)
  /\ (Path (Request_URL r) = Path (Request_URL r') ->
      RawQuery (Request_URL r) = RawQuery (Request_URL r') ->
      Fragment (Request_URL r) = Fragment (Request_URL r') ->
      getRequestURL target r = getRequestURL target r')
  /\ getRequestURL (getRequestURL target r) r' = getRequestURL target r'.
Proof.
  split; [|split].
  - intros H1 H2 H3 H4 H5 H6 H7 H8. unfold getRequestURL. cbn zeta.
    rewrite H1, H2, H3, H4, H5, H6, H7, H8. reflexivity.
  - intros H1 H2 H3. unfold getRequestURL. cbn zeta.
    rewrite H1, H2, H3. reflexivity.
  - reflexivity.
Qed.

Lemma getRequestURL_dependencies_witness :
  getRequestURL (example_target "/base") (example_request "/chat")
  = getRequestURL (example_target "/other") (example_request "/chat").
Proof.
  apply (getRequestURL_dependencies (example_target "/base")
           (example_target "/other") (example_request "/chat")
           (example_request "/chat")); reflexivity.
Defined.

(** ** The selection on every state *)

Lemma select_loop_bounds E fuel N k s :
  0 < N -> 0 <= k <= N -> N - k < Z.of_nat fuel ->
  exists idx c' m' h',
    select_loop E fuel N k s = (Done idx, with_state s c' m' h')
    /\ - N < idx < N
    /\ (h' = history s \/ h' = (history s ++ [EvNow])%list)
    /\ dom m' = dom (DesolateBackend (proxy s)).
Proof.
  intros HN. revert k s.
  induction fuel as [|fuel IH]; intros k s Hk Hfuel; [lia|].
  cbn [select_loop]. rewrite Z.geb_leb.
  destruct (Z.leb_spec N k) as [Hge|Hlt].
  - rewrite rand_Intn_run by lia.
    pose proof (Z.mod_pos_bound (entropy E (history s)) N HN).
    eexists _, _, _, _. split; [reflexivity|].
    split; [lia|]. split; [right; reflexivity|reflexivity].
  - unfold bind. rewrite select_round_run by lia. cbn zeta.
    assert (Hidx : - N < round_index N (proxy s) < N).
    { unfold round_index.
      pose proof (Z.rem_bound_abs (GoInt.incr (ReqCount (proxy s))) N). lia. }
    destruct (DesolateBackend (proxy s) !! _) as [v|] eqn:Hlook.
    + destruct (v <=? 0).
      * eexists _, _, _, _. split; [reflexivity|]. auto.
      * match goal with |- context [select_loop E fuel N (k + 1) ?s1] =>
          destruct (IH (k + 1) s1)
            as (idx & c' & m' & h' & Heq & Hi & Hh & Hdom); [lia|lia|]
        end.
        rewrite Heq, with_state_twice. cbn in Hh, Hdom.
        exists idx, c', m', h'. split; [reflexivity|].
        split; [exact Hi|]. split; [exact Hh|].
        rewrite Hdom. apply dom_insert_lookup_L. eauto.
    + eexists _, _, _, _. split; [reflexivity|]. auto.
Qed.

(** X3.  On a pool that is not empty a call of [selectBackend] returns in
    every state, also with a counter that has wrapped around: the index
    lies strictly between [-N] and [N] (it is never [N] or more), only
    the counter, the budgets and the history change, the clock is read
    at most once, and no budget is added or removed. *)
Theorem selectBackend_any_state E s :
  let N := Z.of_nat (length (Backends (proxy s))) in
  1 <= N ->
  exists idx c' m' h',
    selectBackend E s = (Done idx, with_state s c' m' h')
    /\ - N < idx < N
    /\ (h' = history s \/ h' = (history s ++ [EvNow])%list)
    /\ dom m' = dom (DesolateBackend (proxy s)).
Proof.
  intros N HN. rewrite selectBackend_unfold. fold N.
  apply select_loop_bounds; lia.
Qed.

Lemma selectBackend_any_state_witness :
  exists idx c' m' h',
    selectBackend example_env (example_pool 3 GoInt.max_int ∅)
      = (Done idx, with_state (example_pool 3 GoInt.max_int ∅) c' m' h')
    /\ - 3 < idx < 3.
Proof.
  destruct (selectBackend_any_state example_env (example_pool 3 GoInt.max_int ∅))
    as (idx & c' & m' & h' & Heq & Hidx & _).
  - cbn. lia.
  - exists idx, c', m', h'. split; [exact Heq|exact Hidx].
Defined.

(** While the counter cannot overflow, the rounds of a call come up with
    different indices, so that a budget is left alone or, when its index
    comes up, charged once. *)
Lemma select_loop_charges E fuel N k s :
  0 < N -> 0 <= k <= N -> N - k < Z.of_nat fuel ->
  0 <= ReqCount (proxy s) ->
  ReqCount (proxy s) + (N - k) <= GoInt.max_int ->
  exists idx c' m' h',
    select_loop E fuel N k s = (Done idx, with_state s c' m' h')
    /\ forall i,
         m' !! i = DesolateBackend (proxy s) !! i
         \/ exists v t,
              DesolateBackend (proxy s) !! i = Some v /\ 0 < v
              /\ m' !! i = Some (GoInt.decr v)
              /\ 1 <= t <= N - k /\ i = (ReqCount (proxy s) + t) mod N.
Proof.
  intros HN. revert k s.
  induction fuel as [|fuel IH]; intros k s Hk Hfuel Hc Hmax; [lia|].
  cbn [select_loop]. rewrite Z.geb_leb.
  pose proof min_int_neg as Hmin.
  destruct (Z.leb_spec N k) as [Hge|Hlt].
  - rewrite rand_Intn_run by lia.
    eexists _, _, _, _. split; [reflexivity|]. intros i. left. reflexivity.
  - unfold bind. rewrite select_round_run by lia. cbn zeta.
    unfold round_index. rewrite incr_no_overflow by lia.
    rewrite rem_nonneg by lia.
    set (c := ReqCount (proxy s)) in *.
    set (i0 := (c + 1) mod N).
    destruct (DesolateBackend (proxy s) !! i0) as [v|] eqn:Hlook.
    + destruct (Z.leb_spec v 0) as [Hv|Hv].
      * eexists _, _, _, _. split; [reflexivity|]. intros i. left. reflexivity.
      * match goal with |- context [select_loop E fuel N (k + 1) ?s1] =>
          destruct (IH (k + 1) s1) as (idx & c' & m' & h' & Heq & Hm);
            [lia|lia|cbn; lia|cbn; lia|]
        end.
        rewrite Heq, with_state_twice.
        exists idx, c', m', h'. split; [reflexivity|].
        intros i. cbn in Hm. destruct (Hm i) as [Hsame|(v' & t & Hv' & Hpos & Hdec & Ht & Hi)].
        -- destruct (decide (i = i0)) as [->|Hne].
           ++ right. exists v, 1. rewrite Hsame, lookup_insert_eq.
              repeat split; try assumption; lia.
           ++ left. rewrite Hsame. apply lookup_insert_ne. congruence.
        -- assert (Hne : i <> i0).
           { rewrite Hi. unfold i0. fold c.
             apply mod_shift_ne. lia. }
           rewrite lookup_insert_ne in Hv' by congruence.
           right. exists v', (1 + t). repeat split; try assumption; try lia.
           rewrite Hi. fold c. f_equal. lia.
    + eexists _, _, _, _. split; [reflexivity|]. intros i. left. reflexivity.
Qed.

(** X4.  While the counter cannot overflow, a call of [selectBackend]
    charges every backend at most one skip: each budget is either left
    as it was, or it was positive and is one less. *)
Theorem selectBackend_charges_once E s :
  let N := Z.of_nat (length (Backends (proxy s))) in
  let c := ReqCount (proxy s) in
  1 <= N -> 0 <= c -> c + N <= GoInt.max_int ->
  exists idx c' m' h',
    selectBackend E s = (Done idx, with_state s c' m' h')
    /\ forall i,
         m' !! i = DesolateBackend (proxy s) !! i
         \/ exists v,
              DesolateBackend (proxy s) !! i = Some v /\ 0 < v
              /\ m' !! i = Some (GoInt.decr v)
              /\ (v <= GoInt.max_int -> GoInt.decr v = v - 1).
Proof.
  intros N c HN Hc Hmax. rewrite selectBackend_unfold. fold N.
  destruct (select_loop_charges E (S (length (Backends (proxy s)))) N 0 s)
    as (idx & c' & m' & h' & Heq & Hm); try (fold c; lia).
  exists idx, c', m', h'. split; [exact Heq|].
  intros i. destruct (Hm i) as [Hsame|(v & t & Hv & Hpos & Hdec & _)].
  - left. exact Hsame.
  - right. exists v. repeat split; try assumption.
    intros Hle. apply decr_positive. lia.
Qed.

Lemma selectBackend_charges_once_witness :
  exists idx c' m' h',
    selectBackend example_env (example_pool 2 0 (<[0 := 5]> (<[1 := 5]> ∅)))
      = (Done idx,
         with_state (example_pool 2 0 (<[0 := 5]> (<[1 := 5]> ∅))) c' m' h')
    /\ (m' !! 0 = Some 5 \/ m' !! 0 = Some 4).
Proof.
  destruct (selectBackend_charges_once example_env
              (example_pool 2 0 (<[0 := 5]> (<[1 := 5]> ∅))))
    as (idx & c' & m' & h' & Heq & Hm).
  - cbn. lia.
  - cbn. lia.
  - vm_compute. discriminate.
  - exists idx, c', m', h'. split; [exact Heq|].
    destruct (Hm 0) as [Hsame|(v & Hv & _ & Hdec & _)].
    + left. rewrite Hsame. reflexivity.
    + right. rewrite Hdec. cbn in Hv.
      rewrite lookup_insert_eq in Hv. injection Hv as <-. reflexivity.
Defined.

Lemma select_loop_outage_budgets E fuel N k s :
  0 < N -> 0 <= k <= N -> N - k < Z.of_nat fuel ->
  0 <= ReqCount (proxy s) ->
  ReqCount (proxy s) + (N - k) <= GoInt.max_int ->
  (forall t, 1 <= t <= N - k ->
     exists v, DesolateBackend (proxy s) !! ((ReqCount (proxy s) + t) mod N) = Some v
               /\ 0 < v) ->
  exists m',
    select_loop E fuel N k s
      = (Done (entropy E (history s) mod N),
         with_state s (ReqCount (proxy s) + (N - k)) m' (history s ++ [EvNow]))
    /\ (forall t, 1 <= t <= N - k ->
          exists v,
            DesolateBackend (proxy s) !! ((ReqCount (proxy s) + t) mod N) = Some v
            /\ m' !! ((ReqCount (proxy s) + t) mod N) = Some (GoInt.decr v))
    /\ (forall i,
          (forall t, 1 <= t <= N - k -> i <> (ReqCount (proxy s) + t) mod N) ->
          m' !! i = DesolateBackend (proxy s) !! i).
Proof.
  intros HN. revert k s.
  induction fuel as [|fuel IH]; intros k s Hk Hfuel Hc Hmax Hpos; [lia|].
  cbn [select_loop]. rewrite Z.geb_leb.
  pose proof min_int_neg as Hmin.
  destruct (Z.leb_spec N k) as [Hge|Hlt].
  - rewrite rand_Intn_run by lia.
    replace (N - k) with 0 by lia. rewrite Z.add_0_r.
    eexists. split; [reflexivity|]. split; [intros t Ht; lia|reflexivity].
  - unfold bind. rewrite select_round_run by lia. cbn zeta.
    unfold round_index. rewrite incr_no_overflow by lia.
    rewrite rem_nonneg by lia.
    set (c := ReqCount (proxy s)) in *.
    set (i0 := (c + 1) mod N).
    destruct (Hpos 1) as (v & Hv & Hv0); [lia|]. fold i0 in Hv. rewrite Hv.
    destruct (Z.leb_spec v 0) as [?|_]; [lia|].
    assert (Hne : forall t, 1 <= t <= N - (k + 1) -> (c + 1 + t) mod N <> i0).
    { intros t Ht. apply mod_shift_ne. lia. }
    match goal with |- context [select_loop E fuel N (k + 1) ?s1] =>
      destruct (IH (k + 1) s1) as (m' & Heq & Hhit & Hframe);
        [lia|lia|cbn; lia|cbn; lia| |]
    end.
    + intros t Ht. cbn. fold c.
      destruct (Hpos (1 + t)) as (v' & Hv' & Hv0'); [lia|].
      exists v'. split; [|exact Hv0'].
      rewrite lookup_insert_ne by (apply not_eq_sym, Hne; exact Ht).
      rewrite <- Hv'. f_equal. f_equal. lia.
    + rewrite Heq, with_state_twice. cbn in Heq, Hhit, Hframe |- *. fold c in Hhit, Hframe |- *.
      exists m'. split; [f_equal; f_equal; lia|]. split.
      * intros t Ht. destruct (decide (t = 1)) as [->|Ht1].
        -- exists v. fold i0. split; [exact Hv|].
           rewrite Hframe by (intros t' Ht'; apply not_eq_sym, Hne; exact Ht').
           apply lookup_insert_eq.
        -- destruct (Hhit (t - 1)) as (v' & Hv' & Hdec); [lia|].
           replace (c + 1 + (t - 1)) with (c + t) in Hv', Hdec by lia.
           exists v'. split; [|exact Hdec].
           rewrite lookup_insert_ne in Hv'; [exact Hv'|].
           replace (c + t) with (c + 1 + (t - 1)) by lia.
           apply not_eq_sym, Hne. lia.
      * intros i Hi. rewrite Hframe.
        -- apply lookup_insert_ne. apply not_eq_sym. apply (Hi 1). lia.
        -- intros t Ht. replace (c + 1 + t) with (c + (1 + t)) by lia.
           apply Hi. lia.
Qed.

(** X5.  When every backend has a positive budget and the counter cannot
    overflow, a call of [selectBackend] makes [N] rounds, charges every
    backend exactly one skip, leaves the other entries of the map alone
    and returns the random index. *)
Theorem selectBackend_total_outage E s :
  let N := Z.of_nat (length (Backends (proxy s))) in
  let c := ReqCount (proxy s) in
  1 <= N -> 0 <= c -> c + N <= GoInt.max_int ->
  (forall i, 0 <= i < N ->
     exists v, DesolateBackend (proxy s) !! i = Some v /\ 0 < v) ->
  exists m',
    selectBackend E s
      = (Done (entropy E (history s) mod N),
         with_state s (c + N) m' (history s ++ [EvNow]))
    /\ (forall i, 0 <= i < N ->
          exists v, DesolateBackend (proxy s) !! i = Some v
                    /\ m' !! i = Some (GoInt.decr v))
    /\ (forall i, ~ 0 <= i < N -> m' !! i = DesolateBackend (proxy s) !! i).
Proof.
  intros N c HN Hc Hmax Hout. rewrite selectBackend_unfold. fold N.
  destruct (select_loop_outage_budgets E (S (length (Backends (proxy s)))) N 0 s)
    as (m' & Heq & Hhit & Hframe); try (fold c; lia).
  { intros t Ht. apply Hout. apply Z.mod_pos_bound. lia. }
  fold c in Heq, Hhit, Hframe. rewrite Z.sub_0_r in Heq, Hhit, Hframe.
  exists m'. split; [exact Heq|]. split.
  - intros i Hi.
    assert (Ht : 1 <= (i - c - 1) mod N + 1 <= N).
    { pose proof (Z.mod_pos_bound (i - c - 1) N). lia. }
    destruct (Hhit _ Ht) as (v & Hv & Hdec).
    assert (Hmod : (c + ((i - c - 1) mod N + 1)) mod N = i).
    { replace (c + ((i - c - 1) mod N + 1)) with (c + 1 + (i - c - 1) mod N) by lia.
      rewrite Z.add_mod_idemp_r by lia.
      replace (c + 1 + (i - c - 1)) with i by lia.
      apply Z.mod_small. lia. }
    rewrite Hmod in Hv, Hdec. eauto.
  - intros i Hi. apply Hframe. intros t Ht ->.
    apply Hi. apply Z.mod_pos_bound. lia.
Qed.

Lemma selectBackend_total_outage_witness :
  exists m',
    selectBackend example_env (example_pool 2 0 (<[0 := 5]> (<[1 := 3]> ∅)))
      = (Done 1,
         with_state (example_pool 2 0 (<[0 := 5]> (<[1 := 3]> ∅))) 2 m' [EvNow])
    /\ m' !! 0 = Some 4 /\ m' !! 1 = Some 2.
Proof.
  destruct (selectBackend_total_outage example_env
              (example_pool 2 0 (<[0 := 5]> (<[1 := 3]> ∅))))
    as (m' & Heq & Hhit & _).
  - cbn. lia.
  - cbn. lia.
  - vm_compute. discriminate.
  - intros i Hi. cbn in Hi |- *.
    assert (Hcase : i = 0 \/ i = 1) by lia.
    destruct Hcase as [-> | ->]; [exists 5|exists 3]; split; (reflexivity || lia).
  - exists m'. split; [exact Heq|].
    destruct (Hhit 0) as (v0 & Hv0 & Hd0); [cbn; lia|].
    destruct (Hhit 1) as (v1 & Hv1 & Hd1); [cbn; lia|].
    cbn in Hv0, Hv1. rewrite lookup_insert_eq in Hv0.
    rewrite lookup_insert_ne, lookup_insert_eq in Hv1 by lia.
    injection Hv0 as <-. injection Hv1 as <-.
    split; [rewrite Hd0|rewrite Hd1]; reflexivity.
Defined.

(** ** An invariant of the pool *)

Lemma pool_ok_with_state s c m h :
  (forall i v, m !! i = Some v ->
     0 <= i < Z.of_nat (length (Backends (proxy s))) /\ 0 <= v <= 5) ->
  pool_ok (proxy (with_state s c m h)).
Proof. intros H. exact H. Qed.

Lemma pool_ok_same s c h :
  pool_ok (proxy s) ->
  pool_ok (proxy (with_state s c (DesolateBackend (proxy s)) h)).
Proof. intros H. exact H. Qed.

Lemma pool_ok_insert s c h i v :
  pool_ok (proxy s) ->
  0 <= i < Z.of_nat (length (Backends (proxy s))) -> 0 <= v <= 5 ->
  pool_ok (proxy (with_state s c (<[i := v]> (DesolateBackend (proxy s))) h)).
Proof.
  intros Hok Hi Hv. apply pool_ok_with_state. intros j w Hj.
  destruct (decide (i = j)) as [<-|Hne].
  - rewrite lookup_insert_eq in Hj. injection Hj as <-. auto.
  - rewrite lookup_insert_ne in Hj by exact Hne. apply Hok. exact Hj.
Qed.

Lemma select_round_pool_ok N s o s' :
  pool_ok (proxy s) ->
  select_round N s = (o, s') ->
  pool_ok (proxy s') /\ Backends (proxy s') = Backends (proxy s).
Proof.
  intros Hok Hrun. destruct (Z.eq_dec N 0) as [->|HN].
  - rewrite select_round_zero in Hrun. injection Hrun as _ <-.
    split; [apply pool_ok_same; exact Hok|reflexivity].
  - rewrite select_round_run in Hrun by exact HN. cbn zeta in Hrun.
    destruct (DesolateBackend (proxy s) !! _) as [v|] eqn:Hlook.
    + destruct (Z.leb_spec v 0).
      * injection Hrun as _ <-. split; [apply pool_ok_same; exact Hok|reflexivity].
      * injection Hrun as _ <-. split; [|reflexivity].
        destruct (Hok _ _ Hlook) as [Hi Hv].
        apply pool_ok_insert; [exact Hok|exact Hi|].
        pose proof max_int_pos.
        rewrite decr_positive; [lia|]. split; [lia|].
        transitivity 5; [lia|]. vm_compute. discriminate.
    + injection Hrun as _ <-. split; [apply pool_ok_same; exact Hok|reflexivity].
Qed.

Lemma rand_Intn_proxy E n s o s' :
  rand_Intn E n s = (o, s') -> proxy s' = proxy s.
Proof.
  intros H. destruct (Z.le_gt_cases n 0).
  - rewrite rand_Intn_invalid in H by lia. injection H as _ <-.
    destruct s as [[] ?]; reflexivity.
  - rewrite rand_Intn_run in H by lia. injection H as _ <-.
    destruct s as [[] ?]; reflexivity.
Qed.

Lemma select_loop_pool_ok E fuel N : forall k s o s',
  pool_ok (proxy s) ->
  select_loop E fuel N k s = (o, s') ->
  pool_ok (proxy s') /\ Backends (proxy s') = Backends (proxy s).
Proof.
  induction fuel as [|fuel IH]; intros k s o s' Hok Hrun; cbn [select_loop] in Hrun.
  - injection Hrun as _ <-. auto.
  - destruct (k >=? N).
    + apply rand_Intn_proxy in Hrun. rewrite Hrun. auto.
    + unfold bind in Hrun.
      destruct (select_round N s) as [r s1] eqn:Hround.
      destruct (select_round_pool_ok N s r s1 Hok Hround) as [Hok1 Hb1].
      destruct r as [[idx|idx]|p|].
      * injection Hrun as _ <-. auto.
      * destruct (IH _ _ _ _ Hok1 Hrun) as [Hok' Hb']. rewrite Hb', Hb1. auto.
      * injection Hrun as _ <-. auto.
      * injection Hrun as _ <-. auto.
Qed.

Lemma slice_index_range {A} (s : list A) index a :
  slice_index s index = Done a -> 0 <= index < Z.of_nat (length s).
Proof.
  unfold slice_index.
  destruct (Z.ltb_spec index 0); [discriminate|].
  destruct (Z.leb_spec (Z.of_nat (length s)) index); [discriminate|]. lia.
Qed.

Lemma connectBackend_pool_ok E req s o s' :
  pool_ok (proxy s) ->
  connectBackend E req s = (o, s') ->
  pool_ok (proxy s') /\ Backends (proxy s') = Backends (proxy s).
Proof.
  intros Hok Hrun.
  destruct (selectBackend E s) as [r s1] eqn:Hsel.
  assert (Hsel' := Hsel). rewrite selectBackend_unfold in Hsel'.
  destruct (select_loop_pool_ok _ _ _ _ _ _ _ Hok Hsel') as [Hok1 Hb1].
  destruct r as [idx|p|].
  - destruct (slice_index (Backends (proxy s1)) idx) as [b|p|] eqn:Hslice.
    + pose proof (slice_index_range _ _ _ Hslice) as Hidx.
      rewrite (connectBackend_run E req s idx s1 b Hsel Hslice) in Hrun.
      cbn zeta in Hrun. injection Hrun as _ <-. split; [|exact Hb1].
      apply pool_ok_insert; [exact Hok1|exact Hidx|].
      destruct (Dial _ _ _ _); lia.
    + rewrite (connectBackend_panic E req s idx s1 p Hsel Hslice) in Hrun.
      injection Hrun as _ <-. auto.
    + destruct (slice_index_cases (Backends (proxy s1)) idx) as [[a Ha]|Ha];
        rewrite Ha in Hslice; discriminate.
  - unfold connectBackend in Hrun. rewrite (bind_Panic _ _ _ _ _ Hsel) in Hrun.
    injection Hrun as _ <-. auto.
  - exfalso. exact (selectBackend_never_starves E s s1 Hsel).
Qed.

Lemma try_loop_pool_ok E req left : forall s o s',
  pool_ok (proxy s) ->
  try_loop E req left s = (o, s') ->
  pool_ok (proxy s') /\ Backends (proxy s') = Backends (proxy s).
Proof.
  induction left as [|left IH]; intros s o s' Hok Hrun; cbn [try_loop] in Hrun.
  - injection Hrun as _ <-. auto.
  - unfold bind in Hrun.
    destruct (connectBackend E req s) as [r s1] eqn:Hconn.
    destruct (connectBackend_pool_ok E req s r s1 Hok Hconn) as [Hok1 Hb1].
    destruct r as [[conn hdr|err]|p|].
    + injection Hrun as _ <-. auto.
    + destruct (IH _ _ _ Hok1 Hrun) as [Hok' Hb']. rewrite Hb', Hb1. auto.
    + injection Hrun as _ <-. auto.
    + injection Hrun as _ <-. auto.
Qed.

Lemma ServeHTTP_proxy E req s o s' :
  ServeHTTP E req s = (o, s') ->
  exists r s1, tryGetBackendConn E req s = (r, s1) /\ proxy s' = proxy s1.
Proof.
  intros Hrun. unfold ServeHTTP in Hrun. unfold bind at 1 in Hrun.
  destruct (tryGetBackendConn E req s) as [r s1] eqn:Htry.
  exists r, s1. split; [reflexivity|].
  destruct r as [[conn hdr|err]|p|].
  - unfold bind, get_proxy, get_history, emit, ret in Hrun. cbn in Hrun.
    destruct (Upgrade _ _ _ _); injection Hrun as _ <-; reflexivity.
  - unfold bind, emit, ret in Hrun. cbn in Hrun. injection Hrun as _ <-. reflexivity.
  - injection Hrun as _ <-. reflexivity.
  - injection Hrun as _ <-. reflexivity.
Qed.

(** X6.  The budgets of a proxy always belong to backends of its pool
    and lie between 0 and 5: this holds for a new proxy, is kept by
    [AddBackend], and is kept by [ServeHTTP] however the request ends,
    with a panic included; the pool itself is not changed by a request. *)
Theorem pool_ok_invariant :
  pool_ok NewProxy
  /\ (forall target w, pool_ok w -> pool_ok (AddBackend target w))
  /\ (forall E req s o s',
        pool_ok (proxy s) ->
        ServeHTTP E req s = (o, s') ->
        pool_ok (proxy s') /\ Backends (proxy s') = Backends (proxy s)).
Proof.
  split; [|split].
  - intros i v H. cbn in H. rewrite lookup_empty in H. discriminate.
  - intros target w Hok i v H. destruct (Hok i v H) as [Hi Hv].
    split; [|exact Hv]. cbn. rewrite length_app. cbn. lia.
  - intros E req s o s' Hok Hrun.
    destruct (ServeHTTP_proxy E req s o s' Hrun) as (r & s1 & Htry & ->).
    exact (try_loop_pool_ok E req _ s r s1 Hok Htry).
Qed.

Lemma pool_ok_invariant_witness :
  pool_ok (proxy (ServeHTTP example_env (example_request "/chat")
                    (flaky_pool 2 0 ∅)).2).
Proof.
  destruct pool_ok_invariant as (_ & _ & H).
  apply (H example_env (example_request "/chat") (flaky_pool 2 0 ∅)
           (ServeHTTP example_env (example_request "/chat") (flaky_pool 2 0 ∅)).1).
  - intros i v Hv. cbn in Hv. rewrite lookup_empty in Hv. discriminate.
  - apply surjective_pairing.
Defined.

(** ** The handler from the establishment on *)

Lemma refused_errors (errs : list error) : Forall refused (DialErr <$> errs).
Proof. induction errs; constructor; [exact I|assumption]. Qed.

(** X7.  A selection that returns a negative index, as it does after the
    counter has wrapped around, makes the establishment panic on
    [w.Backends[index]]: no backend is dialled, no budget is set, and the
    panic goes through [tryGetBackendConn] and [ServeHTTP], which write
    no response. *)
Theorem negative_index_panics E req s idx s1 :
  selectBackend E s = (Done idx, s1) ->
  idx < 0 ->
  let p := IndexOutOfRange idx (Z.of_nat (length (Backends (proxy s1)))) in
  connectBackend E req s = (Panic p, s1)
  /\ tryGetBackendConn E req s = (Panic p, s1)
  /\ ServeHTTP E req s = (Panic p, s1).
Proof.
  intros Hsel Hidx p.
  assert (Hconn : connectBackend E req s = (Panic p, s1)).
  { apply (connectBackend_panic E req s idx s1 p Hsel).
    apply slice_index_Panic. left. exact Hidx. }
  assert (Htry : tryGetBackendConn E req s = (Panic p, s1)).
  { change (tryGetBackendConn E req s)
      with (try_loop E req (length (Backends (proxy s))) s).
    destruct (length (Backends (proxy s))) as [|n] eqn:Hlen.
    - exfalso. rewrite selectBackend_unfold, Hlen in Hsel.
      change (select_loop E 1 (Z.of_nat 0) 0 s) with (rand_Intn E 0 s) in Hsel.
      rewrite rand_Intn_invalid in Hsel by lia. discriminate.
    - cbn [try_loop]. apply bind_Panic. exact Hconn. }
  split; [exact Hconn|]. split; [exact Htry|].
  unfold ServeHTTP. apply bind_Panic. exact Htry.
Qed.

Lemma negative_index_panics_witness :
  ServeHTTP example_env (example_request "/chat") (example_pool 3 GoInt.max_int ∅)
  = (Panic (IndexOutOfRange (-2) 3), example_pool 3 GoInt.min_int ∅).
Proof.
  destruct (negative_index_panics example_env (example_request "/chat")
              (example_pool 3 GoInt.max_int ∅) (-2)
              (example_pool 3 GoInt.min_int ∅)) as (_ & _ & H).
  - vm_compute. reflexivity.
  - lia.
  - exact H.
Defined.

(** X8.  A request does not panic while the counter cannot overflow in
    the course of its establishment, that is, while it is not negative
    and at least [N * N] below the largest [int]: [ServeHTTP] returns. *)
Theorem ServeHTTP_returns E req s :
  let N := Z.of_nat (length (Backends (proxy s))) in
  0 <= ReqCount (proxy s) -> ReqCount (proxy s) + N * N <= GoInt.max_int ->
  exists r s', ServeHTTP E req s = (Done r, s').
Proof.
  intros N Hc Hmax.
  destruct (tryGetBackendConn_in_range E req s Hc Hmax) as (r & s1 & Htry).
  unfold ServeHTTP. rewrite (bind_Done _ _ _ _ _ Htry).
  destruct r as [conn hdr|err].
  - unfold bind, get_proxy, get_history, emit, ret. cbn.
    destruct (Upgrade _ _ _ _); eauto.
  - unfold bind, emit, ret. cbn. eauto.
Qed.

Lemma ServeHTTP_returns_witness :
  exists r s',
    ServeHTTP example_env (example_request "/chat") (flaky_pool 2 0 ∅)
    = (Done r, s').
Proof.
  apply (ServeHTTP_returns example_env (example_request "/chat") (flaky_pool 2 0 ∅)).
  - cbn. lia.
  - vm_compute. discriminate.
Defined.

(** X9.  What [ServeHTTP] does to the outside, in every state: after the
    clock reads and dials of the establishment it either writes the
    error response, when all [N] dials were refused; or it calls the
    upgrader once, with the headers kept from the response of the last
    dial, the one that succeeded, and on a failed upgrade closes that
    backend connection and writes nothing; or it panics, having been
    refused by every backend it dialled.  It never does both, respond
    with the error and call the upgrader. *)
Theorem ServeHTTP_cases E req s :
  exists o c m evs tail,
    ServeHTTP E req s = (o, with_state s c m (history s ++ evs ++ tail))
    /\ Forall establishing evs
    /\ match o with
       | Done RespondedError =>
           Forall refused (dial_results evs)
           /\ length (dial_results evs) = length (Backends (proxy s))
           /\ tail = [EvError "internal server error (code: 2)" 500]
       | Done UpgradeFailed =>
           exists conn resp err,
             last (dial_results evs) = Some (DialOk conn resp)
             /\ tail = [EvUpgrade (upgradeHeader resp) (UpgradeErr err);
                        EvClose conn]
       | Done (Relaying connPub connBackend) =>
           exists resp,
             last (dial_results evs) = Some (DialOk connBackend resp)
             /\ tail = [EvUpgrade (upgradeHeader resp) (UpgradeOk connPub)]
       | Panic _ => Forall refused (dial_results evs) /\ tail = []
       | Timeout => False
       end.
Proof.
  destruct (try_loop_cases E req (length (Backends (proxy s))) s)
    as (o & c & m & evs & Hrun & Hest & Hres).
  { destruct (Backends (proxy s)); [right; reflexivity|left; cbn; lia]. }
  assert (Htry : tryGetBackendConn E req s
                 = (o, with_state s c m (history s ++ evs))) by exact Hrun.
  unfold ServeHTTP. unfold bind at 1. rewrite Htry.
  destruct o as [[conn hdr|err]|p|]; cbn in Hres.
  - destruct Hres as (errs & resp & Hd & -> & _).
    unfold bind, get_proxy, get_history, emit, ret. cbn.
    destruct (Upgrade _ _ _ _) as [pub|e] eqn:Hup.
    + exists (Done (Relaying pub conn)), c, m, evs,
        [EvUpgrade (upgradeHeader resp) (UpgradeOk pub)].
      split; [unfold with_state; cbn [proxy history app];
              rewrite <- !app_assoc; reflexivity|].
      split; [exact Hest|]. exists resp. rewrite Hd, last_snoc. auto.
    + exists (Done UpgradeFailed), c, m, evs,
        [EvUpgrade (upgradeHeader resp) (UpgradeErr e); EvClose conn].
      split; [unfold with_state; cbn [proxy history app];
              rewrite <- !app_assoc; reflexivity|].
      split; [exact Hest|]. exists conn, resp, e. rewrite Hd, last_snoc. auto.
  - destruct Hres as (-> & errs & Hd & Hlen).
    unfold bind, emit, ret. cbn.
    exists (Done RespondedError), c, m, evs,
      [EvError "internal server error (code: 2)" 500].
    split; [unfold with_state; cbn [proxy history app];
            rewrite <- !app_assoc; reflexivity|].
    split; [exact Hest|]. rewrite Hd, length_fmap.
    split; [apply refused_errors|]. split; [exact Hlen|reflexivity].
  - destruct Hres as (errs & Hd & _).
    exists (Panic p), c, m, evs, []. rewrite app_nil_r.
    split; [reflexivity|]. split; [exact Hest|].
    rewrite Hd. split; [apply refused_errors|reflexivity].
  - contradiction.
Qed.

(** ** A pool whose backends all refuse *)

(** When the budget of the next round-robin index is used up or absent,
    the call returns that index after one round. *)
Lemma selectBackend_eligible E s :
  let N := Z.of_nat (length (Backends (proxy s))) in
  let c := ReqCount (proxy s) in
  1 <= N -> 0 <= c -> c < GoInt.max_int ->
  (forall v, DesolateBackend (proxy s) !! ((c + 1) mod N) = Some v -> v <= 0) ->
  selectBackend E s =
    (Done ((c + 1) mod N),
     with_state s (c + 1) (DesolateBackend (proxy s)) (history s)).
Proof.
  intros N c HN Hc Hmax Hm. rewrite selectBackend_unfold. fold N.
  cbn [select_loop]. rewrite Z.geb_leb.
  destruct (Z.leb_spec N 0) as [?|_]; [lia|].
  unfold bind. rewrite select_round_run by lia. cbn zeta.
  pose proof min_int_neg.
  unfold round_index. fold c. rewrite incr_no_overflow by lia.
  rewrite rem_nonneg by lia.
  destruct (DesolateBackend (proxy s) !! _) as [v|] eqn:Hlook; [|reflexivity].
  specialize (Hm v eq_refl). destruct (Z.leb_spec v 0); [reflexivity|lia].
Qed.

Lemma try_loop_all_refuse E req left : forall s,
  let N := Z.of_nat (length (Backends (proxy s))) in
  let c := ReqCount (proxy s) in
  let m := DesolateBackend (proxy s) in
  1 <= N -> Z.of_nat left <= N ->
  0 <= c -> c + Z.of_nat left <= GoInt.max_int ->
  (forall h u hd, refused (Dial (dialer_of E (proxy s)) h u hd)) ->
  (forall t, 1 <= t <= Z.of_nat left ->
     forall v, m !! ((c + t) mod N) = Some v -> v <= 0) ->
  exists m' evs,
    try_loop E req left s
      = (Done (Failed "No backend available"),
         with_state s (c + Z.of_nat left) m' (history s ++ evs))
    /\ length evs = left
    /\ (forall t : nat, (t < left)%nat ->
          exists b res,
            Backends (proxy s) !! Z.to_nat ((c + 1 + Z.of_nat t) mod N) = Some b
            /\ evs !! t = Some (EvDial (b req) (requestHeader (proxy s) req) res)
            /\ refused res)
    /\ (forall t, 1 <= t <= Z.of_nat left -> m' !! ((c + t) mod N) = Some 5)
    /\ (forall i,
          (forall t, 1 <= t <= Z.of_nat left -> i <> (c + t) mod N) ->
          m' !! i = m !! i).
Proof.
  induction left as [|left IH]; intros s N c m HN Hleft Hc Hmax Hdial Helig.
  - exists m, []. cbn [try_loop ret]. rewrite Z.add_0_r, app_nil_r.
    split; [f_equal; apply world_eta|]. split; [reflexivity|].
    split; [intros t Ht; lia|]. split; [intros t Ht; lia|reflexivity].
  - set (i0 := (c + 1) mod N).
    assert (Hi0 : 0 <= i0 < N) by (apply Z.mod_pos_bound; lia).
    assert (Hsel : selectBackend E s
                   = (Done i0, with_state s (c + 1) m (history s))).
    { apply selectBackend_eligible; try (fold N c; lia).
      fold N c m. apply Helig. lia. }
    set (s1 := with_state s (c + 1) m (history s)) in *.
    destruct (lookup_lt_is_Some_2 (Backends (proxy s1)) (Z.to_nat i0)) as [b Hb].
    { cbn. fold N. lia. }
    pose proof (connectBackend_run E req s i0 s1 b Hsel
                  (slice_index_Done _ _ _ (proj1 Hi0) Hb)) as Hrun.
    cbn zeta in Hrun.
    set (hdr := requestHeader (proxy s) req).
    set (res := Dial (dialer_of E (proxy s)) (history s) (b req) hdr).
    assert (Hres : refused res) by apply Hdial.
    change (Dial _ (history s1) (b req) (requestHeader (proxy s1) req))
      with res in Hrun.
    change (requestHeader (proxy s1) req) with hdr in Hrun.
    destruct res as [conn resp|err] eqn:Hreseq; [contradiction|].
    unfold s1 in Hrun. rewrite with_state_twice in Hrun.
    cbn [with_state proxy history set_DesolateBackend set_ReqCount
           ReqCount DesolateBackend] in Hrun.
    cbn [try_loop]. unfold bind. rewrite Hrun.
    assert (Hne : forall t, 1 <= t <= Z.of_nat left -> (c + 1 + t) mod N <> i0).
    { intros t Ht. apply mod_shift_ne. lia. }
    match goal with |- context [try_loop E req left ?s2] =>
      destruct (IH s2) as (m' & evs & Hloop & Hlen & Hevs & Hhit & Hframe);
        [exact HN|cbn; fold N; lia|cbn; fold c; lia|cbn; fold c; lia
        |exact Hdial| |]
    end.
    + intros t Ht v. cbn. fold N c m.
      rewrite lookup_insert_ne by (apply not_eq_sym, Hne; exact Ht).
      replace (c + 1 + t) with (c + (1 + t)) by lia.
      apply Helig. lia.
    + cbn [with_state proxy history set_DesolateBackend set_ReqCount
             ReqCount DesolateBackend Backends] in Hloop, Hevs, Hhit, Hframe.
      fold N c m in Hloop, Hevs, Hhit, Hframe.
      rewrite Hloop, with_state_twice.
      exists m', (EvDial (b req) hdr (DialErr err) :: evs).
      split.
      { rewrite <- app_assoc. cbn [app]. f_equal. f_equal. lia. }
      split; [cbn; lia|]. split; [|split].
      * intros [|t] Ht.
        -- exists b, (DialErr err). cbn [Z.of_nat]. rewrite Z.add_0_r.
           fold i0. split; [exact Hb|]. split; [reflexivity|exact I].
        -- destruct (Hevs t) as (b' & res' & Hb' & Hev & Hr); [lia|].
           exists b', res'. split; [|split; [exact Hev|exact Hr]].
           rewrite <- Hb'. f_equal. f_equal. f_equal. lia.
      * intros t Ht. destruct (decide (t = 1)) as [->|Ht1].
        -- fold i0. rewrite Hframe by (intros t' Ht'; apply not_eq_sym, Hne; exact Ht').
           apply lookup_insert_eq.
        -- replace (c + t) with (c + 1 + (t - 1)) by lia. apply Hhit. lia.
      * intros i Hi. rewrite Hframe.
        -- apply lookup_insert_ne. apply not_eq_sym. apply (Hi 1). lia.
        -- intros t Ht. replace (c + 1 + t) with (c + (1 + t)) by lia.
           apply Hi. lia.
Qed.

(** X10.  On a pool without positive budgets whose backends all refuse,
    and while the counter cannot overflow, [tryGetBackendConn] dials
    every backend once, in round-robin order from the counter on: the
    [t]-th dial goes to the backend of index [(c + 1 + t) mod N].  It
    never reads the clock, returns ["No backend available"], advances
    the counter by [N] and leaves every backend with the budget 5. *)
Theorem every_backend_is_tried E req s :
  let N := Z.of_nat (length (Backends (proxy s))) in
  let c := ReqCount (proxy s) in
  1 <= N -> 0 <= c -> c + N <= GoInt.max_int ->
  (forall i v, DesolateBackend (proxy s) !! i = Some v -> v <= 0) ->
  (forall h u hd, refused (Dial (dialer_of E (proxy s)) h u hd)) ->
  exists m' evs,
    tryGetBackendConn E req s
      = (Done (Failed "No backend available"),
         with_state s (c + N) m' (history s ++ evs))
    /\ length evs = length (Backends (proxy s))
    /\ (forall t : nat, (t < length (Backends (proxy s)))%nat ->
          exists b res,
            Backends (proxy s) !! Z.to_nat ((c + 1 + Z.of_nat t) mod N) = Some b
            /\ evs !! t = Some (EvDial (b req) (requestHeader (proxy s) req) res)
            /\ refused res)
    /\ (fun t => (c + t) mod N) <$> seqZ 1 N ≡ₚ seqZ 0 N
    /\ (forall i, 0 <= i < N -> m' !! i = Some 5).
Proof.
  intros N c HN Hc Hmax Hm Hdial.
  destruct (try_loop_all_refuse E req (length (Backends (proxy s))) s)
    as (m' & evs & Hrun & Hlen & Hevs & Hhit & _);
    try (fold N c; lia); try exact Hdial.
  { intros t _ v. apply Hm. }
  fold N c in Hrun, Hevs, Hhit.
  exists m', evs. split; [exact Hrun|]. split; [exact Hlen|].
  split; [exact Hevs|]. split; [apply window_permutation; lia|].
  intros i Hi.
  assert (Ht : 1 <= (i - c - 1) mod N + 1 <= N).
  { pose proof (Z.mod_pos_bound (i - c - 1) N). lia. }
  specialize (Hhit _ Ht).
  replace (c + ((i - c - 1) mod N + 1)) with (c + 1 + (i - c - 1) mod N) in Hhit by lia.
  rewrite Z.add_mod_idemp_r in Hhit by lia.
  replace (c + 1 + (i - c - 1)) with i in Hhit by lia.
  rewrite Z.mod_small in Hhit by lia. exact Hhit.
Qed.

Lemma every_backend_is_tried_witness :
  exists m' evs,
    tryGetBackendConn example_env (example_request "/chat") (example_pool 3 0 ∅)
      = (Done (Failed "No backend available"),
         with_state (example_pool 3 0 ∅) 3 m' evs)
    /\ length evs = 3%nat
    /\ m' !! 0 = Some 5 /\ m' !! 1 = Some 5 /\ m' !! 2 = Some 5.
Proof.
  destruct (every_backend_is_tried example_env (example_request "/chat")
              (example_pool 3 0 ∅))
    as (m' & evs & Hrun & Hlen & _ & _ & Hm).
  - cbn. lia.
  - cbn. lia.
  - vm_compute. discriminate.
  - intros i v H. cbn in H. rewrite lookup_empty in H. discriminate.
  - intros h u hd. exact I.
  - exists m', evs. split; [exact Hrun|]. split; [exact Hlen|].
    repeat split; apply Hm; cbn; lia.
Defined.

(** ** What is not forwarded *)

(** X11.  Nothing but the five headers is passed on to the backend: a
    header of the request with any other name, such as [Authorization]
    or [User-Agent], is not in the header set built for the dial, and
    without a [Director] that set is what the dialer receives. *)
Theorem only_five_headers_forwarded w req k :
  is_Some (forwardedHeader req !! k) ->
  (k = "Origin" \/ k = "Sec-Websocket-Protocol" \/ k = "Cookie"
   \/ k = "X-Forwarded-For" \/ k = "X-Forwarded-Proto")
  /\ (Director w = None -> requestHeader w req = forwardedHeader req).
Proof.
  intros [v Hv]. split.
  - destruct (decide (k = "Origin")); [auto|].
    destruct (decide (k = "Sec-Websocket-Protocol")); [auto|].
    destruct (decide (k = "Cookie")); [auto|].
    destruct (decide (k = "X-Forwarded-For")); [auto|].
    destruct (decide (k = "X-Forwarded-Proto")); [auto 6|].
    rewrite forwardedHeader_others in Hv by assumption. discriminate.
  - intros Hd. unfold requestHeader. rewrite Hd. reflexivity.
Qed.

Lemma only_five_headers_forwarded_witness :
  "X-Forwarded-For" = "Origin" \/ "X-Forwarded-For" = "Sec-Websocket-Protocol"
  \/ "X-Forwarded-For" = "Cookie" \/ "X-Forwarded-For" = "X-Forwarded-For"
  \/ "X-Forwarded-For" = "X-Forwarded-Proto".
Proof.
  apply (only_five_headers_forwarded NewProxy (example_request "/chat")
           "X-Forwarded-For").
  vm_compute. eauto.
Defined.

(** X12.  [X-Forwarded-For] is set exactly when the remote address of the
    request splits into host and port, and then it has one value, which
    ends with that host: the prior values are folded into it.  Without
    such an address the prior values of the request are dropped with
    it. *)
Theorem forwarded_for_needs_peer req :
  (is_Some (forwardedHeader req !! "X-Forwarded-For")
   <-> is_Some (SplitHostPort (Request_RemoteAddr req)))
  /\ (forall vs,
        forwardedHeader req !! "X-Forwarded-For" = Some vs ->
        exists ip port prefix,
          SplitHostPort (Request_RemoteAddr req) = Some (ip, port)
          /\ vs = [prefix +:+ ip])
  /\ (SplitHostPort (Request_RemoteAddr req) = None ->
      forwardedHeader req !! "X-Forwarded-For" = None).
Proof.
  rewrite forwardedHeader_For.
  destruct (SplitHostPort (Request_RemoteAddr req)) as [[ip port]|].
  - split; [split; eauto|]. split; [|discriminate].
    intros vs Hvs. injection Hvs as <-.
    destruct (Request_Header req !! "X-Forwarded-For") as [prior|].
    + exists ip, port, (strings_Join prior ", " +:+ ", "). auto.
    + exists ip, port, "". auto.
  - split; [split; intros [? ?]; discriminate|].
    split; [discriminate|reflexivity].
Qed.

Lemma forwarded_for_needs_peer_witness :
  forwardedHeader
    {| Request_URL := Request_URL (example_request "/chat");
       Request_Header := Request_Header (example_request "/chat");
       Request_RemoteAddr := "@";
       Request_TLS := None |} !! "X-Forwarded-For" = None.
Proof.
  apply (forwarded_for_needs_peer
           {| Request_URL := Request_URL (example_request "/chat");
              Request_Header := Request_Header (example_request "/chat");
              Request_RemoteAddr := "@";
              Request_TLS := None |}).
  reflexivity.
Defined.

(** ** The end of a relay task *)

Lemma relay_step_projections m evs :
  messages_delivered (Read (ReadOk m) :: Write m None :: evs)
    = m :: messages_delivered evs
  /\ messages_read (Read (ReadOk m) :: Write m None :: evs)
     = m :: messages_read evs
  /\ values_sent (Read (ReadOk m) :: Write m None :: evs) = values_sent evs.
Proof. repeat split. Qed.

Lemma replicate_loop_exit dst src :
  forall written,
    let evs :=
      match replicate_loop dst src written None with
      | (evs, Some err) => (evs ++ [Send err])%list
      | (evs, None) => evs
      end in
    ((values_sent evs = [] /\ messages_delivered evs = messages_read evs
      /\ length (messages_read evs) = length src)
     \/ (values_sent evs = [None] /\ last evs = Some (Send None)
         /\ (length (messages_delivered evs) < length src)%nat
         /\ (messages_delivered evs = messages_read evs
             \/ exists m err,
                  messages_read evs = (messages_delivered evs ++ [m])%list
                  /\ Write m (Some err) ∈ evs))).
Proof.
  induction src as [|r src IH]; intros written; cbn [replicate_loop].
  - left. repeat split.
  - destruct r as [m|err].
    + destruct (dst written m) as [e|] eqn:Hw.
      * right. cbn. split; [reflexivity|]. split; [reflexivity|].
        split; [lia|]. right. exists m, e. split; [reflexivity|].
        apply list_elem_of_further, list_elem_of_here.
      * specialize (IH (written ++ [m])%list). cbn zeta in IH.
        assert (Hstep : forall evs,
          ((values_sent evs = [] /\ messages_delivered evs = messages_read evs
            /\ length (messages_read evs) = length src)
           \/ (values_sent evs = [None] /\ last evs = Some (Send None)
               /\ (length (messages_delivered evs) < length src)%nat
               /\ (messages_delivered evs = messages_read evs
                   \/ exists m err,
                        messages_read evs = (messages_delivered evs ++ [m])%list
                        /\ Write m (Some err) ∈ evs))) ->
          let evs' := Read (ReadOk m) :: Write m None :: evs in
          ((values_sent evs' = [] /\ messages_delivered evs' = messages_read evs'
            /\ length (messages_read evs') = length (ReadOk m :: src))
           \/ (values_sent evs' = [None] /\ last evs' = Some (Send None)
               /\ (length (messages_delivered evs') < length (ReadOk m :: src))%nat
               /\ (messages_delivered evs' = messages_read evs'
                   \/ exists m err,
                        messages_read evs' = (messages_delivered evs' ++ [m])%list
                        /\ Write m (Some err) ∈ evs')))).
        { intros evs H evs'. subst evs'.
          destruct (relay_step_projections m evs) as (Ed & Er & Es).
          rewrite Ed, Er, Es. cbn [length].
          destruct H as [(Hs & Hd & Hl)|(Hs & Hlast & Hl & Hd)].
          - left. split; [exact Hs|]. split; [f_equal; exact Hd|]. lia.
          - right. split; [exact Hs|].
            split; [rewrite !last_cons, Hlast; reflexivity|].
            split; [lia|].
            destruct Hd as [Hd|(m' & e' & Hd & Hin)].
            + left. f_equal. exact Hd.
            + right. exists m', e'. split; [rewrite Hd; reflexivity|].
              apply list_elem_of_further, list_elem_of_further. exact Hin. }
        destruct (replicate_loop dst src (written ++ [m]) None) as [evs [v|]];
          exact (Hstep _ IH).
    + right. cbn. split; [reflexivity|]. split; [reflexivity|].
      split; [lia|]. left. reflexivity.
Qed.

(** X13.  A relay task sends on [errc] once, as the last thing it does,
    exactly when a read or a write has failed; as long as every read and
    every write succeeds it sends nothing and has written all the
    messages read. *)
Theorem relay_task_sends_on_exit dst src :
  let evs := replicateWebsocketConn dst src in
  (values_sent evs = [] /\ messages_delivered evs = messages_read evs
   /\ length (messages_read evs) = length src)
  \/ (values_sent evs = [None] /\ last evs = Some (Send None)
      /\ (length (messages_delivered evs) < length src)%nat).
Proof.
  destruct (replicate_loop_exit dst src []) as [H|(H1 & H2 & H3 & _)].
  - left. exact H.
  - right. auto.
Qed.

(** X14.  At most one message is lost by a relay task: the messages
    written without error are the messages read, or all of them but the
    last one, whose write has failed and which is read but never
    written again. *)
Theorem relay_loses_at_most_one dst src :
  let evs := replicateWebsocketConn dst src in
  messages_delivered evs = messages_read evs
  \/ exists m err,
       messages_read evs = (messages_delivered evs ++ [m])%list
       /\ Write m (Some err) ∈ evs
       /\ values_sent evs = [None].
Proof.
  destruct (replicate_loop_exit dst src []) as [(_ & H & _)|(Hs & _ & _ & H)].
  - left. exact H.
  - destruct H as [H|(m & err & H1 & H2)]; [left; exact H|].
    right. exists m, err. auto.
Qed.

(** ** Sessions on a pool whose backends all accept *)

Lemma ServeHTTP_first_dial_accepted E req s :
  let N := Z.of_nat (length (Backends (proxy s))) in
  let c := ReqCount (proxy s) in
  let m := DesolateBackend (proxy s) in
  let i0 := (c + 1) mod N in
  1 <= N -> 0 <= c -> c < GoInt.max_int ->
  (forall v, m !! i0 = Some v -> v <= 0) ->
  (forall h u hd, accepted (Dial (dialer_of E (proxy s)) h u hd)) ->
  exists o b tail,
    Backends (proxy s) !! Z.to_nat i0 = Some b
    /\ ServeHTTP E req s
       = (o, with_state s (c + 1) (<[i0 := 0]> m)
               (history s ++ [EvDial (b req) (requestHeader (proxy s) req)
                                (Dial (dialer_of E (proxy s)) (history s) (b req)
                                   (requestHeader (proxy s) req))] ++ tail))
    /\ established o /\ dialled tail = [].
Proof.
  intros N c m i0 HN Hc Hmax Helig Hdial.
  assert (Hi0 : 0 <= i0 < N) by (apply Z.mod_pos_bound; lia).
  assert (Hsel : selectBackend E s
                 = (Done i0, with_state s (c + 1) m (history s))).
  { apply selectBackend_eligible; try (fold N c; lia). exact Helig. }
  set (s1 := with_state s (c + 1) m (history s)) in *.
  destruct (lookup_lt_is_Some_2 (Backends (proxy s1)) (Z.to_nat i0)) as [b Hb].
  { cbn. fold N. lia. }
  pose proof (connectBackend_run E req s i0 s1 b Hsel
                (slice_index_Done _ _ _ (proj1 Hi0) Hb)) as Hrun.
  cbn zeta in Hrun.
  set (hdr := requestHeader (proxy s) req).
  remember (Dial (dialer_of E (proxy s)) (history s) (b req) hdr) as res eqn:Hreseq.
  assert (Hres : accepted res) by (rewrite Hreseq; apply Hdial).
  change (requestHeader (proxy s1) req) with hdr in Hrun.
  change (Dial _ (history s1) (b req) hdr)
    with (Dial (dialer_of E (proxy s)) (history s) (b req) hdr) in Hrun.
  rewrite <- Hreseq in Hrun.
  unfold s1 in Hrun. rewrite with_state_twice in Hrun.
  cbn [with_state proxy history set_DesolateBackend set_ReqCount
         ReqCount DesolateBackend] in Hrun.
  assert (Htry : tryGetBackendConn E req s
                 = (Done match res with
                         | DialErr err => Failed err
                         | DialOk conn resp => Connected conn (upgradeHeader resp)
                         end,
                    with_state s (c + 1) (<[i0 := 0]> m)
                      (history s ++ [EvDial (b req) hdr res]))).
  { change (tryGetBackendConn E req s)
      with (try_loop E req (length (Backends (proxy s))) s).
    destruct (length (Backends (proxy s))) as [|n] eqn:Hlen; [unfold N in HN; lia|].
    cbn [try_loop]. unfold bind. rewrite Hrun.
    destruct res; [reflexivity|contradiction]. }
  unfold ServeHTTP. unfold bind at 1. rewrite Htry.
  destruct res as [conn resp|err]; [|contradiction].
  unfold bind, get_proxy, get_history, emit, ret. cbn.
  destruct (Upgrade _ _ _ _) as [pub|e].
  - exists (Done (Relaying pub conn)), b,
      [EvUpgrade (upgradeHeader resp) (UpgradeOk pub)].
    fold hdr. rewrite <- Hreseq.
    split; [exact Hb|]. split; [|split; [exact I|reflexivity]].
    unfold with_state. cbn [proxy history]. rewrite <- !app_assoc. reflexivity.
  - exists (Done UpgradeFailed), b,
      [EvUpgrade (upgradeHeader resp) (UpgradeErr e); EvClose conn].
    fold hdr. rewrite <- Hreseq.
    split; [exact Hb|]. split; [|split; [exact I|reflexivity]].
    unfold with_state. cbn [proxy history]. rewrite <- !app_assoc. reflexivity.
Qed.

Lemma dialled_app evs evs' :
  dialled (evs ++ evs') = (dialled evs ++ dialled evs')%list.
Proof. apply omap_app. Qed.

Lemma serve_many_accepting E reqs : forall s,
  let N := Z.of_nat (length (Backends (proxy s))) in
  let c := ReqCount (proxy s) in
  1 <= N -> 0 <= c -> c + Z.of_nat (length reqs) <= GoInt.max_int ->
  (forall i v, DesolateBackend (proxy s) !! i = Some v -> v <= 0) ->
  (forall h u hd, accepted (Dial (dialer_of E (proxy s)) h u hd)) ->
  exists os m' evs,
    serve_many E reqs s
      = (os, with_state s (c + Z.of_nat (length reqs)) m' (history s ++ evs))
    /\ Forall established os
    /\ length os = length reqs
    /\ length (dialled evs) = length reqs
    /\ (forall (t : nat) req,
          reqs !! t = Some req ->
          exists b,
            Backends (proxy s) !! Z.to_nat ((c + 1 + Z.of_nat t) mod N) = Some b
            /\ dialled evs !! t = Some (b req))
    /\ (forall i v, m' !! i = Some v -> v <= 0).
Proof.
  induction reqs as [|req reqs IH]; intros s N c HN Hc Hmax Hm Hdial.
  - exists [], (DesolateBackend (proxy s)), []. cbn [serve_many length Z.of_nat].
    rewrite Z.add_0_r, app_nil_r, <- world_eta.
    split; [reflexivity|]. split; [constructor|]. split; [reflexivity|].
    split; [reflexivity|]. split; [intros t r Ht; discriminate|exact Hm].
  - cbn [length] in Hmax.
    destruct (ServeHTTP_first_dial_accepted E req s)
      as (o & b & tail & Hb & Hrun & Hest & Htail); try (fold N c; lia).
    { intros v. apply Hm. }
    { exact Hdial. }
    fold N c in Hb, Hrun.
    cbn [serve_many]. rewrite Hrun.
    match goal with |- context [serve_many E reqs ?s1] =>
      destruct (IH s1) as (os & m' & evs & Hmany & Hos & Hlen & Hd & Hev & Hm');
        [exact HN|cbn; fold c; lia|cbn; fold c; lia| |exact Hdial|]
    end.
    { intros i v. cbn. destruct (decide ((c + 1) mod N = i)) as [<-|Hne].
      - rewrite lookup_insert_eq. intros [= <-]. lia.
      - rewrite lookup_insert_ne by exact Hne. apply Hm. }
    cbn [with_state proxy history set_DesolateBackend set_ReqCount
           ReqCount DesolateBackend Backends] in Hmany, Hev.
    fold N c in Hmany, Hev.
    rewrite Hmany, with_state_twice.
    exists (o :: os), m',
      ([EvDial (b req) (requestHeader (proxy s) req)
          (Dial (dialer_of E (proxy s)) (history s) (b req)
             (requestHeader (proxy s) req))] ++ tail ++ evs)%list.
    split.
    { rewrite <- !app_assoc.
      replace (c + Z.of_nat (length (req :: reqs)))
        with (c + 1 + Z.of_nat (length reqs)) by (cbn [length]; lia).
      reflexivity. }
    split; [constructor; assumption|]. split; [cbn; lia|].
    rewrite !dialled_app, Htail. cbn [dialled omap app].
    split; [cbn; lia|]. split; [|exact Hm'].
    intros [|t] r Ht.
    + cbn in Ht. injection Ht as <-. exists b. cbn [Z.of_nat].
      rewrite Z.add_0_r. split; [exact Hb|reflexivity].
    + cbn in Ht. destruct (Hev t r Ht) as (b' & Hb' & Hd').
      exists b'. split; [|exact Hd'].
      rewrite <- Hb'. f_equal. f_equal. f_equal. lia.
Qed.

(** X15.  On a pool without positive budgets whose backends all accept,
    and while the counter cannot overflow, consecutive requests are
    spread round robin: every request gets its backend connection with a
    single dial, the [t]-th request is dialled to the backend of index
    [(c + 1 + t) mod N], resolved on that request, the counter advances
    by one per request, and the pool stays without positive budgets. *)
Theorem sessions_round_robin E reqs s :
  let N := Z.of_nat (length (Backends (proxy s))) in
  let c := ReqCount (proxy s) in
  1 <= N -> 0 <= c -> c + Z.of_nat (length reqs) <= GoInt.max_int ->
  (forall i v, DesolateBackend (proxy s) !! i = Some v -> v <= 0) ->
  (forall h u hd, accepted (Dial (dialer_of E (proxy s)) h u hd)) ->
  exists os m' evs,
    serve_many E reqs s
      = (os, with_state s (c + Z.of_nat (length reqs)) m' (history s ++ evs))
    /\ Forall established os
    /\ length os = length reqs
    /\ length (dialled evs) = length reqs
    /\ (forall (t : nat) req,
          reqs !! t = Some req ->
          exists b,
            Backends (proxy s) !! Z.to_nat ((c + 1 + Z.of_nat t) mod N) = Some b
            /\ dialled evs !! t = Some (b req))
    /\ (forall i v, m' !! i = Some v -> v <= 0).
Proof. apply serve_many_accepting. Qed.

Lemma sessions_round_robin_witness :
  exists os m' evs,
    serve_many welcoming_env
      [example_request "/a"; example_request "/b"; example_request "/c"]
      (example_pool 2 0 ∅)
    = (os, with_state (example_pool 2 0 ∅) 3 m' evs)
    /\ Forall established os
    /\ length (dialled evs) = 3%nat.
Proof.
  destruct (sessions_round_robin welcoming_env
              [example_request "/a"; example_request "/b"; example_request "/c"]
              (example_pool 2 0 ∅))
    as (os & m' & evs & Hrun & Hos & _ & Hd & _).
  - cbn. lia.
  - cbn. lia.
  - vm_compute. discriminate.
  - intros i v H. cbn in H. rewrite lookup_empty in H. discriminate.
  - intros h u hd. exact I.
  - exists os, m', evs. split; [exact Hrun|]. split; [exact Hos|exact Hd].
Defined.

(** The same three requests, evaluated: they are dialled to the
    backends 1, 0 and 1 with the paths [/a], [/b] and [/c]. *)
Example sessions_round_robin_run :
  Path <$> dialled (history (serve_many welcoming_env
      [example_request "/a"; example_request "/b"; example_request "/c"]
      (example_pool 2 0 ∅)).2)
  = ["/a"; "/b"; "/c"].
Proof. vm_compute. reflexivity. Qed.

(** ** An establishment on the empty pool *)

(** X16.  [connectBackend] must not be called on a proxy without
    backends: the selection reads the clock and panics in [Intn(0)],
    before any backend is looked up or dialled, and the counter and the
    budgets stay as they are. *)
Theorem connectBackend_empty_pool E req s :
  Backends (proxy s) = [] ->
  connectBackend E req s =
    (Panic (IntnInvalidArgument 0),
     with_state s (ReqCount (proxy s)) (DesolateBackend (proxy s))
       (history s ++ [EvNow])).
Proof.
  intros Hempty. unfold connectBackend. apply bind_Panic.
  rewrite selectBackend_unfold, Hempty.
  change (select_loop E 1 (Z.of_nat 0) 0 s) with (rand_Intn E 0 s).
  apply rand_Intn_invalid. lia.
Qed.

Lemma connectBackend_empty_pool_witness :
  connectBackend example_env (example_request "/chat")
    {| proxy := NewProxy; history := [] |}
  = (Panic (IntnInvalidArgument 0), {| proxy := NewProxy; history := [EvNow] |}).
Proof.
  apply (connectBackend_empty_pool example_env (example_request "/chat")
           {| proxy := NewProxy; history := [] |}).
  reflexivity.
Defined.

(** * The back-off, call by call *)

(** The rounds of a call, exactly: [sk] rounds are skipped, each on a
    positive budget that it lowers by one, and then either a round
    returns its index, whose budget is used up or absent, or, [N - k]
    rounds having been skipped, the random index is returned. *)
Lemma select_loop_exact E fuel N k s :
  0 < N -> 0 <= k <= N -> N - k < Z.of_nat fuel ->
  0 <= ReqCount (proxy s) ->
  ReqCount (proxy s) + (N - k) <= GoInt.max_int ->
  exists idx sk m' h' (fb : bool),
    0 <= sk <= N - k
    /\ select_loop E fuel N k s
       = (Done idx,
          with_state s (ReqCount (proxy s) + sk + (if fb then 0 else 1)) m' h')
    /\ (forall t, 1 <= t <= sk ->
          exists v,
            DesolateBackend (proxy s) !! ((ReqCount (proxy s) + t) mod N) = Some v
            /\ 0 < v
            /\ m' !! ((ReqCount (proxy s) + t) mod N) = Some (GoInt.decr v))
    /\ (forall i,
          (forall t, 1 <= t <= sk -> i <> (ReqCount (proxy s) + t) mod N) ->
          m' !! i = DesolateBackend (proxy s) !! i)
    /\ (if fb
        then sk = N - k /\ h' = (history s ++ [EvNow])%list
             /\ idx = entropy E (history s) mod N
        else sk < N - k /\ h' = history s
             /\ idx = (ReqCount (proxy s) + sk + 1) mod N
             /\ forall v, DesolateBackend (proxy s) !! idx = Some v -> v <= 0).
Proof.
  intros HN. revert k s.
  induction fuel as [|fuel IH]; intros k s Hk Hfuel Hc Hmax; [lia|].
  cbn [select_loop]. rewrite Z.geb_leb.
  pose proof min_int_neg as Hmin.
  destruct (Z.leb_spec N k) as [Hge|Hlt].
  - rewrite rand_Intn_run by lia.
    exists (entropy E (history s) mod N), 0, (DesolateBackend (proxy s)),
      (history s ++ [EvNow])%list, true.
    rewrite !Z.add_0_r. split; [lia|]. split; [reflexivity|].
    split; [intros t Ht; lia|]. split; [reflexivity|].
    repeat split. lia.
  - unfold bind. rewrite select_round_run by lia. cbn zeta.
    unfold round_index. rewrite incr_no_overflow by lia.
    rewrite rem_nonneg by lia.
    set (c := ReqCount (proxy s)) in *.
    set (i0 := (c + 1) mod N).
    assert (Hret : forall (Hel : forall v, DesolateBackend (proxy s) !! i0 = Some v -> v <= 0),
      exists idx sk m' h' (fb : bool),
        0 <= sk <= N - k
        /\ (Done i0, with_state s (c + 1) (DesolateBackend (proxy s)) (history s))
           = (Done idx, with_state s (c + sk + (if fb then 0 else 1)) m' h')
        /\ (forall t, 1 <= t <= sk ->
              exists v,
                DesolateBackend (proxy s) !! ((c + t) mod N) = Some v /\ 0 < v
                /\ m' !! ((c + t) mod N) = Some (GoInt.decr v))
        /\ (forall i, (forall t, 1 <= t <= sk -> i <> (c + t) mod N) ->
              m' !! i = DesolateBackend (proxy s) !! i)
        /\ (if fb
            then sk = N - k /\ h' = (history s ++ [EvNow])%list
                 /\ idx = entropy E (history s) mod N
            else sk < N - k /\ h' = history s /\ idx = (c + sk + 1) mod N
                 /\ forall v, DesolateBackend (proxy s) !! idx = Some v -> v <= 0)).
    { intros Hel.
      exists i0, 0, (DesolateBackend (proxy s)), (history s), false.
      rewrite Z.add_0_r. split; [lia|]. split; [reflexivity|].
      split; [intros t Ht; lia|]. split; [reflexivity|].
      split; [lia|]. split; [reflexivity|]. split; [reflexivity|exact Hel]. }
    destruct (DesolateBackend (proxy s) !! i0) as [v|] eqn:Hlook.
    + destruct (Z.leb_spec v 0) as [Hv|Hv].
      * apply Hret. intros v' [= <-]. exact Hv.
      * clear Hret.
        assert (Hne : forall t, 1 <= t <= N - (k + 1) -> (c + 1 + t) mod N <> i0).
        { intros t Ht. apply mod_shift_ne. lia. }
        match goal with |- context [select_loop E fuel N (k + 1) ?s1] =>
          destruct (IH (k + 1) s1)
            as (idx & sk & m' & h' & fb & Hsk & Heq & Hhit & Hframe & Hend);
            [lia|lia|cbn; lia|cbn; lia|]
        end.
        cbn [with_state proxy history set_DesolateBackend set_ReqCount
               ReqCount DesolateBackend] in Heq, Hhit, Hframe, Hend.
        fold c in Heq, Hhit, Hframe, Hend.
        rewrite Heq, with_state_twice.
        exists idx, (1 + sk), m', h', fb.
        split; [lia|]. split; [f_equal; f_equal; lia|]. split; [|split].
        -- intros t Ht. destruct (decide (t = 1)) as [->|Ht1].
           ++ exists v. fold i0. split; [exact Hlook|]. split; [exact Hv|].
              rewrite Hframe by (intros t' Ht'; apply not_eq_sym, Hne; lia).
              apply lookup_insert_eq.
           ++ destruct (Hhit (t - 1)) as (v' & Hv' & Hpos & Hdec); [lia|].
              replace (c + 1 + (t - 1)) with (c + t) in Hv', Hdec by lia.
              exists v'. split; [|split; [exact Hpos|exact Hdec]].
              rewrite lookup_insert_ne in Hv'; [exact Hv'|].
              replace (c + t) with (c + 1 + (t - 1)) by lia.
              apply not_eq_sym, Hne. lia.
        -- intros i Hi. rewrite Hframe.
           ++ apply lookup_insert_ne. apply not_eq_sym. apply (Hi 1). lia.
           ++ intros t Ht. replace (c + 1 + t) with (c + (1 + t)) by lia.
              apply Hi. lia.
        -- destruct fb.
           ++ destruct Hend as (H1 & H2 & H3). repeat split; try assumption. lia.
           ++ destruct Hend as (H1 & H2 & H3 & H4).
              replace (c + (1 + sk) + 1) with (c + 1 + sk + 1) by lia.
              split; [lia|]. split; [exact H2|]. split; [exact H3|].
              intros v' Hv'. apply H4.
              rewrite lookup_insert_ne; [exact Hv'|].
              rewrite H3. replace (c + 1 + sk + 1) with (c + 1 + (sk + 1)) by lia.
              apply not_eq_sym, Hne. lia.
    + apply Hret. intros v' [=].
Qed.

Lemma comes_up_iff i call :
  comes_up i call <->
  exists t,
    1 <= t <= rounds_of call
    /\ (ReqCount (proxy (call_before call)) + t)
         mod Z.of_nat (length (Backends (proxy (call_before call)))) = i.
Proof.
  unfold comes_up. rewrite Exists_exists. split.
  - intros (t & Ht & Hi). apply elem_of_seqZ in Ht. exists t. split; [lia|exact Hi].
  - intros (t & Ht & Hi). exists t. split; [apply elem_of_seqZ; lia|exact Hi].
Qed.

Lemma every_index_comes_up c N i :
  0 < N -> 0 <= i < N -> exists t, 1 <= t <= N /\ (c + t) mod N = i.
Proof.
  intros HN Hi. exists ((i - c - 1) mod N + 1).
  pose proof (Z.mod_pos_bound (i - c - 1) N HN). split; [lia|].
  replace (c + ((i - c - 1) mod N + 1)) with (c + 1 + (i - c - 1) mod N) by lia.
  rewrite Z.add_mod_idemp_r by lia.
  replace (c + 1 + (i - c - 1)) with i by lia.
  apply Z.mod_small. lia.
Qed.

(** One call and one backend: when the index of the backend comes up
    while its budget is positive, the call charges it one skip and can
    return it only by the random choice; when it comes up with a budget
    of zero, the call returns it in that round; when it does not come
    up, the call returns another backend and leaves the budget alone. *)
Lemma selectBackend_call E s i b :
  let N := Z.of_nat (length (Backends (proxy s))) in
  let c := ReqCount (proxy s) in
  1 <= N -> 0 <= c -> c + N <= GoInt.max_int ->
  budget_of s i = Some b -> 0 <= b <= GoInt.max_int ->
  exists idx c' m' h',
    selectBackend E s = (Done idx, with_state s c' m' h')
    /\ c < c' <= c + N
    /\ (let call := {| call_before := s; call_result := Done idx;
                       call_after := with_state s c' m' h' |} in
        progressing call
        /\ (comes_up i call -> 0 < b -> skipped_call i call)
        /\ (comes_up i call -> b = 0 -> returned_call i call)
        /\ (~ comes_up i call -> passed_call i call)).
Proof.
  intros N c HN Hc Hmax Hb Hbr. rewrite selectBackend_unfold. fold N.
  destruct (select_loop_exact E (S (length (Backends (proxy s)))) N 0 s)
    as (idx & sk & m' & h' & fb & Hsk & Heq & Hhit & Hframe & Hend);
    try (fold c; lia).
  fold c in Heq, Hhit, Hframe, Hend. rewrite Z.sub_0_r in Hsk, Hend.
  unfold budget_of in Hb.
  set (r := sk + (if fb then 0 else 1)).
  replace (c + sk + (if fb then 0 else 1)) with (c + r) in Heq by (unfold r; lia).
  assert (Hr : 1 <= r <= N).
  { unfold r. destruct fb; [destruct Hend as (-> & _); lia|destruct Hend; lia]. }
  assert (Hidx : 0 <= idx < N).
  { destruct fb.
    - destruct Hend as (_ & _ & ->). apply Z.mod_pos_bound. lia.
    - destruct Hend as (_ & _ & -> & _). apply Z.mod_pos_bound. lia. }
  exists idx, (c + r), m', h'. split; [exact Heq|]. split; [lia|].
  cbn zeta.
  assert (Hup : forall call,
    call = {| call_before := s; call_result := Done idx;
              call_after := with_state s (c + r) m' h' |} ->
    (comes_up i call <-> exists t, 1 <= t <= r /\ (c + t) mod N = i)).
  { intros call ->. rewrite comes_up_iff. unfold rounds_of. cbn.
    fold N c. replace (c + r - c) with r by lia. reflexivity. }
  specialize (Hup _ eq_refl).
  assert (Hskipped : forall t, 1 <= t <= sk -> (c + t) mod N = i ->
            0 < b /\ m' !! i = Some (b - 1)).
  { intros t Ht Hi. destruct (Hhit t Ht) as (v & Hv & Hpos & Hdec).
    rewrite Hi in Hv, Hdec. rewrite Hb in Hv. injection Hv as <-.
    split; [exact Hpos|]. rewrite Hdec, decr_positive by lia. reflexivity. }
  split; [|split; [|split]].
  - exists idx. split; [reflexivity|]. split; [exact Hidx|].
    unfold rounds_of.
    cbn [call_after call_before with_state proxy set_DesolateBackend
           set_ReqCount ReqCount Backends].
    fold N c. lia.
  - intros Hcu Hpos. apply Hup in Hcu. destruct Hcu as (t & Ht & Hi).
    assert (Htsk : t <= sk).
    { destruct fb; [unfold r in Ht; lia|].
      destruct Hend as (_ & _ & Hi' & Hel).
      destruct (Z.le_gt_cases t sk) as [?|Hgt]; [assumption|exfalso].
      assert (t = sk + 1) by (unfold r in Ht; lia). subst t.
      replace (c + (sk + 1)) with (c + sk + 1) in Hi by lia.
      rewrite Hi' in Hel. rewrite Hi in Hel. specialize (Hel b Hb). lia. }
    destruct (Hskipped t (conj (proj1 Ht) Htsk) Hi) as [_ Hm'].
    exists b. unfold budget_of, by_fallback. cbn.
    split; [exact Hb|]. split; [exact Hpos|]. split; [exact Hm'|].
    intros [= ->]. destruct fb.
    + destruct Hend as (_ & -> & _). reflexivity.
    + destruct Hend as (_ & _ & _ & Hel). specialize (Hel b Hb). lia.
  - intros Hcu ->. apply Hup in Hcu. destruct Hcu as (t & Ht & Hi).
    assert (Hnot : forall t', 1 <= t' <= sk -> i <> (c + t') mod N).
    { intros t' Ht' Heq'. destruct (Hskipped t' Ht' (eq_sym Heq')). lia. }
    assert (Hlast : fb = false /\ t = sk + 1).
    { destruct (Z.le_gt_cases t sk) as [Hle|Hgt].
      - exfalso. exact (Hnot t (conj (proj1 Ht) Hle) (eq_sym Hi)).
      - destruct fb; unfold r in Ht; [lia|]. split; [reflexivity|lia]. }
    destruct Hlast as [-> ->]. destruct Hend as (_ & -> & Hi' & _).
    replace (c + (sk + 1)) with (c + sk + 1) in Hi by lia.
    rewrite Hi in Hi'. subst idx.
    unfold returned_call, budget_of. cbn.
    split; [reflexivity|]. split; [reflexivity|]. split; [exact Hb|].
    rewrite Hframe by exact Hnot. exact Hb.
  - intros Hncu. unfold passed_call, budget_of. cbn. split.
    + intros [= ->]. apply Hncu, Hup. destruct fb.
      * destruct Hend as (-> & _ & _). unfold r.
        rewrite Z.add_0_r. apply every_index_comes_up; lia.
      * destruct Hend as (_ & _ & Hi' & _). exists r. split; [lia|].
        unfold r. rewrite Hi'. f_equal. lia.
    + apply Hframe. intros t Ht Heq'. apply Hncu, Hup.
      exists t. split; [unfold r; destruct fb; lia|]. symmetry. exact Heq'.
Qed.

(** The calls of a run that starts with the budget [b] of backend [i],
    no operation of the run marking [i]: the calls in which its index
    comes up are at most [b] calls that skip it followed by calls that
    return it, and every other call leaves it alone. *)
Lemma run_calls_backoff E i ops :
  Forall (fun op => op_marked op <> Some i) ops ->
  forall s b,
    let N := Z.of_nat (length (Backends (proxy s))) in
    1 <= N -> 0 <= ReqCount (proxy s) ->
    ReqCount (proxy s) + N * Z.of_nat (length ops) <= GoInt.max_int ->
    budget_of s i = Some b -> 0 <= b <= 5 ->
    exists calls s',
      run_calls E ops s = (calls, s')
      /\ Forall progressing calls
      /\ Forall (passed_call i) (filter (fun call => ~ comes_up i call) calls)
      /\ exists skipped returned,
           filter (comes_up i) calls = (skipped ++ returned)%list
           /\ Forall (skipped_call i) skipped
           /\ Forall (returned_call i) returned
           /\ Z.of_nat (length skipped) <= b
           /\ (returned <> [] -> Z.of_nat (length skipped) = b)
           /\ budget_of s' i = Some (b - Z.of_nat (length skipped)).
Proof.
  induction 1 as [|op ops Hop Hops IH]; intros s b N HN Hc Hmax Hb Hbr.
  - exists [], s. split; [reflexivity|]. split; [constructor|].
    split; [constructor|]. exists [], [].
    split; [reflexivity|]. split; [constructor|]. split; [constructor|].
    cbn [length]. split; [lia|]. split; [intros []; reflexivity|].
    rewrite Z.sub_0_r. exact Hb.
  - assert (Hlen : Z.of_nat (length (op :: ops)) = Z.of_nat (length ops) + 1)
      by (cbn [length]; lia).
    rewrite Hlen in Hmax. clear Hlen.
    destruct op as [|j v].
    + destruct (selectBackend_call E s i b)
        as (idx & c' & m' & h' & Hsel & Hc' & Hcall);
        try (fold N; nia); [exact Hb|unfold GoInt.max_int; lia|].
      cbn zeta in Hcall.
      set (call := {| call_before := s; call_result := Done idx;
                      call_after := with_state s c' m' h' |}) in *.
      destruct Hcall as (Hprog & Hsk & Hret & Hpass).
      fold N in Hc'.
      assert (Hnext : forall b', budget_of (with_state s c' m' h') i = Some b' ->
                0 <= b' <= 5 ->
                exists calls s',
                  run_calls E (OpSelect :: ops) s = (call :: calls, s')
                  /\ Forall progressing calls
                  /\ Forall (passed_call i)
                       (filter (fun call => ~ comes_up i call) calls)
                  /\ exists skipped returned,
                       filter (comes_up i) calls = (skipped ++ returned)%list
                       /\ Forall (skipped_call i) skipped
                       /\ Forall (returned_call i) returned
                       /\ Z.of_nat (length skipped) <= b'
                       /\ (returned <> [] -> Z.of_nat (length skipped) = b')
                       /\ budget_of s' i = Some (b' - Z.of_nat (length skipped))).
      { intros b' Hb' Hbr'.
        destruct (IH (with_state s c' m' h') b') as (calls & s' & Hrun & Hrest);
          [exact HN|cbn; lia|cbn; fold N; nia|exact Hb'|exact Hbr'|].
        exists calls, s'. split; [|exact Hrest].
        cbn [run_calls]. rewrite Hsel, Hrun. reflexivity. }
      destruct (decide (comes_up i call)) as [Hcu|Hncu].
      * destruct (Z.eq_dec b 0) as [->|Hpos].
        -- pose proof (Hret Hcu eq_refl) as Hreturned.
           destruct (Hnext 0) as (calls & s' & Hrun & Hprogs & Hpassed
                                    & skipped & returned & Hfilter & Hskipped
                                    & Hreturneds & Hlen & Hfull & Hfinal);
             [apply Hreturned|lia|].
           assert (skipped = []) as -> by (destruct skipped; [reflexivity|cbn in Hlen; lia]).
           exists (call :: calls), s'. split; [exact Hrun|].
           split; [constructor; assumption|].
           split; [rewrite filter_cons_False by (intros Hn; exact (Hn Hcu)); exact Hpassed|].
           exists [], (call :: returned).
           rewrite filter_cons_True by exact Hcu.
           split; [cbn in Hfilter |- *; rewrite Hfilter; reflexivity|].
           split; [constructor|]. split; [constructor; assumption|].
           cbn [length]. split; [lia|]. split; [reflexivity|exact Hfinal].
        -- assert (Hb0 : 0 < b) by lia.
           destruct (Hsk Hcu Hb0) as (b0 & Hbefore & _ & Hafter & Hfb).
           assert (b0 = b) as ->.
           { cbn in Hbefore. rewrite Hb in Hbefore. congruence. }
           destruct (Hnext (b - 1)) as (calls & s' & Hrun & Hprogs & Hpassed
                                    & skipped & returned & Hfilter & Hskipped
                                    & Hreturneds & Hlen & Hfull & Hfinal);
             [exact Hafter|lia|].
           exists (call :: calls), s'. split; [exact Hrun|].
           split; [constructor; assumption|].
           split; [rewrite filter_cons_False by (intros Hn; exact (Hn Hcu)); exact Hpassed|].
           exists (call :: skipped), returned.
           rewrite filter_cons_True by exact Hcu.
           split; [rewrite Hfilter; reflexivity|].
           split; [constructor; [exact (Hsk Hcu Hb0)|exact Hskipped]|].
           split; [exact Hreturneds|].
           cbn [length]. split; [lia|]. split; [intros Hne; specialize (Hfull Hne); lia|].
           rewrite Hfinal. f_equal. lia.
      * destruct (Hpass Hncu) as [Hne Hsame].
        destruct (Hnext b) as (calls & s' & Hrun & Hprogs & Hpassed
                                 & skipped & returned & Hfilter & Hskipped
                                 & Hreturneds & Hlen & Hfull & Hfinal);
          [cbn in Hsame; rewrite Hsame; exact Hb|exact Hbr|].
        exists (call :: calls), s'. split; [exact Hrun|].
        split; [constructor; assumption|].
        split; [rewrite filter_cons_True by exact Hncu;
                constructor; [exact (Hpass Hncu)|exact Hpassed]|].
        exists skipped, returned.
        rewrite filter_cons_False by exact Hncu.
        repeat (split; [assumption|]). exact Hfinal.
    + cbn in Hop. assert (Hj : j <> i) by congruence.
      destruct (IH (with_state s (ReqCount (proxy s))
                      (<[j := v]> (DesolateBackend (proxy s))) (history s)) b)
        as (calls & s' & Hrun & Hrest);
        [exact HN|exact Hc|cbn; fold N; nia| |exact Hbr|].
      { unfold budget_of. cbn. rewrite lookup_insert_ne by exact Hj. exact Hb. }
      exists calls, s'. split; [|exact Hrest].
      cbn [run_calls]. rewrite mark_run. exact Hrun.
Qed.

(** C2, as amended.  After a failed dial of backend [i] has set its
    budget to 5, while the counter cannot overflow and no other dial of
    backend [i] is recorded, every call of [selectBackend] returns an
    index of the pool after one to [N] rounds, and the calls in which
    index [i] comes up are: first at most five calls that skip it, each
    taking one unit of its budget and returning [i] only if the call ends
    with the random choice after [N] skipped rounds; then, once five
    calls have skipped it, calls that return it in the round in which
    its index comes up, the budget staying zero.  Calls in which its
    index does not come up return another backend and leave the budget
    as it is. *)
Theorem backoff_over_calls E req s0 i s1 err s ops :
  selectBackend E s0 = (Done i, s1) ->
  connectBackend E req s0 = (Done (Failed err), s) ->
  let N := Z.of_nat (length (Backends (proxy s))) in
  0 <= ReqCount (proxy s) ->
  ReqCount (proxy s) + N * Z.of_nat (length ops) <= GoInt.max_int ->
  Forall (fun op => op_marked op <> Some i) ops ->
  budget_of s i = Some 5
  /\ exists calls s',
       run_calls E ops s = (calls, s')
       /\ Forall progressing calls
       /\ Forall (passed_call i) (filter (fun call => ~ comes_up i call) calls)
       /\ exists skipped returned,
            filter (comes_up i) calls = (skipped ++ returned)%list
            /\ Forall (skipped_call i) skipped
            /\ Forall (returned_call i) returned
            /\ (length skipped <= 5)%nat
            /\ (returned <> [] -> length skipped = 5%nat)
            /\ budget_of s' i = Some (5 - Z.of_nat (length skipped)).
Proof.
  intros Hsel Hconn N Hc Hmax Hops.
  destruct (slice_index_cases (Backends (proxy s1)) i) as [[backend Hslice]|Hslice].
  2: { rewrite (connectBackend_panic E req s0 i s1 _ Hsel Hslice) in Hconn.
       discriminate. }
  assert (Hi : 0 <= i < Z.of_nat (length (Backends (proxy s1)))).
  { unfold slice_index in Hslice.
    destruct (Z.ltb_spec i 0); [discriminate|].
    destruct (Z.leb_spec (Z.of_nat (length (Backends (proxy s1)))) i);
      [discriminate|lia]. }
  pose proof (connectBackend_run E req s0 i s1 backend Hsel Hslice) as Hrun.
  cbn zeta in Hrun. rewrite Hrun in Hconn. clear Hrun.
  remember (Dial _ _ _ _) as res eqn:Hres in Hconn.
  pose proof (f_equal fst Hconn) as Hfst.
  pose proof (f_equal snd Hconn) as Hsnd. cbn [fst snd] in Hfst, Hsnd.
  destruct res as [conn resp|err']; [discriminate|]. clear Hfst Hconn.
  assert (Hb : budget_of s i = Some 5).
  { rewrite <- Hsnd. unfold budget_of. cbn. apply lookup_insert_eq. }
  assert (HN : 1 <= N).
  { unfold N. rewrite <- Hsnd. cbn. lia. }
  split; [exact Hb|].
  destruct (run_calls_backoff E i ops Hops s 5 HN Hc Hmax Hb)
    as (calls & s' & Hrun & Hprog & Hpassed & skipped & returned
        & Hfilter & Hskipped & Hreturned & Hlen & Hfull & Hfinal); [lia|].
  exists calls, s'. split; [exact Hrun|]. split; [exact Hprog|].
  split; [exact Hpassed|]. exists skipped, returned.
  split; [exact Hfilter|]. split; [exact Hskipped|]. split; [exact Hreturned|].
  split; [lia|]. split; [intros Hne; specialize (Hfull Hne); lia|exact Hfinal].
Qed.

Lemma backoff_over_calls_witness :
  let s := (connectBackend example_env (example_request "/chat")
              (example_pool 2 1 ∅)).2 in
  budget_of s 0 = Some 5
  /\ exists calls s',
       run_calls example_env (repeat OpSelect 12) s = (calls, s')
       /\ Forall progressing calls
       /\ exists skipped returned,
            filter (comes_up 0) calls = (skipped ++ returned)%list
            /\ Forall (skipped_call 0) skipped
            /\ Forall (returned_call 0) returned.
Proof.
  destruct (backoff_over_calls example_env (example_request "/chat")
              (example_pool 2 1 ∅) 0 (example_pool 2 2 ∅) "connection refused"
              (connectBackend example_env (example_request "/chat")
                 (example_pool 2 1 ∅)).2
              (repeat OpSelect 12))
    as (Hb & calls & s' & Hrun & Hprog & _ & skipped & returned
        & Hfilter & Hskipped & Hreturned & _).
  - vm_compute. reflexivity.
  - vm_compute. reflexivity.
  - vm_compute. discriminate.
  - vm_compute. discriminate.
  - cbn [repeat]. repeat (constructor; [discriminate|]). constructor.
  - split; [exact Hb|]. exists calls, s'. split; [exact Hrun|].
    split; [exact Hprog|]. exists skipped, returned.
    split; [exact Hfilter|]. split; [exact Hskipped|exact Hreturned].
Defined.

(** The same run, evaluated: a pool of two backends, the dial of backend
    0 refused.  Five calls skip backend 0 and return backend 1 after two
    rounds each; from then on the calls alternate. *)
Example calls_after_refused_dial :
  let s := (connectBackend example_env (example_request "/chat")
              (example_pool 2 1 ∅)).2 in
  let calls := (run_calls example_env (repeat OpSelect 12) s).1 in
  call_result <$> calls = Done <$> [1; 1; 1; 1; 1; 1; 0; 1; 0; 1; 0; 1]
  /\ rounds_of <$> calls = [1; 2; 2; 2; 2; 2; 1; 1; 1; 1; 1; 1]
  /\ (fun call => budget_of (call_after call) 0) <$> calls
     = Some <$> [5; 4; 3; 2; 1; 0; 0; 0; 0; 0; 0; 0].
Proof. vm_compute. repeat split; reflexivity. Qed.

(** With a single backend the budget does not keep the backend out of
    the selection: the failed dial sets the budget of backend 0 to 5,
    and the very next call of [selectBackend] skips it in its one round,
    is left without a round and returns backend 0 by the random choice,
    the budget being still 4. *)
Lemma backoff_fallback_counterexample :
  let req := example_request "/chat" in
  let s :=
    {| proxy := proxy (example_pool 1 1 (<[0 := 5]> ∅));
       history := [EvDial (getRequestURL (example_target "") req)
                     (forwardedHeader req) (DialErr "connection refused")] |} in
  connectBackend example_env req (example_pool 1 0 ∅)
    = (Done (Failed "connection refused"), s)
  /\ budget_of s 0 = Some 5
  /\ selectBackend example_env s
     = (Done 0, with_state s 2 (<[0 := 4]> ∅) (history s ++ [EvNow]))
  /\ ~ excluded_while_marked example_env 0 s.
Proof.
  cbn zeta.
  split; [vm_compute; reflexivity|].
  split; [vm_compute; reflexivity|].
  split; [vm_compute; reflexivity|].
  intros Hex.
  refine (Hex 5 0 _ _ _ _ eq_refl); [vm_compute; reflexivity|lia|].
  vm_compute. reflexivity.
Qed.

(** Past the largest [int] the index of a marked backend does not come
    up any more: the dial of backend 1 of three is refused at the counter
    [max_int], and the calls that follow return -2, -1 and 0 in turn, the
    budget staying 5. *)
Example calls_past_overflow :
  let s := (connectBackend example_env (example_request "/chat")
              (example_pool 3 (GoInt.max_int - 1) ∅)).2 in
  let calls := (run_calls example_env (repeat OpSelect 6) s).1 in
  budget_of s 1 = Some 5
  /\ call_result <$> calls = Done <$> [-2; -1; 0; -2; -1; 0]
  /\ (fun call => budget_of (call_after call) 1) <$> calls
     = Some <$> [5; 5; 5; 5; 5; 5].
Proof. vm_compute. repeat split; reflexivity. Qed.

(** * The establishment, dial by dial *)

Lemma genuine_app d hdr h0 evs evs' :
  genuine d hdr h0 (evs ++ evs')
  <-> genuine d hdr h0 evs /\ genuine d hdr (h0 ++ evs) evs'.
Proof.
  revert h0. induction evs as [|e evs IH]; intros h0.
  - cbn [genuine app]. rewrite app_nil_r. tauto.
  - cbn [genuine app]. rewrite IH, <- app_assoc. cbn [app]. tauto.
Qed.

Lemma genuine_no_dial d hdr h0 evs :
  dial_results evs = [] -> genuine d hdr h0 evs.
Proof.
  revert h0. induction evs as [|e evs IH]; intros h0 H; [exact I|].
  destruct e; cbn in H |- *; try discriminate; split; try exact I; apply IH; exact H.
Qed.

(** One establishment on a pool that is not empty, with the dial that it
    makes: the dial goes to the dialer of the proxy with the headers of
    the request, on the history up to it, and the outcome follows the
    answer of the dialer. *)
Lemma connectBackend_dials E req s :
  (0 < length (Backends (proxy s)))%nat ->
  exists o c m evs,
    connectBackend E req s = (o, with_state s c m (history s ++ evs))
    /\ Forall establishing evs
    /\ genuine (dialer_of E (proxy s)) (requestHeader (proxy s) req) (history s) evs
    /\ ((exists conn resp,
           o = Done (Connected conn (upgradeHeader resp))
           /\ dial_results evs = [DialOk conn resp])
        \/ (exists err, o = Done (Failed err) /\ dial_results evs = [DialErr err])
        \/ (exists p, o = Panic p /\ dial_results evs = [])).
Proof.
  intros HN.
  destruct (select_loop_total E (S (length (Backends (proxy s))))
              (Z.of_nat (length (Backends (proxy s)))) 0 s)
    as (idx & c' & m' & h' & Hsel & Hh); [lia|lia|lia|].
  rewrite <- selectBackend_unfold in Hsel.
  assert (Hev : exists evs0, h' = (history s ++ evs0)%list
                             /\ Forall establishing evs0 /\ dial_results evs0 = []).
  { destruct Hh as [->| ->].
    - exists []. rewrite app_nil_r. repeat split. constructor.
    - exists [EvNow]. repeat split. repeat constructor. }
  destruct Hev as (evs0 & -> & Hest & Hdial).
  set (s1 := with_state s c' m' (history s ++ evs0)) in *.
  destruct (slice_index_cases (Backends (proxy s1)) idx) as [[backend Hb]|Hb].
  - pose proof (connectBackend_run E req s idx s1 backend Hsel Hb) as Hrun.
    cbn zeta in Hrun. rewrite Hrun. unfold s1. rewrite with_state_twice.
    cbn [with_state history]. rewrite <- app_assoc.
    set (url := backend req). set (hdr := requestHeader _ req).
    set (res := Dial _ _ url hdr).
    exists (Done match res with
                 | DialErr err => Failed err
                 | DialOk conn resp => Connected conn (upgradeHeader resp)
                 end).
    eexists _, _, (evs0 ++ [EvDial url hdr res])%list.
    split; [reflexivity|]. split; [|split].
    + apply Forall_app. split; [exact Hest|repeat constructor].
    + apply genuine_app. split; [apply genuine_no_dial; exact Hdial|].
      cbn [genuine]. split; [|exact I]. split; reflexivity.
    + rewrite dial_results_app, Hdial. cbn.
      destruct res; [left|right; left]; eauto.
  - rewrite (connectBackend_panic E req s idx s1 _ Hsel Hb).
    eexists _, c', m', evs0. split; [reflexivity|]. split; [exact Hest|].
    split; [apply genuine_no_dial; exact Hdial|].
    right; right. eauto.
Qed.

Lemma try_loop_dials E req left :
  forall s,
    (0 < length (Backends (proxy s)))%nat \/ left = 0%nat ->
    exists o c m evs,
      try_loop E req left s = (o, with_state s c m (history s ++ evs))
      /\ Forall establishing evs
      /\ genuine (dialer_of E (proxy s)) (requestHeader (proxy s) req)
           (history s) evs
      /\ first_success left o (dial_results evs).
Proof.
  induction left as [|left IH]; intros s HN.
  - exists (Done (Failed "No backend available")),
      (ReqCount (proxy s)), (DesolateBackend (proxy s)), [].
    cbn [try_loop ret]. rewrite app_nil_r, <- world_eta.
    split; [reflexivity|]. split; [constructor|]. split; [exact I|].
    split; [reflexivity|]. exists []. split; reflexivity.
  - destruct HN as [HN|?]; [|discriminate].
    destruct (connectBackend_dials E req s HN)
      as (o & c & m & evs & Hrun & Hest & Hgen & Hcase).
    cbn [try_loop]. unfold bind. rewrite Hrun.
    destruct Hcase as [(conn & resp & -> & Hd)|[(err & -> & Hd)|(p & -> & Hd)]].
    + exists (Done (Connected conn (upgradeHeader resp))), c, m, evs.
      split; [reflexivity|]. split; [exact Hest|]. split; [exact Hgen|].
      exists [], resp. rewrite Hd. repeat split. cbn. lia.
    + destruct (IH (with_state s c m (history s ++ evs)))
        as (o2 & c2 & m2 & evs2 & Hrun2 & Hest2 & Hgen2 & Hres2); [left; exact HN|].
      rewrite Hrun2, with_state_twice. cbn [with_state history].
      rewrite <- app_assoc.
      exists o2, c2, m2, (evs ++ evs2)%list.
      split; [reflexivity|]. split; [apply Forall_app; split; assumption|].
      split; [apply genuine_app; split; [exact Hgen|exact Hgen2]|].
      rewrite dial_results_app, Hd.
      destruct o2 as [[conn hdr|err2]|p|]; cbn in Hres2 |- *.
      * destruct Hres2 as (errs & resp & -> & -> & Hlen).
        exists (err :: errs), resp. repeat split. cbn. lia.
      * destruct Hres2 as (-> & errs & -> & Hlen).
        split; [reflexivity|]. exists (err :: errs). split; [reflexivity|].
        cbn. lia.
      * destruct Hres2 as (errs & -> & Hlen).
        exists (err :: errs). split; [reflexivity|]. cbn. lia.
      * contradiction.
    + exists (Panic p), c, m, evs.
      split; [reflexivity|]. split; [exact Hest|]. split; [exact Hgen|].
      exists []. rewrite Hd. split; [reflexivity|]. cbn. lia.
Qed.

(** C7, as amended.  While the counter cannot overflow during the
    establishment, [tryGetBackendConn] returns: it makes at most as many
    dials as there are backends, each one a dial of the proxy's dialer
    with the headers of the request; it returns the connection of the
    first dial that succeeds together with the upgrade headers of that
    response, all dials before it having been refused; and when as many
    dials as there are backends have been refused it returns the one
    error ["No backend available"], upon which [ServeHTTP] writes the
    response 500 with its fixed body and ends, no upgrade being
    attempted. *)
Theorem tryGetBackendConn_first_success E req s :
  let N := length (Backends (proxy s)) in
  0 <= ReqCount (proxy s) ->
  ReqCount (proxy s) + Z.of_nat N * Z.of_nat N <= GoInt.max_int ->
  exists r c m evs,
    tryGetBackendConn E req s = (Done r, with_state s c m (history s ++ evs))
    /\ Forall establishing evs
    /\ genuine (dialer_of E (proxy s)) (requestHeader (proxy s) req)
         (history s) evs
    /\ (length (dial_results evs) <= N)%nat
    /\ first_success N (Done r) (dial_results evs)
    /\ (forall err,
          r = Failed err ->
          err = "No backend available"
          /\ ServeHTTP E req s =
               (Done RespondedError,
                with_state s c m
                  (history s ++ evs
                   ++ [EvError "internal server error (code: 2)"
                         StatusInternalServerError]))).
Proof.
  intros N Hc Hmax.
  destruct (try_loop_dials E req N s)
    as (o & c & m & evs & Hrun & Hest & Hgen & Hres).
  { unfold N. destruct (Backends (proxy s)); [right; reflexivity|left; cbn; lia]. }
  assert (Htry : tryGetBackendConn E req s
                 = (o, with_state s c m (history s ++ evs))) by exact Hrun.
  destruct (tryGetBackendConn_in_range E req s Hc Hmax) as (r & s' & Hdone).
  assert (o = Done r) as ->.
  { rewrite Hdone in Htry. apply (f_equal fst) in Htry. symmetry. exact Htry. }
  exists r, c, m, evs.
  split; [exact Htry|]. split; [exact Hest|]. split; [exact Hgen|].
  split; [eapply first_success_length; exact Hres|].
  split; [exact Hres|].
  intros err ->. split; [apply Hres|].
  rewrite (ServeHTTP_no_backend E req s err _ Htry).
  rewrite with_state_twice. cbn [with_state history].
  rewrite <- app_assoc. reflexivity.
Qed.

Lemma tryGetBackendConn_first_success_witness :
  exists r c m evs,
    tryGetBackendConn example_env (example_request "/chat") (flaky_pool 2 0 ∅)
      = (Done r, with_state (flaky_pool 2 0 ∅) c m evs)
    /\ first_success 2 (Done r) (dial_results evs)
    /\ r = Connected 7%nat
             (<["Set-Cookie" := ["id=1"]]> (<["Sec-Websocket-Protocol" := ["chat"]]> ∅)).
Proof.
  destruct (tryGetBackendConn_first_success example_env (example_request "/chat")
              (flaky_pool 2 0 ∅))
    as (r & c & m & evs & Hrun & _ & _ & _ & Hres & _).
  - cbn. lia.
  - vm_compute. discriminate.
  - exists r, c, m, evs. split; [exact Hrun|]. split; [exact Hres|].
    apply (f_equal fst) in Hrun. vm_compute in Hrun. injection Hrun as <-.
    reflexivity.
Defined.

(** At the largest counter neither a connection nor the error is
    returned: the first selection of a pool of three healthy backends
    yields the index -2, the establishment panics on [Backends[-2]]
    before any dial, although the dialer would accept every dial, and
    [ServeHTTP] ends in that panic without a response. *)
Lemma tryGetBackendConn_overflow_counterexample :
  let req := example_request "/chat" in
  let s := example_pool 3 GoInt.max_int ∅ in
  tryGetBackendConn welcoming_env req s
    = (Panic (IndexOutOfRange (-2) 3), example_pool 3 GoInt.min_int ∅)
  /\ ServeHTTP welcoming_env req s
     = (Panic (IndexOutOfRange (-2) 3), example_pool 3 GoInt.min_int ∅)
  /\ ~ returns_first_success welcoming_env req s.
Proof.
  cbn zeta.
  assert (Hrun : tryGetBackendConn welcoming_env (example_request "/chat")
                   (example_pool 3 GoInt.max_int ∅)
                 = (Panic (IndexOutOfRange (-2) 3), example_pool 3 GoInt.min_int ∅))
    by (vm_compute; reflexivity).
  split; [exact Hrun|]. split; [vm_compute; reflexivity|].
  intros (r & s' & Hdone & _). rewrite Hrun in Hdone. discriminate.
Qed.
